(** * Insurance document financial parser

    A shallow embedding of [insurance_parser.py] (class [InsuranceParser])
    and the properties of its extraction pipeline.

    Layout:
    - [PyStr]   : Python [str] values (sequences of code points) and the
                  string methods the parser calls;
    - [Re]      : the fragment of Python's [re] the parser's patterns use
                  (a backtracking matcher, [finditer], [search]);
    - [PyFloat] : [float] values (binary64) and the [float(str)] conversion;
    - the parser itself, function by function, under the source's names;
    - the verified properties. *)

From Stdlib Require Import List ZArith NArith Bool Lia Arith String Ascii.
From Stdlib Require Import Sorted.
From Stdlib Require Import Permutation.
From Stdlib Require Import Floats.
Import ListNotations.

Set Implicit Arguments.
Set Warnings "-inexact-float".


(* ================================================================== *)
(** ** Python strings *)

Module PyStr.

(** A character is a Unicode code point; a [str] is a sequence of them. *)
Definition char := N.
Definition str := list char.

Definition char_eqb (a b : char) : bool := N.eqb a b.

Fixpoint eqb (a b : str) : bool :=
  match a, b with
  | [], [] => true
  | x :: a', y :: b' => char_eqb x y && eqb a' b'
  | _, _ => false
  end.

(** Literals are written as in the source file, which is UTF-8 encoded:
    [utf8] decodes the bytes of a Rocq string into code points. *)
Fixpoint utf8 (bs : list N) : str :=
  match bs with
  | [] => []
  | b0 :: t =>
      if (b0 <? 128)%N then b0 :: utf8 t
      else if (b0 <? 224)%N then
        match t with
        | b1 :: t' => ((b0 - 192) * 64 + (b1 - 128))%N :: utf8 t'
        | _ => []
        end
      else if (b0 <? 240)%N then
        match t with
        | b1 :: b2 :: t' =>
            ((b0 - 224) * 4096 + (b1 - 128) * 64 + (b2 - 128))%N :: utf8 t'
        | _ => []
        end
      else
        match t with
        | b1 :: b2 :: b3 :: t' =>
            ((b0 - 240) * 262144 + (b1 - 128) * 4096
             + (b2 - 128) * 64 + (b3 - 128))%N :: utf8 t'
        | _ => []
        end
  end.

Definition lit (s : string) : str :=
  utf8 (map N_of_ascii (list_ascii_of_string s)).

(** [needle in hay] *)
Fixpoint startswith (needle hay : str) : bool :=
  match needle, hay with
  | [], _ => true
  | _ :: _, [] => false
  | x :: n', y :: h' => char_eqb x y && startswith n' h'
  end.

Fixpoint contains (needle hay : str) : bool :=
  startswith needle hay
  || match hay with
     | [] => false
     | _ :: h' => contains needle h'
     end.

(** [str.isspace] on one character (Unicode 14, as CPython 3.11 ships it);
    it is also what [\s] matches and what [strip] removes. *)
Definition isspace (c : char) : bool :=
  ((9 <=? c) && (c <=? 13) || (28 <=? c) && (c <=? 32)
   || (c =? 133) || (c =? 160) || (c =? 5760)
   || (8192 <=? c) && (c <=? 8202)
   || (c =? 8232) || (c =? 8233) || (c =? 8239) || (c =? 8287)
   || (c =? 12288))%N.

(** The zeros of the decimal-digit blocks (general category Nd, Unicode 14):
    each block is ten consecutive code points for 0..9. *)
Definition decimal_zeros : list N :=
  [48; 1632; 1776; 1984; 2406; 2534; 2662; 2790; 2918; 3046; 3174; 3302;
   3430; 3558; 3664; 3792; 3872; 4160; 4240; 6112; 6160; 6470; 6608; 6784;
   6800; 6992; 7088; 7232; 7248; 42528; 43216; 43264; 43472; 43504; 43600;
   44016; 65296; 66720; 68912; 69734; 69872; 69942; 70096; 70384; 70736;
   70864; 71248; 71360; 71472; 71904; 72016; 72784; 73040; 73120; 92768;
   92864; 93008; 120782; 120792; 120802; 120812; 120822; 123200; 123632;
   125264; 130032]%N.

(** The digit value of a decimal character, if it is one. *)
Definition decimal (c : char) : option N :=
  match find (fun z => (z <=? c) && (c <? z + 10))%N decimal_zeros with
  | Some z => Some (c - z)%N
  | None => None
  end.

Definition isdecimal (c : char) : bool :=
  match decimal c with Some _ => true | None => false end.

(** [str.lower] (Unicode 14, as CPython 3.11 ships it).

    The lower-case mapping of single characters, as runs of code points:
    [(lo, hi, step, image)] maps [lo] to [image], [lo + step] to
    [image + step] and so on up to [hi]. U+0130 is the one character whose
    lower case is two characters; it is not in the table. *)
Definition lower_table : list (N * N * N * N) :=
  [
   (65, 90, 1, 97); (192, 214, 1, 224); (216, 222, 1, 248);
   (256, 302, 2, 257); (306, 310, 2, 307); (313, 327, 2, 314);
   (330, 374, 2, 331); (376, 376, 1, 255); (377, 381, 2, 378);
   (385, 385, 1, 595); (386, 388, 2, 387); (390, 390, 1, 596);
   (391, 391, 1, 392); (393, 394, 1, 598); (395, 395, 1, 396);
   (398, 398, 1, 477); (399, 399, 1, 601); (400, 400, 1, 603);
   (401, 401, 1, 402); (403, 403, 1, 608); (404, 404, 1, 611);
   (406, 406, 1, 617); (407, 407, 1, 616); (408, 408, 1, 409);
   (412, 412, 1, 623); (413, 413, 1, 626); (415, 415, 1, 629);
   (416, 420, 2, 417); (422, 422, 1, 640); (423, 423, 1, 424);
   (425, 425, 1, 643); (428, 428, 1, 429); (430, 430, 1, 648);
   (431, 431, 1, 432); (433, 434, 1, 650); (435, 437, 2, 436);
   (439, 439, 1, 658); (440, 440, 1, 441); (444, 444, 1, 445);
   (452, 452, 1, 454); (453, 453, 1, 454); (455, 455, 1, 457);
   (456, 456, 1, 457); (458, 458, 1, 460); (459, 475, 2, 460);
   (478, 494, 2, 479); (497, 497, 1, 499); (498, 500, 2, 499);
   (502, 502, 1, 405); (503, 503, 1, 447); (504, 542, 2, 505);
   (544, 544, 1, 414); (546, 562, 2, 547); (570, 570, 1, 11365);
   (571, 571, 1, 572); (573, 573, 1, 410); (574, 574, 1, 11366);
   (577, 577, 1, 578); (579, 579, 1, 384); (580, 580, 1, 649);
   (581, 581, 1, 652); (582, 590, 2, 583); (880, 882, 2, 881);
   (886, 886, 1, 887); (895, 895, 1, 1011); (902, 902, 1, 940);
   (904, 906, 1, 941); (908, 908, 1, 972); (910, 911, 1, 973);
   (913, 929, 1, 945); (931, 939, 1, 963); (975, 975, 1, 983);
   (984, 1006, 2, 985); (1012, 1012, 1, 952); (1015, 1015, 1, 1016);
   (1017, 1017, 1, 1010); (1018, 1018, 1, 1019); (1021, 1023, 1, 891);
   (1024, 1039, 1, 1104); (1040, 1071, 1, 1072); (1120, 1152, 2, 1121);
   (1162, 1214, 2, 1163); (1216, 1216, 1, 1231); (1217, 1229, 2, 1218);
   (1232, 1326, 2, 1233); (1329, 1366, 1, 1377); (4256, 4293, 1, 11520);
   (4295, 4295, 1, 11559); (4301, 4301, 1, 11565); (5024, 5103, 1, 43888);
   (5104, 5109, 1, 5112); (7312, 7354, 1, 4304); (7357, 7359, 1, 4349);
   (7680, 7828, 2, 7681); (7838, 7838, 1, 223); (7840, 7934, 2, 7841);
   (7944, 7951, 1, 7936); (7960, 7965, 1, 7952); (7976, 7983, 1, 7968);
   (7992, 7999, 1, 7984); (8008, 8013, 1, 8000); (8025, 8031, 2, 8017);
   (8040, 8047, 1, 8032); (8072, 8079, 1, 8064); (8088, 8095, 1, 8080);
   (8104, 8111, 1, 8096); (8120, 8121, 1, 8112); (8122, 8123, 1, 8048);
   (8124, 8124, 1, 8115); (8136, 8139, 1, 8050); (8140, 8140, 1, 8131);
   (8152, 8153, 1, 8144); (8154, 8155, 1, 8054); (8168, 8169, 1, 8160);
   (8170, 8171, 1, 8058); (8172, 8172, 1, 8165); (8184, 8185, 1, 8056);
   (8186, 8187, 1, 8060); (8188, 8188, 1, 8179); (8486, 8486, 1, 969);
   (8490, 8490, 1, 107); (8491, 8491, 1, 229); (8498, 8498, 1, 8526);
   (8544, 8559, 1, 8560); (8579, 8579, 1, 8580); (9398, 9423, 1, 9424);
   (11264, 11311, 1, 11312); (11360, 11360, 1, 11361);
   (11362, 11362, 1, 619); (11363, 11363, 1, 7549); (11364, 11364, 1, 637);
   (11367, 11371, 2, 11368); (11373, 11373, 1, 593); (11374, 11374, 1, 625);
   (11375, 11375, 1, 592); (11376, 11376, 1, 594); (11378, 11378, 1, 11379);
   (11381, 11381, 1, 11382); (11390, 11391, 1, 575);
   (11392, 11490, 2, 11393); (11499, 11501, 2, 11500);
   (11506, 11506, 1, 11507); (42560, 42604, 2, 42561);
   (42624, 42650, 2, 42625); (42786, 42798, 2, 42787);
   (42802, 42862, 2, 42803); (42873, 42875, 2, 42874);
   (42877, 42877, 1, 7545); (42878, 42886, 2, 42879);
   (42891, 42891, 1, 42892); (42893, 42893, 1, 613);
   (42896, 42898, 2, 42897); (42902, 42920, 2, 42903);
   (42922, 42922, 1, 614); (42923, 42923, 1, 604); (42924, 42924, 1, 609);
   (42925, 42925, 1, 620); (42926, 42926, 1, 618); (42928, 42928, 1, 670);
   (42929, 42929, 1, 647); (42930, 42930, 1, 669); (42931, 42931, 1, 43859);
   (42932, 42946, 2, 42933); (42948, 42948, 1, 42900);
   (42949, 42949, 1, 642); (42950, 42950, 1, 7566);
   (42951, 42953, 2, 42952); (42960, 42960, 1, 42961);
   (42966, 42968, 2, 42967); (42997, 42997, 1, 42998);
   (65313, 65338, 1, 65345); (66560, 66599, 1, 66600);
   (66736, 66771, 1, 66776); (66928, 66938, 1, 66967);
   (66940, 66954, 1, 66979); (66956, 66962, 1, 66995);
   (66964, 66965, 1, 67003); (68736, 68786, 1, 68800);
   (71840, 71871, 1, 71872); (93760, 93791, 1, 93792);
   (125184, 125217, 1, 125218)
  ]%N.

Definition lower_char (c : char) : str :=
  if (c =? 304)%N then [105; 775]%N
  else
    match
      find (fun r : N * N * N * N =>
              let '(lo, hi, step, _) := r in
              if (lo <=? c)%N then
                if (c <=? hi)%N then ((c - lo) mod step =? 0)%N else false
              else false)
        lower_table
    with
    | Some (lo, _, _, image) => [(image + (c - lo))%N]
    | None => [c]
    end.

(** The characters with the property [Case_Ignorable], and those with the
    property [Cased], as ranges of code points. *)
Definition case_ignorable_table : list (N * N) :=
  [
   (39, 39); (46, 46); (58, 58); (94, 94); (96, 96); (168, 168); (173, 173);
   (175, 175); (180, 180); (183, 184); (688, 879); (884, 885); (890, 890);
   (900, 901); (903, 903); (1155, 1161); (1369, 1369); (1375, 1375);
   (1425, 1469); (1471, 1471); (1473, 1474); (1476, 1477); (1479, 1479);
   (1524, 1524); (1536, 1541); (1552, 1562); (1564, 1564); (1600, 1600);
   (1611, 1631); (1648, 1648); (1750, 1757); (1759, 1768); (1770, 1773);
   (1807, 1807); (1809, 1809); (1840, 1866); (1958, 1968); (2027, 2037);
   (2042, 2042); (2045, 2045); (2070, 2093); (2137, 2139); (2184, 2184);
   (2192, 2193); (2200, 2207); (2249, 2306); (2362, 2362); (2364, 2364);
   (2369, 2376); (2381, 2381); (2385, 2391); (2402, 2403); (2417, 2417);
   (2433, 2433); (2492, 2492); (2497, 2500); (2509, 2509); (2530, 2531);
   (2558, 2558); (2561, 2562); (2620, 2620); (2625, 2626); (2631, 2632);
   (2635, 2637); (2641, 2641); (2672, 2673); (2677, 2677); (2689, 2690);
   (2748, 2748); (2753, 2757); (2759, 2760); (2765, 2765); (2786, 2787);
   (2810, 2815); (2817, 2817); (2876, 2876); (2879, 2879); (2881, 2884);
   (2893, 2893); (2901, 2902); (2914, 2915); (2946, 2946); (3008, 3008);
   (3021, 3021); (3072, 3072); (3076, 3076); (3132, 3132); (3134, 3136);
   (3142, 3144); (3146, 3149); (3157, 3158); (3170, 3171); (3201, 3201);
   (3260, 3260); (3263, 3263); (3270, 3270); (3276, 3277); (3298, 3299);
   (3328, 3329); (3387, 3388); (3393, 3396); (3405, 3405); (3426, 3427);
   (3457, 3457); (3530, 3530); (3538, 3540); (3542, 3542); (3633, 3633);
   (3636, 3642); (3654, 3662); (3761, 3761); (3764, 3772); (3782, 3782);
   (3784, 3789); (3864, 3865); (3893, 3893); (3895, 3895); (3897, 3897);
   (3953, 3966); (3968, 3972); (3974, 3975); (3981, 3991); (3993, 4028);
   (4038, 4038); (4141, 4144); (4146, 4151); (4153, 4154); (4157, 4158);
   (4184, 4185); (4190, 4192); (4209, 4212); (4226, 4226); (4229, 4230);
   (4237, 4237); (4253, 4253); (4348, 4348); (4957, 4959); (5906, 5908);
   (5938, 5939); (5970, 5971); (6002, 6003); (6068, 6069); (6071, 6077);
   (6086, 6086); (6089, 6099); (6103, 6103); (6109, 6109); (6155, 6159);
   (6211, 6211); (6277, 6278); (6313, 6313); (6432, 6434); (6439, 6440);
   (6450, 6450); (6457, 6459); (6679, 6680); (6683, 6683); (6742, 6742);
   (6744, 6750); (6752, 6752); (6754, 6754); (6757, 6764); (6771, 6780);
   (6783, 6783); (6823, 6823); (6832, 6862); (6912, 6915); (6964, 6964);
   (6966, 6970); (6972, 6972); (6978, 6978); (7019, 7027); (7040, 7041);
   (7074, 7077); (7080, 7081); (7083, 7085); (7142, 7142); (7144, 7145);
   (7149, 7149); (7151, 7153); (7212, 7219); (7222, 7223); (7288, 7293);
   (7376, 7378); (7380, 7392); (7394, 7400); (7405, 7405); (7412, 7412);
   (7416, 7417); (7468, 7530); (7544, 7544); (7579, 7679); (8125, 8125);
   (8127, 8129); (8141, 8143); (8157, 8159); (8173, 8175); (8189, 8190);
   (8203, 8207); (8216, 8217); (8228, 8228); (8231, 8231); (8234, 8238);
   (8288, 8292); (8294, 8303); (8305, 8305); (8319, 8319); (8336, 8348);
   (8400, 8432); (11388, 11389); (11503, 11505); (11631, 11631);
   (11647, 11647); (11744, 11775); (11823, 11823); (12293, 12293);
   (12330, 12333); (12337, 12341); (12347, 12347); (12441, 12446);
   (12540, 12542); (40981, 40981); (42232, 42237); (42508, 42508);
   (42607, 42610); (42612, 42621); (42623, 42623); (42652, 42655);
   (42736, 42737); (42752, 42785); (42864, 42864); (42888, 42890);
   (42994, 42996); (43000, 43001); (43010, 43010); (43014, 43014);
   (43019, 43019); (43045, 43046); (43052, 43052); (43204, 43205);
   (43232, 43249); (43263, 43263); (43302, 43309); (43335, 43345);
   (43392, 43394); (43443, 43443); (43446, 43449); (43452, 43453);
   (43471, 43471); (43493, 43494); (43561, 43566); (43569, 43570);
   (43573, 43574); (43587, 43587); (43596, 43596); (43632, 43632);
   (43644, 43644); (43696, 43696); (43698, 43700); (43703, 43704);
   (43710, 43711); (43713, 43713); (43741, 43741); (43756, 43757);
   (43763, 43764); (43766, 43766); (43867, 43871); (43881, 43883);
   (44005, 44005); (44008, 44008); (44013, 44013); (64286, 64286);
   (64434, 64450); (65024, 65039); (65043, 65043); (65056, 65071);
   (65106, 65106); (65109, 65109); (65279, 65279); (65287, 65287);
   (65294, 65294); (65306, 65306); (65342, 65342); (65344, 65344);
   (65392, 65392); (65438, 65439); (65507, 65507); (65529, 65531);
   (66045, 66045); (66272, 66272); (66422, 66426); (67456, 67461);
   (67463, 67504); (67506, 67514); (68097, 68099); (68101, 68102);
   (68108, 68111); (68152, 68154); (68159, 68159); (68325, 68326);
   (68900, 68903); (69291, 69292); (69446, 69456); (69506, 69509);
   (69633, 69633); (69688, 69702); (69744, 69744); (69747, 69748);
   (69759, 69761); (69811, 69814); (69817, 69818); (69821, 69821);
   (69826, 69826); (69837, 69837); (69888, 69890); (69927, 69931);
   (69933, 69940); (70003, 70003); (70016, 70017); (70070, 70078);
   (70089, 70092); (70095, 70095); (70191, 70193); (70196, 70196);
   (70198, 70199); (70206, 70206); (70367, 70367); (70371, 70378);
   (70400, 70401); (70459, 70460); (70464, 70464); (70502, 70508);
   (70512, 70516); (70712, 70719); (70722, 70724); (70726, 70726);
   (70750, 70750); (70835, 70840); (70842, 70842); (70847, 70848);
   (70850, 70851); (71090, 71093); (71100, 71101); (71103, 71104);
   (71132, 71133); (71219, 71226); (71229, 71229); (71231, 71232);
   (71339, 71339); (71341, 71341); (71344, 71349); (71351, 71351);
   (71453, 71455); (71458, 71461); (71463, 71467); (71727, 71735);
   (71737, 71738); (71995, 71996); (71998, 71998); (72003, 72003);
   (72148, 72151); (72154, 72155); (72160, 72160); (72193, 72202);
   (72243, 72248); (72251, 72254); (72263, 72263); (72273, 72278);
   (72281, 72283); (72330, 72342); (72344, 72345); (72752, 72758);
   (72760, 72765); (72767, 72767); (72850, 72871); (72874, 72880);
   (72882, 72883); (72885, 72886); (73009, 73014); (73018, 73018);
   (73020, 73021); (73023, 73029); (73031, 73031); (73104, 73105);
   (73109, 73109); (73111, 73111); (73459, 73460); (78896, 78904);
   (92912, 92916); (92976, 92982); (92992, 92995); (94031, 94031);
   (94095, 94111); (94176, 94177); (94179, 94180); (110576, 110579);
   (110581, 110587); (110589, 110590); (113821, 113822); (113824, 113827);
   (118528, 118573); (118576, 118598); (119143, 119145); (119155, 119170);
   (119173, 119179); (119210, 119213); (119362, 119364); (121344, 121398);
   (121403, 121452); (121461, 121461); (121476, 121476); (121499, 121503);
   (121505, 121519); (122880, 122886); (122888, 122904); (122907, 122913);
   (122915, 122916); (122918, 122922); (123184, 123197); (123566, 123566);
   (123628, 123631); (125136, 125142); (125252, 125259); (127995, 127999);
   (917505, 917505); (917536, 917631); (917760, 917999)
  ]%N.

Definition cased_table : list (N * N) :=
  [
   (65, 90); (97, 122); (170, 170); (181, 181); (186, 186); (192, 214);
   (216, 246); (248, 442); (444, 447); (452, 659); (661, 696); (704, 705);
   (736, 740); (837, 837); (880, 883); (886, 887); (890, 893); (895, 895);
   (902, 902); (904, 906); (908, 908); (910, 929); (931, 1013);
   (1015, 1153); (1162, 1327); (1329, 1366); (1376, 1416); (4256, 4293);
   (4295, 4295); (4301, 4301); (4304, 4346); (4349, 4351); (5024, 5109);
   (5112, 5117); (7296, 7304); (7312, 7354); (7357, 7359); (7424, 7615);
   (7680, 7957); (7960, 7965); (7968, 8005); (8008, 8013); (8016, 8023);
   (8025, 8025); (8027, 8027); (8029, 8029); (8031, 8061); (8064, 8116);
   (8118, 8124); (8126, 8126); (8130, 8132); (8134, 8140); (8144, 8147);
   (8150, 8155); (8160, 8172); (8178, 8180); (8182, 8188); (8305, 8305);
   (8319, 8319); (8336, 8348); (8450, 8450); (8455, 8455); (8458, 8467);
   (8469, 8469); (8473, 8477); (8484, 8484); (8486, 8486); (8488, 8488);
   (8490, 8493); (8495, 8500); (8505, 8505); (8508, 8511); (8517, 8521);
   (8526, 8526); (8544, 8575); (8579, 8580); (9398, 9449); (11264, 11492);
   (11499, 11502); (11506, 11507); (11520, 11557); (11559, 11559);
   (11565, 11565); (42560, 42605); (42624, 42653); (42786, 42887);
   (42891, 42894); (42896, 42954); (42960, 42961); (42963, 42963);
   (42965, 42969); (42997, 42998); (43000, 43002); (43824, 43866);
   (43868, 43880); (43888, 43967); (64256, 64262); (64275, 64279);
   (65313, 65338); (65345, 65370); (66560, 66639); (66736, 66771);
   (66776, 66811); (66928, 66938); (66940, 66954); (66956, 66962);
   (66964, 66965); (66967, 66977); (66979, 66993); (66995, 67001);
   (67003, 67004); (67456, 67456); (67459, 67461); (67463, 67504);
   (67506, 67514); (68736, 68786); (68800, 68850); (71840, 71903);
   (93760, 93823); (119808, 119892); (119894, 119964); (119966, 119967);
   (119970, 119970); (119973, 119974); (119977, 119980); (119982, 119993);
   (119995, 119995); (119997, 120003); (120005, 120069); (120071, 120074);
   (120077, 120084); (120086, 120092); (120094, 120121); (120123, 120126);
   (120128, 120132); (120134, 120134); (120138, 120144); (120146, 120485);
   (120488, 120512); (120514, 120538); (120540, 120570); (120572, 120596);
   (120598, 120628); (120630, 120654); (120656, 120686); (120688, 120712);
   (120714, 120744); (120746, 120770); (120772, 120779); (122624, 122633);
   (122635, 122654); (125184, 125251); (127280, 127305); (127312, 127337);
   (127344, 127369)
  ]%N.

Definition in_ranges (table : list (N * N)) (c : char) : bool :=
  existsb (fun r => if (fst r <=? c)%N then (c <=? snd r)%N else false)
    table.

Definition case_ignorable (c : char) : bool :=
  in_ranges case_ignorable_table c.

Definition cased (c : char) : bool := in_ranges cased_table c.

(** Whether a cased character comes next, case-ignorable ones apart. *)
Fixpoint cased_next (s : str) : bool :=
  match s with
  | [] => false
  | c :: s' => if case_ignorable c then cased_next s' else cased c
  end.

(** A capital sigma (U+03A3) becomes the final small sigma (U+03C2) when
    a cased character comes before it and none comes after it,
    case-ignorable characters apart; otherwise it becomes the small sigma
    (U+03C3). [after_cased] tells whether the last character before [s]
    that is not case-ignorable is cased. *)
Fixpoint lower_from (after_cased : bool) (s : str) : str :=
  match s with
  | [] => []
  | c :: s' =>
      (if (c =? 931)%N then
         [if after_cased && negb (cased_next s') then 962%N else 963%N]
       else lower_char c)
      ++ lower_from (if case_ignorable c then after_cased else cased c) s'
  end.

Definition lower (s : str) : str := lower_from false s.

(** [s.replace(old, new)] for one-character [old] and [new]. *)
Definition replace (old new : char) (s : str) : str :=
  map (fun c => if char_eqb c old then new else c) s.

(** [s.replace(old, '')] for a one-character [old]. *)
Definition remove (old : char) (s : str) : str :=
  filter (fun c => negb (char_eqb c old)) s.

(** [s.count(c)] for a one-character [c]. *)
Definition count (c : char) (s : str) : nat :=
  List.length (filter (char_eqb c) s).

(** [s.split(sep)] for a one-character separator: never empty. *)
Fixpoint split (sep : char) (s : str) : list str :=
  match s with
  | [] => [[]]
  | c :: s' =>
      if char_eqb c sep then [] :: split sep s'
      else match split sep s' with
           | [] => [[c]]
           | w :: ws => (c :: w) :: ws
           end
  end.

Fixpoint lstrip (s : str) : str :=
  match s with
  | c :: s' => if isspace c then lstrip s' else s
  | [] => []
  end.

Definition rstrip (s : str) : str := rev (lstrip (rev s)).

Definition strip (s : str) : str := rstrip (lstrip s).

(** [s[i:j]] for indices [0 <= i], [0 <= j] (clipped to the string). *)
Definition slice (s : str) (i j : nat) : str := firstn (j - i) (skipn i s).

(** [str(n)] for a natural number. *)
Fixpoint of_uint (d : Decimal.uint) : str :=
  match d with
  | Decimal.Nil => []
  | Decimal.D0 d' => 48%N :: of_uint d'
  | Decimal.D1 d' => 49%N :: of_uint d'
  | Decimal.D2 d' => 50%N :: of_uint d'
  | Decimal.D3 d' => 51%N :: of_uint d'
  | Decimal.D4 d' => 52%N :: of_uint d'
  | Decimal.D5 d' => 53%N :: of_uint d'
  | Decimal.D6 d' => 54%N :: of_uint d'
  | Decimal.D7 d' => 55%N :: of_uint d'
  | Decimal.D8 d' => 56%N :: of_uint d'
  | Decimal.D9 d' => 57%N :: of_uint d'
  end.

Definition of_nat (n : nat) : str := of_uint (Nat.to_uint n).

End PyStr.

Abbreviation str := PyStr.str.
Abbreviation char := PyStr.char.
Notation "'u' s" := (PyStr.lit s%string) (at level 1, s at level 0, only parsing).

(* ================================================================== *)
(** ** Regular expressions

    The fragment of Python's [re] that the parser's patterns are written
    in: literals, [\s], [\d] and escaped punctuation, character sets
    (possibly negated), groups (capturing and [(?:...)]), alternation and
    the greedy quantifiers [?], [*], [+], [{m}], [{m,n}]; matching is by
    backtracking, leftmost first, as in the [sre] engine. *)

Module Re.
Import PyStr.

Inductive set_item :=
| SChar (c : char)
| SSpace
| SDigit.

Inductive regex :=
| Empty
| Lit (c : char)
| CharSet (negated : bool) (items : list set_item)
| Seq (r1 r2 : regex)
| Alt (r1 r2 : regex)
| Star (r : regex)
| Group (g : nat) (r : regex).

(** *** Quantifiers, in terms of the core constructors (all greedy) *)

Definition opt (r : regex) : regex := Alt r Empty.
Definition plus (r : regex) : regex := Seq r (Star r).

Fixpoint repeat_exact (n : nat) (r : regex) : regex :=
  match n with
  | O => Empty
  | S n' => Seq r (repeat_exact n' r)
  end.

Fixpoint repeat_upto (n : nat) (r : regex) : regex :=
  match n with
  | O => Empty
  | S n' => opt (Seq r (repeat_upto n' r))
  end.

Definition repeat_range (m n : nat) (r : regex) : regex :=
  Seq (repeat_exact m r) (repeat_upto (n - m) r).

Definition seq (a b : regex) : regex :=
  match b with
  | Empty => a
  | _ => Seq a b
  end.

(** *** Reading a pattern *)

Definition is_ascii_digit (c : char) : bool := ((48 <=? c) && (c <=? 57))%N.

Definition is_ascii_letter (c : char) : bool :=
  ((65 <=? c) && (c <=? 90) || (97 <=? c) && (c <=? 122))%N.

(** Characters with a meaning of their own outside a set. *)
Definition is_special (c : char) : bool :=
  existsb (char_eqb c) (u".^$*+?{}[]\|()").

Fixpoint read_nat (s : str) (acc : nat) : nat * str :=
  match s with
  | c :: s' =>
      if is_ascii_digit c then read_nat s' (10 * acc + N.to_nat (c - 48))
      else (acc, s)
  | [] => (acc, s)
  end.

(** An escape [\c]: a category, or the character itself when [c] is not a
    letter or digit. *)
Definition read_escape (c : char) : option set_item :=
  if char_eqb c 115%N then Some SSpace
  else if char_eqb c 100%N then Some SDigit
  else if is_ascii_letter c || is_ascii_digit c then None
  else Some (SChar c).

(** The items of a set, up to the closing bracket. A [-] is taken as a
    literal where it stands first or last; a range is not read. *)
Fixpoint read_set (s : str) (first : bool) : option (list set_item * str) :=
  match s with
  | [] => None
  | 93%N :: s' => if first then None else Some ([], s')
  | 92%N :: c :: s' =>
      match read_escape c, read_set s' false with
      | Some i, Some (items, rest) => Some (i :: items, rest)
      | _, _ => None
      end
  | 45%N :: s' =>
      match s' with
      | 93%N :: _ =>
          match read_set s' false with
          | Some (items, rest) => Some (SChar 45%N :: items, rest)
          | None => None
          end
      | _ =>
          if first then
            match read_set s' false with
            | Some (items, rest) => Some (SChar 45%N :: items, rest)
            | None => None
            end
          else None
      end
  | c :: s' =>
      match read_set s' false with
      | Some (items, rest) => Some (SChar c :: items, rest)
      | None => None
      end
  end.

(** A quantifier after an atom, if there is one. *)
Definition read_quantifier (a : regex) (s : str) : option (regex * str) :=
  match s with
  | 63%N :: s' => Some (opt a, s')
  | 42%N :: s' => Some (Star a, s')
  | 43%N :: s' => Some (plus a, s')
  | 123%N :: s' =>
      let '(m, s1) := read_nat s' 0 in
      match s1 with
      | 125%N :: s2 => Some (repeat_exact m a, s2)
      | 44%N :: s2 =>
          let '(n, s3) := read_nat s2 0 in
          match s3 with
          | 125%N :: s4 => Some (repeat_range m n a, s4)
          | _ => None
          end
      | _ => None
      end
  | _ => Some (a, s)
  end.

(** The reader proper: alternatives of sequences of quantified atoms.
    The result carries the unread rest and the next group number. *)
Fixpoint read_alt (fuel : nat) (s : str) (g : nat)
  : option (regex * str * nat) :=
  match fuel with
  | O => None
  | S f =>
      match read_seq f s g with
      | Some (r1, 124%N :: s2, g1) =>
          match read_alt f s2 g1 with
          | Some (r2, s3, g2) => Some (Alt r1 r2, s3, g2)
          | None => None
          end
      | other => other
      end
  end
with read_seq (fuel : nat) (s : str) (g : nat)
  : option (regex * str * nat) :=
  match fuel with
  | O => None
  | S f =>
      match s with
      | [] => Some (Empty, s, g)
      | 124%N :: _ => Some (Empty, s, g)
      | 41%N :: _ => Some (Empty, s, g)
      | _ =>
          match read_atom f s g with
          | Some (a, s1, g1) =>
              match read_quantifier a s1 with
              | Some (q, s2) =>
                  match read_seq f s2 g1 with
                  | Some (rest, s3, g3) => Some (seq q rest, s3, g3)
                  | None => None
                  end
              | None => None
              end
          | None => None
          end
      end
  end
with read_atom (fuel : nat) (s : str) (g : nat)
  : option (regex * str * nat) :=
  match fuel with
  | O => None
  | S f =>
      match s with
      | 40%N :: 63%N :: 58%N :: s1 =>
          match read_alt f s1 g with
          | Some (r, 41%N :: s2, g1) => Some (r, s2, g1)
          | _ => None
          end
      | 40%N :: s1 =>
          match read_alt f s1 (S g) with
          | Some (r, 41%N :: s2, g1) => Some (Group g r, s2, g1)
          | _ => None
          end
      | 91%N :: 94%N :: s1 =>
          match read_set s1 true with
          | Some (items, s2) => Some (CharSet true items, s2, g)
          | None => None
          end
      | 91%N :: s1 =>
          match read_set s1 true with
          | Some (items, s2) => Some (CharSet false items, s2, g)
          | None => None
          end
      | 92%N :: c :: s1 =>
          match read_escape c with
          | Some (SChar x) => Some (Lit x, s1, g)
          | Some i => Some (CharSet false [i], s1, g)
          | None => None
          end
      | c :: s1 => if is_special c then None else Some (Lit c, s1, g)
      | [] => None
      end
  end.

(** A compiled pattern: the expression and the [re.IGNORECASE] flag. *)
Record Pattern := { p_regex : regex; p_ignorecase : bool }.

(** [re.compile(pattern, flags)]; [None] stands for [re.error] (or for a
    pattern outside the fragment). *)
Definition compile (pattern : str) (ignorecase : bool) : option Pattern :=
  match read_alt (3 * List.length pattern + 3) pattern 1 with
  | Some (r, [], _) => Some {| p_regex := r; p_ignorecase := ignorecase |}
  | _ => None
  end.

(** *** Matching *)

(** The simple lower-casing the engine compares with. Outside ASCII only
    U+0130 and U+212A lower-case to an ASCII letter. *)
Definition tolower (c : char) : char :=
  if ((65 <=? c) && (c <=? 90))%N then (c + 32)%N
  else if (c =? 304)%N then 105%N
  else if (c =? 8490)%N then 107%N
  else c.

(** A pattern character [p] against a text character [c]. With
    [IGNORECASE] the lower-cased characters are compared, and [i] and [s]
    also match their equivalents U+0131 and U+017F. The patterns here have
    ASCII or caseless literals only. *)
Definition lit_match (ic : bool) (p c : char) : bool :=
  if ic then
    let lo := tolower p in
    let x := tolower c in
    ((x =? lo) || (lo =? 105) && (x =? 305) || (lo =? 115) && (x =? 383))%N
  else char_eqb c p.

Definition item_match (ic : bool) (i : set_item) (c : char) : bool :=
  match i with
  | SChar p => lit_match ic p c
  | SSpace => isspace c
  | SDigit => isdecimal c
  end.

Definition set_match (ic negated : bool) (items : list set_item) (c : char)
  : bool :=
  xorb negated (existsb (fun i => item_match ic i c) items).

(** The groups set so far: the latest entry for a number is its span. *)
Definition captures := list (nat * (nat * nat)).

Fixpoint lookup (g : nat) (caps : captures) : option (nat * nat) :=
  match caps with
  | [] => None
  | (g', span) :: rest => if Nat.eqb g g' then Some span else lookup g rest
  end.

Section Matcher.
Variable R : Type.
Variable ic : bool.

(** [rmatch r pos s caps k]: match [r] at position [pos], where [s] is
    the text from [pos] on, then go on with [k]; a failure of [k] makes
    the matcher try its next alternative. A [Star] takes as many rounds
    as it can, each of which must move forward, so that [length s] bounds
    their number. *)
Fixpoint rmatch (r : regex) (pos : nat) (s : str) (caps : captures)
  (k : nat -> str -> captures -> option R) {struct r} : option R :=
  match r with
  | Empty => k pos s caps
  | Lit p =>
      match s with
      | c :: s' => if lit_match ic p c then k (S pos) s' caps else None
      | [] => None
      end
  | CharSet negated items =>
      match s with
      | c :: s' =>
          if set_match ic negated items c then k (S pos) s' caps else None
      | [] => None
      end
  | Seq r1 r2 =>
      rmatch r1 pos s caps (fun p' s' c' => rmatch r2 p' s' c' k)
  | Alt r1 r2 =>
      match rmatch r1 pos s caps k with
      | Some x => Some x
      | None => rmatch r2 pos s caps k
      end
  | Star r1 =>
      (fix rounds (n : nat) (pos : nat) (s : str) (caps : captures)
         : option R :=
         match n with
         | O => k pos s caps
         | S n' =>
             match rmatch r1 pos s caps
                     (fun p' s' c' =>
                        if Nat.eqb p' pos then None else rounds n' p' s' c')
             with
             | Some x => Some x
             | None => k pos s caps
             end
         end) (List.length s) pos s caps
  | Group g r1 =>
      rmatch r1 pos s caps (fun p' s' c' => k p' s' ((g, (pos, p')) :: c'))
  end.
End Matcher.

(** Whether every match of [r] sets group [g]. *)
Fixpoint always_sets (g : nat) (r : regex) : bool :=
  match r with
  | Empty | Lit _ | CharSet _ _ | Star _ => false
  | Seq r1 r2 => always_sets g r1 || always_sets g r2
  | Alt r1 r2 => always_sets g r1 && always_sets g r2
  | Group g' r1 => Nat.eqb g g' || always_sets g r1
  end.

(** A match object: its span and its groups. *)
Record Match := { m_start : nat; m_end : nat; m_groups : captures }.

(** A match starting at [pos]; with [must_advance] the empty match is not
    accepted (the scanner asks for that after an empty match). *)
Definition match_at (p : Pattern) (pos : nat) (s : str) (must_advance : bool)
  : option Match :=
  rmatch (p_ignorecase p) (p_regex p) pos s []
    (fun e _ caps =>
       if must_advance && Nat.eqb e pos then None
       else Some {| m_start := pos; m_end := e; m_groups := caps |}).

(** [finditer]: the matches from left to right, none overlapping. [skip]
    counts the characters still inside the previous match. *)
Fixpoint scan (p : Pattern) (pos : nat) (s : str) (skip : nat)
  : list Match :=
  let next (k : nat) : list Match :=
    match s with
    | [] => []
    | _ :: s' => scan p (S pos) s' k
    end in
  match skip with
  | S k => next k
  | O =>
      match match_at p pos s false with
      | Some m =>
          if Nat.eqb (m_end m) pos then
            m :: match match_at p pos s true with
                 | Some m2 => m2 :: next (m_end m2 - pos - 1)
                 | None => next 0
                 end
          else m :: next (m_end m - pos - 1)
      | None => next 0
      end
  end.

Definition finditer (p : Pattern) (text : str) : list Match :=
  scan p 0 text 0.

(** [re.search]: the leftmost match, if any. *)
Fixpoint search_from (p : Pattern) (pos : nat) (s : str) : option Match :=
  match match_at p pos s false with
  | Some m => Some m
  | None =>
      match s with
      | [] => None
      | _ :: s' => search_from p (S pos) s'
      end
  end.

Definition search (p : Pattern) (text : str) : option Match :=
  search_from p 0 text.

(** [m.group(g)] on a match in [text]; [None] is Python's [None], for a
    group that took no part in the match. *)
Definition group (text : str) (m : Match) (g : nat) : option str :=
  match g with
  | O => Some (slice text (m_start m) (m_end m))
  | _ =>
      match lookup g (m_groups m) with
      | Some (b, e) => Some (slice text b e)
      | None => None
      end
  end.

End Re.

(* ================================================================== *)
(** ** Python floats

    A [float] is an IEEE 754 binary64 number: Rocq's primitive [float].
    The arithmetic and the comparisons are the primitive ones; what is
    defined here is [float(str)] and Python's reading of comparisons. *)

Module PyFloat.
Import PyStr.

Definition float := PrimFloat.float.
Bind Scope float_scope with float.

Definition gt (a b : float) : bool := PrimFloat.ltb b a.
Definition lt (a b : float) : bool := PrimFloat.ltb a b.
Definition ge (a b : float) : bool := PrimFloat.leb b a.

(** [bool(x)]: a float is true unless it is zero. *)
Definition truthy (x : float) : bool := negb (PrimFloat.eqb x 0%float).

(** [min(a, b)]: the first argument unless the second is smaller. *)
Definition min (a b : float) : float := if lt b a then b else a.

(** The binary64 number nearest to [n / d] (ties to even), for [0 <= n]
    and [0 < d]: the quotient is cut to 53 bits at the exponent [e] (not
    below the subnormal exponent) and rounded on the remainder. *)
Definition of_ratio (n d : Z) : float :=
  if (n <=? 0)%Z then 0%float
  else
    let e0 := (Z.log2 n - Z.log2 d - 52)%Z in
    let scaled (e : Z) : Z * Z :=
      if (0 <=? e)%Z then (n, d * 2 ^ e)%Z else (n * 2 ^ (- e), d)%Z in
    let q0 := (fst (scaled e0) / snd (scaled e0))%Z in
    let e1 := if (q0 <? 2 ^ 52)%Z then (e0 - 1)%Z else e0 in
    let e := Z.max e1 (-1074) in
    let '(num, den) := scaled e in
    let q := (num / den)%Z in
    let r := (num mod den)%Z in
    let q' :=
      if (den <? 2 * r)%Z || ((2 * r =? den)%Z && Z.odd q)
      then (q + 1)%Z else q in
    if (971 <? e)%Z then PrimFloat.infinity
    else FloatOps.Z.ldexp (PrimFloat.of_uint63 (Uint63.of_Z q')) e.

(** The number written by decimal digits (most significant first). *)
Fixpoint digits_value (ds : list N) (acc : Z) : Z :=
  match ds with
  | [] => acc
  | d :: ds' => digits_value ds' (10 * acc + Z.of_N d)
  end.

(** [float] first maps every Unicode space to a blank and every decimal
    digit to its ASCII digit; any other non-ASCII character is an error. *)
Fixpoint to_ascii (s : str) : option str :=
  match s with
  | [] => Some []
  | c :: s' =>
      match to_ascii s' with
      | None => None
      | Some t =>
          if (c <? 127)%N then Some (c :: t)
          else if isspace c then Some (32%N :: t)
          else match decimal c with
               | Some d => Some ((48 + d)%N :: t)
               | None => None
               end
      end
  end.

(** The blanks of the C locale, which [float] skips at both ends. *)
Definition c_isspace (c : char) : bool :=
  ((9 <=? c) && (c <=? 13) || (c =? 32))%N.

Fixpoint c_lstrip (s : str) : str :=
  match s with
  | c :: s' => if c_isspace c then c_lstrip s' else s
  | [] => []
  end.

Definition c_strip (s : str) : str := rev (c_lstrip (rev (c_lstrip s))).

Definition is_digit (c : char) : bool := ((48 <=? c) && (c <=? 57))%N.

(** An underscore may only stand between two digits; they are dropped. *)
Fixpoint drop_underscores (prev : char) (s : str) : option str :=
  match s with
  | [] => if (prev =? 95)%N then None else Some []
  | c :: s' =>
      if (c =? 95)%N then
        if is_digit prev then drop_underscores c s' else None
      else if (prev =? 95)%N && negb (is_digit c) then None
      else match drop_underscores c s' with
           | Some t => Some (c :: t)
           | None => None
           end
  end.

(** The leading digits of a string, as digit values, and the rest. *)
Fixpoint span_digits (s : str) : list N * str :=
  match s with
  | c :: s' =>
      if is_digit c then
        let '(ds, rest) := span_digits s' in ((c - 48)%N :: ds, rest)
      else ([], s)
  | [] => ([], [])
  end.

Definition read_sign (s : str) : bool * str :=
  match s with
  | 45%N :: s' => (true, s')
  | 43%N :: s' => (false, s')
  | _ => (false, s)
  end.

(** The exponent part, [e] or [E] with an optional sign and at least one
    digit; it must end the string. *)
Definition read_exponent (s : str) : option Z :=
  match s with
  | [] => Some 0%Z
  | c :: s' =>
      if (c =? 101)%N || (c =? 69)%N then
        let '(neg, s1) := read_sign s' in
        match span_digits s1 with
        | (d :: ds, []) =>
            let v := digits_value (d :: ds) 0 in
            Some (if neg then (- v)%Z else v)
        | _ => None
        end
      else None
  end.

Definition ascii_lower (s : str) : str :=
  map (fun c => if ((65 <=? c) && (c <=? 90))%N then (c + 32)%N else c) s.

(** The unsigned part of a float literal. *)
Definition read_magnitude (s : str) : option float :=
  let l := ascii_lower s in
  if eqb l (u"inf") || eqb l (u"infinity") then Some PrimFloat.infinity
  else if eqb l (u"nan") then Some PrimFloat.nan
  else
    let '(ip, s1) := span_digits s in
    let '(fp, s2) :=
      match s1 with
      | 46%N :: s1' => span_digits s1'
      | _ => ([], s1)
      end in
    match ip ++ fp with
    | [] => None
    | ds =>
        match read_exponent s2 with
        | None => None
        | Some e =>
            let m := digits_value ds 0 in
            let e10 := (e - Z.of_nat (List.length fp))%Z in
            Some (if (0 <=? e10)%Z then of_ratio (m * 10 ^ e10) 1
                  else of_ratio m (10 ^ (- e10)))
        end
    end.

(** [float(s)]; [None] stands for [ValueError]. *)
Definition of_str (s : str) : option float :=
  match to_ascii s with
  | None => None
  | Some a =>
      match drop_underscores 0%N (c_strip a) with
      | None => None
      | Some t =>
          let '(neg, body) := read_sign t in
          match read_magnitude body with
          | Some x => Some (if neg then PrimFloat.opp x else x)
          | None => None
          end
      end
  end.

End PyFloat.

Abbreviation float := PyFloat.float.
Bind Scope float_scope with PyFloat.float.

(* ================================================================== *)
(** ** Exceptions

    A computation either returns or raises. The parser catches the
    [ValueError] of [float] itself (in [extract_number]); what could
    escape it is an error from [re] on a pattern, or the use of a group
    that is [None]. *)

Inductive exn :=
| ReError          (* re.error: the pattern does not compile *)
| AttributeError.  (* a str method called on None *)

Inductive res (A : Type) :=
| Ok (a : A)
| Raise (e : exn).

Arguments Ok {A} a.
Arguments Raise {A} e.

Definition bind {A B : Type} (c : res A) (k : A -> res B) : res B :=
  match c with
  | Ok a => k a
  | Raise e => Raise e
  end.

Declare Scope res_scope.
Delimit Scope res_scope with res.
Notation "x <- c ;; k" := (bind c (fun x => k))
  (at level 61, c at next level, right associativity) : res_scope.
Open Scope res_scope.

(** [re.finditer(pattern, text, flags)] and [re.search(pattern, text)] *)
Definition re_finditer (pattern text : str) (ignorecase : bool)
  : res (list Re.Match) :=
  match Re.compile pattern ignorecase with
  | Some p => Ok (Re.finditer p text)
  | None => Raise ReError
  end.

Definition re_search (pattern text : str) : res (option Re.Match) :=
  match Re.compile pattern false with
  | Some p => Ok (Re.search p text)
  | None => Raise ReError
  end.

(** A group of a match, where the code goes on to use it as a [str]. *)
Definition group_str (text : str) (m : Re.Match) (g : nat) : res str :=
  match Re.group text m g with
  | Some s => Ok s
  | None => Raise AttributeError
  end.

(* ================================================================== *)
(** ** The data model *)

Inductive FieldCategory :=
| PREMIUM | COVERAGE | DEDUCTIBLE | CLAIM | TAX | FEE | BENEFIT | LIMIT.

(** The enum's values. *)
Definition category_value (c : FieldCategory) : str :=
  match c with
  | PREMIUM => u"premium"
  | COVERAGE => u"coverage"
  | DEDUCTIBLE => u"deductible"
  | CLAIM => u"claim"
  | TAX => u"tax"
  | FEE => u"fee"
  | BENEFIT => u"benefit"
  | LIMIT => u"limit"
  end.

Definition category_eqb (a b : FieldCategory) : bool :=
  match a, b with
  | PREMIUM, PREMIUM | COVERAGE, COVERAGE | DEDUCTIBLE, DEDUCTIBLE
  | CLAIM, CLAIM | TAX, TAX | FEE, FEE | BENEFIT, BENEFIT | LIMIT, LIMIT => true
  | _, _ => false
  end.

Record FinancialField := {
  field_name : str;
  value : float;
  currency : str;
  category : FieldCategory;
  context : str;
  confidence : float;
  line_number : option nat;
  extraction_method : option str
}.

(** [to_dict]: the field as a dictionary, the category by its value. *)
Record FieldDict := {
  d_field_name : str;
  d_value : float;
  d_currency : str;
  d_category : str;
  d_context : str;
  d_confidence : float;
  d_line_number : option nat;
  d_extraction_method : option str
}.

Definition to_dict (f : FinancialField) : FieldDict :=
  {| d_field_name := field_name f;
     d_value := value f;
     d_currency := currency f;
     d_category := category_value (category f);
     d_context := context f;
     d_confidence := confidence f;
     d_line_number := line_number f;
     d_extraction_method := extraction_method f |}.

(** A dictionary with string keys, in insertion order. *)
Definition dict (V : Type) := list (str * V).

Fixpoint dict_get {V : Type} (d : dict V) (k : str) (default : V) : V :=
  match d with
  | [] => default
  | (k', v) :: d' => if PyStr.eqb k k' then v else dict_get d' k default
  end.

Fixpoint dict_set {V : Type} (d : dict V) (k : str) (v : V) : dict V :=
  match d with
  | [] => [(k, v)]
  | (k', v') :: d' =>
      if PyStr.eqb k k' then (k', v) :: d' else (k', v') :: dict_set d' k v
  end.

(* ================================================================== *)
(** ** class InsuranceParser *)

Definition CURRENCY_SYMBOLS : dict str :=
  [ (u"₹", u"INR");
    (u"Rs.", u"INR");
    (u"Rs", u"INR");
    (u"INR", u"INR");
    (u"$", u"USD");
    (u"USD", u"USD");
    (u"€", u"EUR");
    (u"EUR", u"EUR");
    (u"£", u"GBP");
    (u"GBP", u"GBP") ].

Definition FIELD_PATTERNS : dict (list str) :=
  [ (u"annual_premium",
      [ u"Annual\s+Premium(?:\s+Amount)?[:\s]+(?:₹|Rs\.?|INR)?\s*([\d,]+\.?\d*)";
        u"Total\s+Annual\s+Premium[:\s]+(?:₹|Rs\.?|INR)?\s*([\d,]+\.?\d*)";
        u"Yearly\s+Premium[:\s]+(?:₹|Rs\.?|INR)?\s*([\d,]+\.?\d*)" ]);
    (u"monthly_premium",
      [ u"Monthly\s+Premium(?:\s+Amount)?[:\s]+(?:₹|Rs\.?|INR)?\s*([\d,]+\.?\d*)";
        u"Per\s+Month\s+Premium[:\s]+(?:₹|Rs\.?|INR)?\s*([\d,]+\.?\d*)" ]);
    (u"quarterly_premium",
      [ u"Quarterly\s+Premium(?:\s+Amount)?[:\s]+(?:₹|Rs\.?|INR)?\s*([\d,]+\.?\d*)" ]);
    (u"sum_insured",
      [ u"Sum\s+Insured[:\s]+(?:₹|Rs\.?|INR)?\s*([\d,]+\.?\d*)";
        u"Coverage\s+(?:Amount|Limit)[:\s]+(?:₹|Rs\.?|INR)?\s*([\d,]+\.?\d*)";
        u"Annual\s+Coverage\s+Limit[:\s]+(?:₹|Rs\.?|INR)?\s*([\d,]+\.?\d*)" ]);
    (u"maximum_coverage",
      [ u"Maximum\s+Coverage[:\s]+(?:₹|Rs\.?|INR)?\s*([\d,]+\.?\d*)";
        u"Max(?:imum)?\s+Limit[:\s]+(?:₹|Rs\.?|INR)?\s*([\d,]+\.?\d*)" ]);
    (u"deductible",
      [ u"(?:Annual\s+)?Deductible(?:\s+Amount)?[:\s]+(?:₹|Rs\.?|INR)?\s*([\d,]+\.?\d*)";
        u"Out[-\s]of[-\s]Pocket\s+(?:Maximum|Limit)[:\s]+(?:₹|Rs\.?|INR)?\s*([\d,]+\.?\d*)" ]);
    (u"copayment_percentage",
      [ u"Co[-\s]?payment(?:\s+Percentage)?[:\s]+([\d.]+)%";
        u"Co[-\s]?pay[:\s]+([\d.]+)%" ]);
    (u"copayment_maximum",
      [ u"Co[-\s]?payment\s+Maximum[:\s]+(?:₹|Rs\.?|INR)?\s*([\d,]+\.?\d*)" ]);
    (u"gst",
      [ u"(?:GST|Goods\s+and\s+Services\s+Tax)[^:]*@?\s*[\d.]+%[:\s]+(?:₹|Rs\.?|INR)?\s*([\d,]+\.?\d*)";
        u"Tax\s+Amount[:\s]+(?:₹|Rs\.?|INR)?\s*([\d,]+\.?\d*)" ]);
    (u"admin_fee",
      [ u"(?:Policy\s+)?Administration\s+Fee[:\s]+(?:₹|Rs\.?|INR)?\s*([\d,]+\.?\d*)";
        u"Admin\s+Charges?[:\s]+(?:₹|Rs\.?|INR)?\s*([\d,]+\.?\d*)" ]);
    (u"service_charge",
      [ u"Service\s+Charges?[:\s]+(?:₹|Rs\.?|INR)?\s*([\d,]+\.?\d*)" ]);
    (u"total_amount_paid",
      [ u"TOTAL\s+AMOUNT\s+PAID[:\s]+(?:₹|Rs\.?|INR)?\s*([\d,]+\.?\d*)";
        u"Total\s+Premium\s+Paid[:\s]+(?:₹|Rs\.?|INR)?\s*([\d,]+\.?\d*)" ]);
    (u"claim_amount_submitted",
      [ u"Claim\s+Amount\s+Submitted[:\s]+(?:₹|Rs\.?|INR)?\s*([\d,]+\.?\d*)" ]);
    (u"claim_amount_approved",
      [ u"Claim\s+Amount\s+Approved[:\s]+(?:₹|Rs\.?|INR)?\s*([\d,]+\.?\d*)" ]);
    (u"total_claims_paid",
      [ u"Total\s+Claim\s+Payouts?[:\s]+(?:₹|Rs\.?|INR)?\s*([\d,]+\.?\d*)" ]);
    (u"maternity_coverage",
      [ u"Maternity\s+Coverage(?:\s+Limit)?[:\s]+(?:₹|Rs\.?|INR)?\s*([\d,]+\.?\d*)" ]);
    (u"critical_illness_coverage",
      [ u"Critical\s+Illness\s+(?:Sum\s+Assured|Coverage)[:\s]+(?:₹|Rs\.?|INR)?\s*([\d,]+\.?\d*)" ]);
    (u"ambulance_charges",
      [ u"Ambulance\s+Charges?[:\s]+(?:₹|Rs\.?|INR)?\s*([\d,]+\.?\d*)" ]);
    (u"room_limit_per_day",
      [ u"Room\s+Limit[:\s]+(?:₹|Rs\.?|INR)?\s*([\d,]+\.?\d*)\s*per\s+day";
        u"Per\s+(?:Hospitalization\s+)?Room\s+Limit[:\s]+(?:₹|Rs\.?|INR)?\s*([\d,]+\.?\d*)" ]);
    (u"icu_limit_per_day",
      [ u"ICU\s+Room\s+Limit[:\s]+(?:₹|Rs\.?|INR)?\s*([\d,]+\.?\d*)" ]);
    (u"renewal_premium",
      [ u"(?:Estimated\s+)?Renewal\s+Premium[:\s]+(?:₹|Rs\.?|INR)?\s*([\d,]+\.?\d*)" ]);
    (u"no_claim_bonus",
      [ u"No\s+Claim\s+Bonus\s+Discount(?:\s+Amount)?[:\s]+(?:₹|Rs\.?|INR)?\s*([\d,]+\.?\d*)" ]) ].

(** The parser's state: the document, its lines, and the fields
    accumulated so far. *)
Record InsuranceParser := {
  document_text : str;
  lines : list str;
  parsed_fields : list FinancialField
}.

Definition newline : char := 10%N.

Definition __init__ (document_text : str) : InsuranceParser :=
  {| document_text := document_text;
     lines := PyStr.split newline document_text;
     parsed_fields := [] |}.

Definition extract_number (text : str) : option float :=
  let cleaned := PyStr.strip (PyStr.remove 44%N text) in
  match PyFloat.of_str cleaned with
  | Some x => Some x
  | None => None          (* except ValueError *)
  end.

Fixpoint first_symbol (items : dict str) (text : str) : str :=
  match items with
  | [] => u"INR"
  | (symbol, code) :: rest =>
      if PyStr.contains symbol text then code else first_symbol rest text
  end.

Definition detect_currency (text : str) : str :=
  first_symbol CURRENCY_SYMBOLS text.

Definition is_some {A : Type} (o : option A) : bool :=
  match o with Some _ => true | None => false end.

(** The pattern of the fourth indicator of [calculate_confidence]. *)
Definition grouped_number_pattern : str := u"\d{1,3}(,\d{3})*(\.\d{2})?".

Definition calculate_confidence (field_name : str) (value : float)
  (context : str) : res float :=
  found <- re_search grouped_number_pattern context ;;
  let indicators :=
    [ (PyStr.contains (u"₹") context || PyStr.contains (u"Rs") context,
       0.1%float);
      (PyStr.contains (PyStr.replace 95%N 32%N (PyStr.lower field_name))
         (PyStr.lower context), 0.2%float);
      (PyFloat.gt value 0%float, 0.1%float);
      (is_some found, 0.1%float) ] in
  let confidence :=
    fold_left
      (fun confidence '(condition, boost) =>
         if condition : bool then (confidence + boost)%float else confidence)
      indicators 0.5%float in
  Ok (PyFloat.min confidence 1.0%float).

Definition categorize_field (field_name : str) : FieldCategory :=
  let name_lower := PyStr.lower field_name in
  if PyStr.contains (u"premium") name_lower then PREMIUM
  else if PyStr.contains (u"claim") name_lower then CLAIM
  else if PyStr.contains (u"deductible") name_lower
          || PyStr.contains (u"copay") name_lower then DEDUCTIBLE
  else if PyStr.contains (u"tax") name_lower
          || PyStr.contains (u"gst") name_lower then TAX
  else if PyStr.contains (u"fee") name_lower
          || PyStr.contains (u"charge") name_lower then FEE
  else if PyStr.contains (u"coverage") name_lower
          || PyStr.contains (u"insured") name_lower
          || PyStr.contains (u"benefit") name_lower then COVERAGE
  else if PyStr.contains (u"limit") name_lower
          || PyStr.contains (u"maximum") name_lower then LIMIT
  else BENEFIT.

(** *** Strategy 1: the pattern table *)

(** [for match in matches]: the first match with a number that parses is
    appended, and the loop left. *)
Fixpoint pattern_match_loop (self : InsuranceParser) (name : str)
  (matches : list Re.Match) (results : list FinancialField)
  : res (list FinancialField) :=
  match matches with
  | [] => Ok results
  | m :: rest =>
      value_str <- group_str (document_text self) m 1 ;;
      match extract_number value_str with
      | None => pattern_match_loop self name rest results      (* continue *)
      | Some value =>
          let start := Nat.max 0 (Re.m_start m - 50) in
          let end_ :=
            Nat.min (List.length (document_text self)) (Re.m_end m + 50) in
          let context :=
            PyStr.replace newline 32%N
              (PyStr.slice (document_text self) start end_) in
          let currency := detect_currency context in
          confidence <- calculate_confidence name value context ;;
          let line_num :=
            PyStr.count newline
              (PyStr.slice (document_text self) 0 (Re.m_start m)) + 1 in
          let field :=
            {| field_name := name;
               value := value;
               currency := currency;
               category := categorize_field name;
               context := PyStr.strip context;
               confidence := confidence;
               line_number := Some line_num;
               extraction_method := Some (u"pattern_matching") |} in
          Ok (results ++ [field])                               (* break *)
      end
  end.

(** [results and results[-1].field_name == field_name] *)
Definition last_named (results : list FinancialField) (name : str) : bool :=
  match rev results with
  | [] => false
  | f :: _ => PyStr.eqb (field_name f) name
  end.

(** [for pattern in patterns] *)
Fixpoint pattern_loop (self : InsuranceParser) (name : str)
  (patterns : list str) (results : list FinancialField)
  : res (list FinancialField) :=
  match patterns with
  | [] => Ok results
  | pattern :: rest =>
      matches <- re_finditer pattern (document_text self) true ;;
      results' <- pattern_match_loop self name matches results ;;
      if last_named results' name then Ok results'              (* break *)
      else pattern_loop self name rest results'
  end.

(** [for field_name, patterns in self.FIELD_PATTERNS.items()] *)
Fixpoint field_loop (self : InsuranceParser) (items : dict (list str))
  (results : list FinancialField) : res (list FinancialField) :=
  match items with
  | [] => Ok results
  | (name, patterns) :: rest =>
      results' <- pattern_loop self name patterns results ;;
      field_loop self rest results'
  end.

Definition parse_with_patterns (self : InsuranceParser)
  : res (list FinancialField) :=
  field_loop self FIELD_PATTERNS [].

(** *** Strategy 2: amounts on lines with a financial keyword *)

(** [amount_pattern] of [parse_context_aware] *)
Definition context_amount_pattern : str :=
  u"(?:₹|Rs\.?|INR)?\s*([\d,]+\.?\d*)".

Definition keywords : list str :=
  [ u"premium"; u"deductible"; u"coverage"; u"claim"; u"fee"; u"charge";
    u"limit"; u"benefit"; u"tax"; u"payment"; u"amount"; u"total" ].

(** [any(f.line_number == i and abs(f.value - value) < 0.01
         for f in self.parsed_fields)] *)
Definition already_extracted (self : InsuranceParser) (i : nat) (v : float)
  : bool :=
  existsb
    (fun f =>
       match line_number f with
       | Some n => Nat.eqb n i
       | None => false
       end
       && PyFloat.lt (PrimFloat.abs (value f - v)) 0.01)
    (parsed_fields self).

(** [value and value > 0] for an optional float *)
Definition is_positive (v : option float) : bool :=
  match v with
  | Some x => PyFloat.truthy x && PyFloat.gt x 0
  | None => false
  end.

(** The value of an optional float that passed [is_positive]. *)
Definition the (v : option float) : float :=
  match v with
  | Some x => x
  | None => 0%float
  end.

(** [for match in matches], for one keyword of one line *)
Fixpoint context_match_loop (self : InsuranceParser) (i : nat) (line : str)
  (keyword : str) (matches : list Re.Match) (results : list FinancialField)
  : res (list FinancialField) :=
  match matches with
  | [] => Ok results
  | m :: rest =>
      value_str <- group_str line m 1 ;;
      let value := extract_number value_str in
      results' <-
        (if is_positive value then
           if negb (already_extracted self i (the value)) then
             let name := keyword ++ u"_line_" ++ PyStr.of_nat i in
             let currency := detect_currency line in
             confidence <- calculate_confidence name (the value) line ;;
             let field :=
               {| field_name := name;
                  value := the value;
                  currency := currency;
                  category := categorize_field keyword;
                  context := PyStr.strip line;
                  confidence := (confidence * 0.8)%float;
                  line_number := Some i;
                  extraction_method := Some (u"context_aware") |} in
             Ok (results ++ [field])
           else Ok results
         else Ok results) ;;
      context_match_loop self i line keyword rest results'
  end.

(** [for keyword in keywords] *)
Fixpoint keyword_loop (self : InsuranceParser) (i : nat) (line : str)
  (line_lower : str) (kws : list str) (results : list FinancialField)
  : res (list FinancialField) :=
  match kws with
  | [] => Ok results
  | keyword :: rest =>
      results' <-
        (if PyStr.contains keyword line_lower then
           matches <- re_finditer context_amount_pattern line false ;;
           context_match_loop self i line keyword matches results
         else Ok results) ;;
      keyword_loop self i line line_lower rest results'
  end.

(** [for i, line in enumerate(self.lines, 1)] *)
Fixpoint context_line_loop (self : InsuranceParser) (i : nat)
  (ls : list str) (results : list FinancialField)
  : res (list FinancialField) :=
  match ls with
  | [] => Ok results
  | line :: rest =>
      results' <-
        keyword_loop self i line (PyStr.lower line) keywords results ;;
      context_line_loop self (S i) rest results'
  end.

Definition parse_context_aware (self : InsuranceParser)
  : res (list FinancialField) :=
  context_line_loop self 1 (lines self) [].

(** *** Strategy 3: every amount with a currency marker *)

(** [amount_pattern] of [parse_all_amounts] *)
Definition all_amount_pattern : str :=
  u"(?:₹|Rs\.?|INR|USD|\$|EUR|€)\s*([\d,]+\.?\d*)".

(** [for match in matches], for one line *)
Fixpoint amount_match_loop (self : InsuranceParser) (i : nat) (line : str)
  (matches : list Re.Match) (results : list FinancialField)
  : res (list FinancialField) :=
  match matches with
  | [] => Ok results
  | m :: rest =>
      value_str <- group_str line m 1 ;;
      let value := extract_number value_str in
      results' <-
        (if is_positive value then
           if negb (already_extracted self i (the value)) then
             whole <- group_str line m 0 ;;
             let currency := detect_currency whole in
             let field :=
               {| field_name := u"amount_line_" ++ PyStr.of_nat i;
                  value := the value;
                  currency := currency;
                  category := BENEFIT;
                  context := PyStr.strip line;
                  confidence := 0.5%float;
                  line_number := Some i;
                  extraction_method := Some (u"all_amounts") |} in
             Ok (results ++ [field])
           else Ok results
         else Ok results) ;;
      amount_match_loop self i line rest results'
  end.

(** [for i, line in enumerate(self.lines, 1)] *)
Fixpoint amount_line_loop (self : InsuranceParser) (i : nat)
  (ls : list str) (results : list FinancialField)
  : res (list FinancialField) :=
  match ls with
  | [] => Ok results
  | line :: rest =>
      matches <- re_finditer all_amount_pattern line true ;;
      results' <- amount_match_loop self i line matches results ;;
      amount_line_loop self (S i) rest results'
  end.

Definition parse_all_amounts (self : InsuranceParser)
  : res (list FinancialField) :=
  amount_line_loop self 1 (lines self) [].

(** *** The summary and the orchestration *)

Record Summary := {
  by_category : dict nat;
  by_currency : dict nat;
  high_confidence_fields : nat;
  total_premium_amount : float;
  total_coverage_amount : float;
  total_claims_amount : float
}.

(** The body of [for field in self.parsed_fields]. The totals start as
    the integer 0, which the first addition turns into a float. *)
Definition summary_step (summary : Summary) (field : FinancialField)
  : Summary :=
  let cat := category_value (category field) in
  let by_category' :=
    dict_set (by_category summary) cat
      (dict_get (by_category summary) cat 0 + 1) in
  let by_currency' :=
    dict_set (by_currency summary) (currency field)
      (dict_get (by_currency summary) (currency field) 0 + 1) in
  let high :=
    if PyFloat.ge (confidence field) 0.8
    then high_confidence_fields summary + 1
    else high_confidence_fields summary in
  let s :=
    {| by_category := by_category';
       by_currency := by_currency';
       high_confidence_fields := high;
       total_premium_amount := total_premium_amount summary;
       total_coverage_amount := total_coverage_amount summary;
       total_claims_amount := total_claims_amount summary |} in
  if category_eqb (category field) PREMIUM
     && PyFloat.ge (confidence field) 0.7 then
    {| by_category := by_category s;
       by_currency := by_currency s;
       high_confidence_fields := high_confidence_fields s;
       total_premium_amount := (total_premium_amount s + value field)%float;
       total_coverage_amount := total_coverage_amount s;
       total_claims_amount := total_claims_amount s |}
  else if category_eqb (category field) COVERAGE
          && PyFloat.ge (confidence field) 0.7 then
    {| by_category := by_category s;
       by_currency := by_currency s;
       high_confidence_fields := high_confidence_fields s;
       total_premium_amount := total_premium_amount s;
       total_coverage_amount := (total_coverage_amount s + value field)%float;
       total_claims_amount := total_claims_amount s |}
  else if category_eqb (category field) CLAIM
          && PyFloat.ge (confidence field) 0.7 then
    {| by_category := by_category s;
       by_currency := by_currency s;
       high_confidence_fields := high_confidence_fields s;
       total_premium_amount := total_premium_amount s;
       total_coverage_amount := total_coverage_amount s;
       total_claims_amount := (total_claims_amount s + value field)%float |}
  else s.

Definition _generate_summary (self : InsuranceParser) : Summary :=
  fold_left summary_step (parsed_fields self)
    {| by_category := [];
       by_currency := [];
       high_confidence_fields := 0;
       total_premium_amount := 0%float;
       total_coverage_amount := 0%float;
       total_claims_amount := 0%float |}.

Record Metadata := {
  total_fields_extracted : nat;
  pattern_matches : nat;
  context_matches : nat;
  extraction_date : str;
  parser_version : str
}.

Record Results := {
  metadata : Metadata;
  fields : list FieldDict;
  summary : Summary
}.

(** [self.parsed_fields.extend(new)] *)
Definition extend (self : InsuranceParser) (new : list FinancialField)
  : InsuranceParser :=
  {| document_text := document_text self;
     lines := lines self;
     parsed_fields := parsed_fields self ++ new |}.

(** [sort(key=lambda x: x.confidence, reverse=True)]: a stable sort, the
    larger confidence first; fields of equal confidence keep their order. *)
Fixpoint insert_by_confidence (x : FinancialField) (l : list FinancialField)
  : list FinancialField :=
  match l with
  | [] => [x]
  | y :: l' =>
      if PyFloat.lt (confidence x) (confidence y)
      then y :: insert_by_confidence x l'
      else x :: l
  end.

Definition sort_by_confidence (l : list FinancialField)
  : list FinancialField :=
  fold_right insert_by_confidence [] l.

Definition sort_parsed_fields (self : InsuranceParser) : InsuranceParser :=
  {| document_text := document_text self;
     lines := lines self;
     parsed_fields := sort_by_confidence (parsed_fields self) |}.

(** [parse]. The state after the call is returned with the result; [now]
    is the text of [datetime.now().isoformat()]. *)
Definition parse (self : InsuranceParser) (include_all_amounts : bool)
  (now : str) : res (Results * InsuranceParser) :=
  pattern_results <- parse_with_patterns self ;;
  let self1 := extend self pattern_results in
  context_results <- parse_context_aware self1 ;;
  let self2 := extend self1 context_results in
  self3 <-
    (if include_all_amounts then
       all_amounts <- parse_all_amounts self2 ;;
       Ok (extend self2 all_amounts)
     else Ok self2) ;;
  let self4 := sort_parsed_fields self3 in
  let results :=
    {| metadata :=
         {| total_fields_extracted := List.length (parsed_fields self4);
            pattern_matches := List.length pattern_results;
            context_matches := List.length context_results;
            extraction_date := now;
            parser_version := u"1.0.0" |};
       fields := map to_dict (parsed_fields self4);
       summary := _generate_summary self4 |} in
  Ok (results, self4).

(** *** Looking fields up *)



(** [get_fields_by_category] *)
Definition get_fields_by_category (self : InsuranceParser)
  (category0 : FieldCategory) : list FinancialField :=
  filter (fun field => category_eqb (category field) category0)
    (parsed_fields self).

(** *** [main]: its arguments *)

(** [s.rsplit(sep, 1)] for a one-character separator: the text before and
    the text after the last separator, or the text itself when it has
    none. *)
Fixpoint rsplit_last (sep : char) (s : str) : option (str * str) :=
  match s with
  | [] => None
  | c :: s' =>
      match rsplit_last sep s' with
      | Some (before, after) => Some (c :: before, after)
      | None => if PyStr.char_eqb c sep then Some ([], s') else None
      end
  end.

Definition rsplit_once (sep : char) (s : str) : list str :=
  match rsplit_last sep s with
  | Some (before, after) => [before; after]
  | None => [s]
  end.

Inductive ExportFormat := to_csv | to_json.

(** What [main] is to do: read [input_file], and export what it parsed
    to [output_file]. *)
Record Job := {
  input_file : str;
  output_file : str;
  export_format : ExportFormat
}.

(** [main], as far as [sys.argv] decides. [None]: fewer than two
    arguments, the usage is printed and the exit status is 1. Otherwise
    the file to read and, for when it can be read, the export: CSV when
    the format argument is "csv" in any case, JSON for any other or none,
    to the input path cut at its last dot with "_parsed" and the
    extension added. *)
Definition main_job (argv : list str) : option Job :=
  if Nat.ltb (List.length argv) 2 then None
  else
    let input_file := nth 1 argv [] in
    let output_format :=
      if Nat.ltb 2 (List.length argv) then nth 2 argv [] else u"json" in
    let base_name := nth 0 (rsplit_once 46%N input_file) [] in
    if PyStr.eqb (PyStr.lower output_format) (u"csv") then
      Some {| input_file := input_file;
              output_file := base_name ++ u"_parsed.csv";
              export_format := to_csv |}
    else
      Some {| input_file := input_file;
              output_file := base_name ++ u"_parsed.json";
              export_format := to_json |}.

(* ================================================================== *)
(** ** A functional reading of the three strategies

    The loops above thread [results] and may raise. The definitions below
    say what each strategy computes as a plain list; the lemmas that follow
    prove that the loops return exactly these lists, and never raise. *)

Definition has_group (g : nat) (caps : Re.captures) : Prop :=
  Re.lookup g caps <> None.

(** A pattern that compiles and whose every match sets group 1. *)
Definition good_pattern (ignorecase : bool) (pattern : str) : bool :=
  match Re.compile pattern ignorecase with
  | Some p => Re.always_sets 1 (Re.p_regex p)
  | None => false
  end.

(** The matches of a pattern in a text, and the text of group 1. *)
Definition matches (pattern text : str) (ignorecase : bool)
  : list Re.Match :=
  match Re.compile pattern ignorecase with
  | Some p => Re.finditer p text
  | None => []
  end.

Definition capture (text : str) (m : Re.Match) : str :=
  match Re.group text m 1 with
  | Some s => s
  | None => []
  end.

Definition whole_match (text : str) (m : Re.Match) : str :=
  PyStr.slice text (Re.m_start m) (Re.m_end m).

(** The value [calculate_confidence] returns. *)
Definition score (name : str) (v : float) (ctx : str) : float :=
  match calculate_confidence name v ctx with
  | Ok c => c
  | Raise _ => 0%float
  end.

(** *** Strategy 1 *)

(** The first match whose captured number parses, with the number. *)
Fixpoint first_parseable (text : str) (ms : list Re.Match)
  : option (Re.Match * float) :=
  match ms with
  | [] => None
  | m :: rest =>
      match extract_number (capture text m) with
      | Some v => Some (m, v)
      | None => first_parseable text rest
      end
  end.

(** The first pattern, in listed order, with a parseable match: its first
    such match. *)
Fixpoint first_pattern_hit (doc : str) (patterns : list str)
  : option (Re.Match * float) :=
  match patterns with
  | [] => None
  | pattern :: rest =>
      match first_parseable doc (matches pattern doc true) with
      | Some h => Some h
      | None => first_pattern_hit doc rest
      end
  end.

(** The field made from an accepted match. *)
Definition pattern_field (doc name : str) (h : Re.Match * float)
  : FinancialField :=
  let '(m, v) := h in
  let ctx :=
    PyStr.replace newline 32%N
      (PyStr.slice doc (Nat.max 0 (Re.m_start m - 50))
         (Nat.min (List.length doc) (Re.m_end m + 50))) in
  {| field_name := name;
     value := v;
     currency := detect_currency ctx;
     category := categorize_field name;
     context := PyStr.strip ctx;
     confidence := score name v ctx;
     line_number :=
       Some (PyStr.count newline (PyStr.slice doc 0 (Re.m_start m)) + 1);
     extraction_method := Some (u"pattern_matching") |}.

Definition option_list {A : Type} (o : option A) : list A :=
  match o with
  | Some a => [a]
  | None => []
  end.

(** At most one field for each entry of the table. *)
Definition entry_fields (doc : str) (entry : str * list str)
  : list FinancialField :=
  option_list
    (option_map (pattern_field doc (fst entry))
       (first_pattern_hit doc (snd entry))).

Definition pattern_fields (doc : str) (table : dict (list str))
  : list FinancialField :=
  flat_map (entry_fields doc) table.

(** *** Strategies 2 and 3: the candidates, before deduplication *)

Definition context_field (i : nat) (line keyword : str) (v : float)
  : FinancialField :=
  let name := keyword ++ u"_line_" ++ PyStr.of_nat i in
  {| field_name := name;
     value := v;
     currency := detect_currency line;
     category := categorize_field keyword;
     context := PyStr.strip line;
     confidence := (score name v line * 0.8)%float;
     line_number := Some i;
     extraction_method := Some (u"context_aware") |}.

Definition context_candidates_for (i : nat) (line keyword : str)
  : list FinancialField :=
  flat_map
    (fun m =>
       let v := extract_number (capture line m) in
       if is_positive v then [context_field i line keyword (the v)] else [])
    (matches context_amount_pattern line false).

Definition context_candidates_on (i : nat) (line : str)
  : list FinancialField :=
  flat_map
    (fun keyword =>
       if PyStr.contains keyword (PyStr.lower line)
       then context_candidates_for i line keyword else [])
    keywords.

Fixpoint context_candidates (i : nat) (ls : list str)
  : list FinancialField :=
  match ls with
  | [] => []
  | line :: rest =>
      context_candidates_on i line ++ context_candidates (S i) rest
  end.

Definition amount_field (i : nat) (line : str) (m : Re.Match) (v : float)
  : FinancialField :=
  {| field_name := u"amount_line_" ++ PyStr.of_nat i;
     value := v;
     currency := detect_currency (whole_match line m);
     category := BENEFIT;
     context := PyStr.strip line;
     confidence := 0.5%float;
     line_number := Some i;
     extraction_method := Some (u"all_amounts") |}.

Definition amount_candidates_on (i : nat) (line : str)
  : list FinancialField :=
  flat_map
    (fun m =>
       let v := extract_number (capture line m) in
       if is_positive v then [amount_field i line m (the v)] else [])
    (matches all_amount_pattern line true).

Fixpoint amount_candidates (i : nat) (ls : list str)
  : list FinancialField :=
  match ls with
  | [] => []
  | line :: rest =>
      amount_candidates_on i line ++ amount_candidates (S i) rest
  end.

(** [existing] is within 0.01 of [v] on line [i]: one round of the
    [any(...)] of the two scanners. *)
Definition near (a b : float) : bool :=
  PyFloat.lt (PrimFloat.abs (a - b)) 0.01.

Definition same_line (f : FinancialField) (i : nat) : bool :=
  match line_number f with
  | Some n => Nat.eqb n i
  | None => false
  end.

Definition covered (existing : list FinancialField) (i : nat) (v : float)
  : bool :=
  existsb (fun f => same_line f i && near (value f) v) existing.

(** A candidate that the accumulated list does not cover yet. *)
Definition fresh (existing : list FinancialField) (f : FinancialField)
  : bool :=
  match line_number f with
  | Some i => negb (covered existing i (value f))
  | None => true
  end.

(** *** One call of [parse], strategy by strategy *)

Definition round_patterns (self : InsuranceParser) : list FinancialField :=
  pattern_fields (document_text self) FIELD_PATTERNS.

Definition round_context (self : InsuranceParser) : list FinancialField :=
  filter (fresh (parsed_fields self ++ round_patterns self))
    (context_candidates 1 (lines self)).

Definition round_amounts (self : InsuranceParser) (include_all_amounts : bool)
  : list FinancialField :=
  if include_all_amounts then
    filter
      (fresh ((parsed_fields self ++ round_patterns self)
              ++ round_context self))
      (amount_candidates 1 (lines self))
  else [].

(** The parser after the call: the new fields appended in the order of the
    strategies, and the whole list sorted. *)
Definition after_parse (self : InsuranceParser) (include_all_amounts : bool)
  : InsuranceParser :=
  {| document_text := document_text self;
     lines := lines self;
     parsed_fields :=
       sort_by_confidence
         (((parsed_fields self ++ round_patterns self)
           ++ round_context self)
          ++ round_amounts self include_all_amounts) |}.

(** The result of the call. *)
Definition parse_results (self : InsuranceParser) (include_all_amounts : bool)
  (now : str) : Results :=
  let self' := after_parse self include_all_amounts in
  {| metadata :=
       {| total_fields_extracted := List.length (parsed_fields self');
          pattern_matches := List.length (round_patterns self);
          context_matches := List.length (round_context self);
          extraction_date := now;
          parser_version := u"1.0.0" |};
     fields := map to_dict (parsed_fields self');
     summary := _generate_summary self' |}.

(** A table with distinct names and good patterns. *)
Definition good_table (table : dict (list str)) : bool :=
  forallb (fun e => forallb (good_pattern true) (snd e)) table.

Fixpoint nodupb (l : list str) : bool :=
  match l with
  | [] => true
  | x :: l' => negb (existsb (PyStr.eqb x) l') && nodupb l'
  end.

(* ================================================================== *)
(** ** Definitions used to state the properties *)

(** The fields of a list with a given name. *)
Definition named (name : str) (f : FinancialField) : bool :=
  PyStr.eqb (field_name f) name.

(** No match of the pattern in [doc] has a number that parses. *)
Definition no_parseable (doc pattern : str) : Prop :=
  forall m, In m (matches pattern doc true) ->
            extract_number (capture doc m) = None.

(** The confidence as the sum of its boosts. *)
Definition boost (condition : bool) (amount : float) : float :=
  if condition then amount else 0%float.

(** The context has a match of the grouped-number pattern. *)
Definition has_grouped_number (ctx : str) : bool :=
  match Re.compile grouped_number_pattern false with
  | Some p => is_some (Re.search p ctx)
  | None => false
  end.

Definition confidence_formula (name : str) (v : float) (ctx : str) : float :=
  PyFloat.min
    (0.5
     + boost (PyStr.contains (u"₹") ctx || PyStr.contains (u"Rs") ctx) 0.1
     + boost (PyStr.contains (PyStr.replace 95%N 32%N (PyStr.lower name))
                (PyStr.lower ctx)) 0.2
     + boost (PyFloat.gt v 0) 0.1
     + boost (has_grouped_number ctx) 0.1)%float
    1.0%float.

(** The running sum of the values of a list of fields, from 0. *)
Definition sum_values (fs : list FinancialField) : float :=
  fold_left (fun acc f => (acc + value f)%float) fs 0%float.

Definition counted_as (c : FieldCategory) (f : FinancialField) : bool :=
  category_eqb (category f) c && PyFloat.ge (confidence f) 0.7.

Definition high_confidence (f : FinancialField) : bool :=
  PyFloat.ge (confidence f) 0.8.

(** The place of a field's strategy in the order [parse] runs them. *)
Definition strategy_rank (f : FinancialField) : nat :=
  match extraction_method f with
  | Some m =>
      if PyStr.eqb m (u"pattern_matching") then 1
      else if PyStr.eqb m (u"context_aware") then 2
      else if PyStr.eqb m (u"all_amounts") then 3
      else 0
  | None => 0
  end.

(** The statement "no two fields of a list share a line number with values
    less than 0.01 apart". *)
Definition no_shared_line_value (fs : list FinancialField) : Prop :=
  forall i j f g,
    i <> j ->
    nth_error fs i = Some f ->
    nth_error fs j = Some g ->
    line_number f = line_number g ->
    near (value f) (value g) = false.

(** The document of one line "Annual Premium: " followed by 310 nines:
    the number is too large for a float and reads as infinity. *)
Definition overflowing_document : str :=
  u"Annual Premium: " ++ repeat 57%N 310.

(** The statement "a second call of [parse] doubles the field count". *)
Definition second_parse_doubles : Prop :=
  forall doc flag now1 now2 r1 s1 r2 s2,
    parse (__init__ doc) flag now1 = Ok (r1, s1) ->
    parse s1 flag now2 = Ok (r2, s2) ->
    total_fields_extracted (metadata r2)
    = 2 * total_fields_extracted (metadata r1).

(** The categorizer's rules as a table: the words of a rule and its
    category, in the order they are tried. *)
Definition category_rules : list (list str * FieldCategory) :=
  [ ([u"premium"], PREMIUM);
    ([u"claim"], CLAIM);
    ([u"deductible"; u"copay"], DEDUCTIBLE);
    ([u"tax"; u"gst"], TAX);
    ([u"fee"; u"charge"], FEE);
    ([u"coverage"; u"insured"; u"benefit"], COVERAGE);
    ([u"limit"; u"maximum"], LIMIT) ].

(** The category of the first rule with a word in the lower-cased name,
    and [BENEFIT] when there is none. *)
Definition categorize_by_rules (name : str) : FieldCategory :=
  match
    find (fun rule =>
            existsb (fun w => PyStr.contains w (PyStr.lower name)) (fst rule))
      category_rules
  with
  | Some rule => snd rule
  | None => BENEFIT
  end.

(** A word that can only occur in "<keyword>_line_<N>" inside the keyword:
    it has no underscore, does not start with a digit and is not in
    "line". *)
Definition plain_word (w : str) : bool :=
  negb (existsb (PyStr.char_eqb 95%N) w)
  && match w with
     | c :: _ => negb (PyFloat.is_digit c)
     | [] => false
     end
  && negb (PyStr.contains w (u"line")).

(** The order of two matches in the text. *)
Definition starts_before (a b : Re.Match) : Prop :=
  Re.m_start a <= Re.m_start b.

(** A successful match of [r] hands its continuation the groups that were
    set before, and group [g] when [r] always sets it. *)
Definition sets_on_success (R : Type) (ic : bool) (g : nat) (r : Re.regex)
  : Prop :=
  forall pos s caps (k : nat -> str -> Re.captures -> option R) x,
    Re.rmatch ic r pos s caps k = Some x ->
    exists p' s' c',
      k p' s' c' = Some x
      /\ (has_group g caps -> has_group g c')
      /\ (Re.always_sets g r = true -> has_group g c').

(** *** Definitions for the further properties *)

(** The place of a float in the order of the comparisons: none for a NaN. *)
Definition sf_key (f : spec_float) : option (Z * Z * Z) :=
  match f with
  | S754_nan => None
  | S754_infinity s => Some (if s then (-2)%Z else 2%Z, 0%Z, 0%Z)
  | S754_zero _ => Some (0%Z, 0%Z, 0%Z)
  | S754_finite s m e =>
      Some (if s then ((-1)%Z, (- e)%Z, Z.neg m) else (1%Z, e, Z.pos m))
  end.

Definition key_compare (a b : Z * Z * Z) : comparison :=
  let '(a1, a2, a3) := a in
  let '(b1, b2, b3) := b in
  match (a1 ?= b1)%Z with
  | Eq => match (a2 ?= b2)%Z with
          | Eq => (a3 ?= b3)%Z
          | c => c
          end
  | c => c
  end.

Definition key_le (a b : Z * Z * Z) : Prop :=
  let '(a1, a2, a3) := a in
  let '(b1, b2, b3) := b in
  (a1 < b1 \/ (a1 = b1 /\ (a2 < b2 \/ (a2 = b2 /\ a3 <= b3))))%Z.

Definition key_lt (a b : Z * Z * Z) : Prop :=
  let '(a1, a2, a3) := a in
  let '(b1, b2, b3) := b in
  (a1 < b1 \/ (a1 = b1 /\ (a2 < b2 \/ (a2 = b2 /\ a3 < b3))))%Z.

(** The rounds of a star, as the matcher runs them. *)

Definition star_rounds (R : Type) (ic : bool) (r : Re.regex)
  (k : nat -> str -> Re.captures -> option R)
  : nat -> nat -> str -> Re.captures -> option R :=
  fix rounds (n : nat) (pos : nat) (s : str) (caps : Re.captures)
    : option R :=
    match n with
    | O => k pos s caps
    | S n' =>
        match Re.rmatch ic r pos s caps
                (fun p' s' c' =>
                   if Nat.eqb p' pos then None else rounds n' p' s' c')
        with
        | Some x => Some x
        | None => k pos s caps
        end
    end.

(** The places a continuation can be called at: some way into the text. *)
Definition ahead (pos : nat) (s : str) (p' : nat) (s' : str) : Prop :=
  exists d, d <= List.length s /\ p' = pos + d /\ s' = skipn d s.

(** The states of a parser made for [doc]: the new parser, and the state
    any call of [parse] leaves. *)
Inductive reached (doc : str) : InsuranceParser -> Prop :=
| reached_init : reached doc (__init__ doc)
| reached_parse s flag now r s' :
    reached doc s -> parse s flag now = Ok (r, s') -> reached doc s'.

(** Where a field of a parser for [doc] comes from: one of the three
    strategies run on [doc]. *)
Definition origin (doc : str) (f : FinancialField) : Prop :=
  In f (pattern_fields doc FIELD_PATTERNS)
  \/ In f (context_candidates 1 (PyStr.split newline doc))
  \/ In f (amount_candidates 1 (PyStr.split newline doc)).

(** The larger confidence first. *)
Definition by_confidence (a b : FinancialField) : Prop :=
  PrimFloat.leb (confidence b) (confidence a) = true.

(** The fields of a list with a given confidence. *)
Definition with_confidence (c : float) (f : FinancialField) : bool :=
  PrimFloat.eqb (confidence f) c.

(** The score for given outcomes of the four indicators. *)
Definition score_of (marker phrase positive_value grouped : bool) : float :=
  PyFloat.min
    (0.5 + boost marker 0.1 + boost phrase 0.2 + boost positive_value 0.1
     + boost grouped 0.1)%float
    1.0%float.

Definition method_is (m : str) (f : FinancialField) : Prop :=
  extraction_method f = Some m.

(** A document with something for each strategy: a heading, a line of the
    pattern table, a line with two keywords and one amount, a line with a
    keyword and an amount in dollars, and a line with a currency marker
    and no keyword. *)
Definition sample_document : str :=
  u"Policy schedule" ++ newline :: u"Annual Premium: Rs. 500" ++ newline
  :: u"claim fee 20" ++ newline :: u"premium due $ 30" ++ newline
  :: u"refund USD 75".

(** Its parser after one call of [parse] with the three strategies. *)
Definition sample_parsed : InsuranceParser :=
  after_parse (__init__ sample_document) true.

(** One step of a count by key: [d[k] = d.get(k, 0) + 1]. *)
Definition tally (key : FinancialField -> str) (d : dict nat)
  (f : FinancialField) : dict nat :=
  dict_set d (key f) (dict_get d (key f) 0 + 1).

Definition category_key (f : FinancialField) : str :=
  category_value (category f).

Definition has_currency (code : str) (f : FinancialField) : bool :=
  PyStr.eqb code (currency f).

Definition all_categories : list FieldCategory :=
  [PREMIUM; COVERAGE; DEDUCTIBLE; CLAIM; TAX; FEE; BENEFIT; LIMIT].

Definition currency_codes : list str := [u"INR"; u"USD"; u"EUR"; u"GBP"].

(** A character of a written number: a decimal digit, a comma or a dot. *)
Definition numeric_char (c : char) : bool :=
  (PyStr.isdecimal c || (c =? 44) || (c =? 46))%N.

Definition numeric_item (i : Re.set_item) : bool :=
  match i with
  | Re.SDigit => true
  | Re.SChar c => ((c =? 44) || (c =? 46))%N
  | Re.SSpace => false
  end.

(** An expression that can only take numeric characters. *)
Fixpoint numeric_only (r : Re.regex) : bool :=
  match r with
  | Re.Empty => true
  | Re.Lit c => ((c =? 44) || (c =? 46))%N
  | Re.CharSet negated items => negb negated && forallb numeric_item items
  | Re.Seq r1 r2 | Re.Alt r1 r2 => numeric_only r1 && numeric_only r2
  | Re.Star r1 | Re.Group _ r1 => numeric_only r1
  end.

(** Every group [g] of the expression can only take numeric characters. *)
Fixpoint group_numeric (g : nat) (r : Re.regex) : bool :=
  match r with
  | Re.Empty | Re.Lit _ | Re.CharSet _ _ => true
  | Re.Seq r1 r2 | Re.Alt r1 r2 => group_numeric g r1 && group_numeric g r2
  | Re.Star r1 => group_numeric g r1
  | Re.Group g' r1 =>
      (if Nat.eqb g g' then numeric_only r1 else true) && group_numeric g r1
  end.

Definition numeric_capture (ignorecase : bool) (pattern : str) : bool :=
  match Re.compile pattern ignorecase with
  | Some p => group_numeric 1 (Re.p_regex p)
  | None => false
  end.

Definition numeric (s : str) : Prop :=
  Forall (fun c => numeric_char c = true) s.

(** The spans of group [g] lie between [lo] and [hi] and hold numeric
    characters. *)
Definition spans_numeric (doc : str) (g lo hi : nat) (caps : Re.captures)
  : Prop :=
  forall b e,
    Re.lookup g caps = Some (b, e) ->
    lo <= b /\ b <= e /\ e <= hi /\ numeric (PyStr.slice doc b e).

(** A match lies in the text, and its numeric groups in the match. *)
Definition match_in (doc : str) (g : nat) (m : Re.Match) : Prop :=
  Re.m_start m <= Re.m_end m <= List.length doc
  /\ spans_numeric doc g (Re.m_start m) (Re.m_end m) (Re.m_groups m).

(** A float whose sign bit is clear (or a zero, or a NaN). *)
Definition sf_not_negative (f : spec_float) : Prop :=
  match f with
  | S754_zero _ | S754_nan => True
  | S754_infinity s | S754_finite s _ _ => s = false
  end.

(** After the commas are removed and the digits made ASCII: digits and
    dots. *)
Definition plain_char (c : char) : bool := (PyFloat.is_digit c || (c =? 46))%N.

Definition has_decimal (s : str) : Prop :=
  exists c, In c s /\ PyStr.isdecimal c = true.

(** An expression that matches whenever the rest of the pattern does. *)
Fixpoint never_fails (r : Re.regex) : bool :=
  match r with
  | Re.Empty | Re.Star _ => true
  | Re.Lit _ | Re.CharSet _ _ => false
  | Re.Seq r1 r2 => never_fails r1 && never_fails r2
  | Re.Alt r1 r2 => never_fails r1 || never_fails r2
  | Re.Group _ r1 => never_fails r1
  end.

Definition is_digit_item (i : Re.set_item) : bool :=
  match i with Re.SDigit => true | _ => false end.

(** An expression that matches at every decimal digit. *)
Fixpoint takes_digit (r : Re.regex) : bool :=
  match r with
  | Re.CharSet false items => existsb is_digit_item items
  | Re.Seq r1 r2 => takes_digit r1 && never_fails r2
  | Re.Group _ r1 => takes_digit r1
  | _ => false
  end.

(** Where a field comes from, with the match it was read from. *)
Definition from_pattern (doc : str) (f : FinancialField) : Prop :=
  exists name patterns pattern m v,
    In (name, patterns) FIELD_PATTERNS
    /\ In pattern patterns
    /\ In m (matches pattern doc true)
    /\ extract_number (capture doc m) = Some v
    /\ f = pattern_field doc name (m, v).

Definition from_context (doc : str) (f : FinancialField) : Prop :=
  exists n line keyword m v,
    1 <= n
    /\ nth_error (PyStr.split newline doc) (n - 1) = Some line
    /\ In keyword keywords
    /\ PyStr.contains keyword (PyStr.lower line) = true
    /\ In m (matches context_amount_pattern line false)
    /\ extract_number (capture line m) = Some v
    /\ PyFloat.gt v 0 = true
    /\ f = context_field n line keyword v.

Definition from_amounts (doc : str) (f : FinancialField) : Prop :=
  exists n line m v,
    1 <= n
    /\ nth_error (PyStr.split newline doc) (n - 1) = Some line
    /\ In m (matches all_amount_pattern line true)
    /\ extract_number (capture line m) = Some v
    /\ PyFloat.gt v 0 = true
    /\ f = amount_field n line m v.

(** A caller that calls [parse] again and again on the same parser, once
    for each time stamp, and keeps the results. *)
Fixpoint parse_again (self : InsuranceParser) (include_all_amounts : bool)
  (nows : list str) : res (list Results * InsuranceParser) :=
  match nows with
  | [] => Ok ([], self)
  | now :: rest =>
      first <- parse self include_all_amounts now ;;
      others <- parse_again (snd first) include_all_amounts rest ;;
      Ok (fst first :: fst others, snd others)
  end.

(** Every candidate of the scanners that a call with this flag runs is
    covered by the accumulated fields. *)
Definition saturated (self : InsuranceParser) (include_all_amounts : bool)
  : Prop :=
  (forall g, In g (context_candidates 1 (lines self)) ->
             fresh (parsed_fields self) g = false)
  /\ (include_all_amounts = true ->
      forall g, In g (amount_candidates 1 (lines self)) ->
                fresh (parsed_fields self) g = false).



(** The keywords that occur in a line, and its positive amounts. *)
Definition keyword_hits (line : str) : list str :=
  filter (fun keyword => PyStr.contains keyword (PyStr.lower line)) keywords.

Definition positive_amounts (line : str) : list Re.Match :=
  filter (fun m => is_positive (extract_number (capture line m)))
    (matches context_amount_pattern line false).

(** A text that neither begins nor ends with a blank. *)
Definition no_blank_first (s : str) : Prop :=
  match s with
  | c :: _ => PyStr.isspace c = false
  | [] => True
  end.

Definition trimmed (s : str) : Prop :=
  no_blank_first s /\ no_blank_first (rev s).

(* ================================================================== *)
(** * Properties *)

(** The patterns are compiled by evaluation only ([vm_compute]); the
    proofs below never look inside a compiled pattern. *)
Opaque Re.compile.

(** ** The matcher: groups *)

Lemma has_group_cons g g' span caps :
  has_group g caps -> has_group g ((g', span) :: caps).
Proof.
  unfold has_group; simpl. destruct (Nat.eqb g g'); congruence.
Qed.

Lemma has_group_here g span caps : has_group g ((g, span) :: caps).
Proof.
  unfold has_group; simpl. rewrite Nat.eqb_refl. discriminate.
Qed.

Section RmatchGroups.
Variable R : Type.
Variable ic : bool.
Variable g : nat.

Lemma rmatch_groups : forall r, sets_on_success R ic g r.
Proof.
  induction r as [ | c | neg items | r1 IH1 r2 IH2 | r1 IH1 r2 IH2
                 | r1 IH1 | g' r1 IH1 ];
    intros pos s caps k x H; simpl in H.
  - exists pos, s, caps. simpl. intuition discriminate.
  - destruct s as [ | c0 s']; [discriminate | ].
    destruct (Re.lit_match ic c c0); [ | discriminate].
    exists (S pos), s', caps. simpl. intuition discriminate.
  - destruct s as [ | c0 s']; [discriminate | ].
    destruct (Re.set_match ic neg items c0); [ | discriminate].
    exists (S pos), s', caps. simpl. intuition discriminate.
  - apply IH1 in H. destruct H as (p1 & s1 & c1 & H & Hk1 & Hs1).
    apply IH2 in H. destruct H as (p2 & s2 & c2 & H & Hk2 & Hs2).
    exists p2, s2, c2. simpl. split; [exact H | ]. split.
    + auto.
    + intros E. apply orb_true_iff in E. destruct E; auto.
  - destruct (Re.rmatch ic r1 pos s caps k) eqn:E1.
    + inversion H; subst. apply IH1 in E1.
      destruct E1 as (p1 & s1 & c1 & E1 & Hk1 & Hs1).
      exists p1, s1, c1. simpl. split; [exact E1 | ]. split; [auto | ].
      intros E. apply andb_true_iff in E. destruct E; auto.
    + apply IH2 in H. destruct H as (p2 & s2 & c2 & H & Hk2 & Hs2).
      exists p2, s2, c2. simpl. split; [exact H | ]. split; [auto | ].
      intros E. apply andb_true_iff in E. destruct E; auto.
  - revert H. generalize (List.length s). intros n. revert pos s caps.
    induction n as [ | n IHn]; intros pos s caps H.
    + exists pos, s, caps. simpl. intuition discriminate.
    + match type of H with
      | match ?m with _ => _ end = _ => destruct m eqn:E1
      end.
      * inversion H; subst. apply IH1 in E1.
        destruct E1 as (p1 & s1 & c1 & E1 & Hk1 & _).
        destruct (Nat.eqb p1 pos); [discriminate | ].
        apply IHn in E1. destruct E1 as (p2 & s2 & c2 & E2 & Hk2 & _).
        exists p2, s2, c2. simpl. intuition discriminate.
      * exists pos, s, caps. simpl. intuition discriminate.
  - apply IH1 in H. destruct H as (p1 & s1 & c1 & H & Hk1 & Hs1).
    exists p1, s1, ((g', (pos, p1)) :: c1). simpl.
    split; [exact H | ]. split.
    + intros Hc. apply has_group_cons. auto.
    + intros E. apply orb_true_iff in E. destruct E as [E | E].
      * apply Nat.eqb_eq in E. subst. apply has_group_here.
      * apply has_group_cons. auto.
Qed.
End RmatchGroups.

Lemma match_at_groups p pos s adv g m :
  Re.match_at p pos s adv = Some m ->
  Re.always_sets g (Re.p_regex p) = true ->
  has_group g (Re.m_groups m).
Proof.
  unfold Re.match_at. intros H E.
  apply (@rmatch_groups _ (Re.p_ignorecase p) g) in H.
  destruct H as (p' & s' & c' & H & _ & Hs).
  destruct (adv && Nat.eqb p' pos); [discriminate | ].
  inversion H; subst. simpl. auto.
Qed.

Lemma scan_from_match_at p : forall s pos skip m,
  In m (Re.scan p pos s skip) ->
  exists pos' s' adv, Re.match_at p pos' s' adv = Some m.
Proof.
  induction s as [ | c s IH]; intros pos skip m H.
  - destruct skip; simpl in H; [ | contradiction].
    destruct (Re.match_at p pos [] false) eqn:E; [ | contradiction].
    destruct (Nat.eqb (Re.m_end m0) pos).
    + destruct H as [H | H]; [subst; eauto | ].
      destruct (Re.match_at p pos [] true) eqn:E2; [ | contradiction].
      destruct H as [H | H]; [subst; eauto | contradiction].
    + destruct H as [H | H]; [subst; eauto | contradiction].
  - destruct skip; simpl in H; [ | eauto].
    destruct (Re.match_at p pos (c :: s) false) eqn:E; [ | eauto].
    destruct (Nat.eqb (Re.m_end m0) pos).
    + destruct H as [H | H]; [subst; eauto | ].
      destruct (Re.match_at p pos (c :: s) true) eqn:E2; [ | eauto].
      destruct H as [H | H]; [subst; eauto | eauto].
    + destruct H as [H | H]; [subst; eauto | eauto].
Qed.

Lemma finditer_group p text g m :
  Re.always_sets g (Re.p_regex p) = true ->
  In m (Re.finditer p text) ->
  exists s, Re.group text m g = Some s.
Proof.
  intros E H. apply scan_from_match_at in H.
  destruct H as (pos & s & adv & H).
  apply match_at_groups with (g := g) in H; [ | exact E].
  unfold Re.group. destruct g; [eauto | ].
  unfold has_group in H.
  destruct (Re.lookup (S g) (Re.m_groups m)) as [[b e] | ]; [eauto | congruence].
Qed.

(** ** The strategies never raise, and compute the functional reading *)

Lemma str_eqb_eq : forall a b, PyStr.eqb a b = true <-> a = b.
Proof.
  induction a as [ | x a IH]; destruct b as [ | y b]; simpl;
    try (split; [discriminate | congruence]); [tauto | ].
  unfold PyStr.char_eqb. rewrite andb_true_iff, N.eqb_eq, IH.
  split; [intros [-> ->]; reflexivity | intros E; inversion E; auto].
Qed.

Lemma str_eqb_refl a : PyStr.eqb a a = true.
Proof. apply str_eqb_eq. reflexivity. Qed.

Lemma re_finditer_good ic pattern text :
  good_pattern ic pattern = true ->
  re_finditer pattern text ic = Ok (matches pattern text ic)
  /\ Forall (fun m => Re.group text m 1 = Some (capture text m))
       (matches pattern text ic).
Proof.
  unfold good_pattern, re_finditer, matches, capture. intros G.
  destruct (Re.compile pattern ic) as [p | ]; [ | discriminate].
  split; [reflexivity | ].
  apply Forall_forall. intros m Hm.
  destruct (@finditer_group p text 1 m G Hm) as (s & E).
  rewrite E. reflexivity.
Qed.

Lemma calculate_confidence_ok name v ctx :
  calculate_confidence name v ctx = Ok (score name v ctx).
Proof.
  unfold score, calculate_confidence, re_search.
  destruct (Re.compile grouped_number_pattern false) eqn:E.
  - reflexivity.
  - vm_compute in E. discriminate.
Qed.

Lemma pattern_match_loop_spec self name : forall ms results,
  Forall (fun m => Re.group (document_text self) m 1
                   = Some (capture (document_text self) m)) ms ->
  pattern_match_loop self name ms results
  = Ok (results
        ++ option_list
             (option_map (pattern_field (document_text self) name)
                (first_parseable (document_text self) ms))).
Proof.
  induction ms as [ | m ms IH]; intros results H;
    cbn [pattern_match_loop first_parseable].
  - cbn. rewrite app_nil_r. reflexivity.
  - inversion H as [ | ? ? Hm Hms]; subst.
    unfold group_str. rewrite Hm. cbn [bind].
    destruct (extract_number (capture (document_text self) m)) as [v | ].
    + rewrite calculate_confidence_ok. reflexivity.
    + apply IH. exact Hms.
Qed.

Lemma last_named_snoc results f name :
  last_named (results ++ [f]) name = PyStr.eqb (field_name f) name.
Proof.
  unfold last_named. rewrite rev_app_distr. reflexivity.
Qed.

Lemma last_named_other results name :
  (forall f, In f results -> field_name f <> name) ->
  last_named results name = false.
Proof.
  unfold last_named. intros H.
  destruct (rev results) as [ | f l] eqn:E; [reflexivity | ].
  assert (In f results) as Hf.
  { apply in_rev. rewrite E. left. reflexivity. }
  destruct (PyStr.eqb (field_name f) name) eqn:Q; [ | reflexivity].
  apply str_eqb_eq in Q. apply H in Hf. contradiction.
Qed.

Lemma pattern_loop_spec self name : forall patterns results,
  forallb (good_pattern true) patterns = true ->
  (forall f, In f results -> field_name f <> name) ->
  pattern_loop self name patterns results
  = Ok (results
        ++ option_list
             (option_map (pattern_field (document_text self) name)
                (first_pattern_hit (document_text self) patterns))).
Proof.
  induction patterns as [ | p ps IH]; intros results G H; simpl.
  - rewrite app_nil_r. reflexivity.
  - simpl in G. apply andb_true_iff in G. destruct G as [Gp Gps].
    destruct (@re_finditer_good true p (document_text self) Gp) as [E F].
    rewrite E. simpl.
    rewrite (@pattern_match_loop_spec self name _ results F). cbn [bind].
    destruct (first_parseable (document_text self)
                (matches p (document_text self) true)) as [[m v] | ]; simpl.
    + rewrite last_named_snoc. simpl. rewrite str_eqb_refl. reflexivity.
    + rewrite app_nil_r. rewrite (last_named_other _ H).
      apply IH; assumption.
Qed.

Lemma entry_fields_name doc entry f :
  In f (entry_fields doc entry) -> field_name f = fst entry.
Proof.
  unfold entry_fields.
  destruct (first_pattern_hit doc (snd entry)) as [[m v] | ]; simpl;
    [ | contradiction].
  intros [<- | []]. reflexivity.
Qed.

Lemma pattern_fields_names doc table f :
  In f (pattern_fields doc table) -> In (field_name f) (map fst table).
Proof.
  unfold pattern_fields. rewrite in_flat_map. intros (e & He & Hf).
  apply entry_fields_name in Hf. rewrite Hf. apply in_map. exact He.
Qed.

Lemma field_loop_spec self : forall table results,
  good_table table = true ->
  NoDup (map fst table) ->
  (forall f, In f results -> ~ In (field_name f) (map fst table)) ->
  field_loop self table results
  = Ok (results ++ pattern_fields (document_text self) table).
Proof.
  induction table as [ | [name pats] table IH]; intros results G N H; simpl.
  - rewrite app_nil_r. reflexivity.
  - simpl in G. apply andb_true_iff in G. destruct G as [Gp Gt].
    inversion N as [ | ? ? Hn Nt]; subst.
    rewrite pattern_loop_spec; [ | exact Gp | ].
    + simpl. rewrite IH; [ | exact Gt | exact Nt | ].
      * rewrite <- app_assoc. reflexivity.
      * intros f Hf Hin. apply in_app_or in Hf. destruct Hf as [Hf | Hf].
        -- apply (H f Hf). right. exact Hin.
        -- apply (@entry_fields_name (document_text self) (name, pats)) in Hf.
           simpl in Hf. rewrite Hf in Hin. contradiction.
    + intros f Hf E. apply (H f Hf). left. symmetry. exact E.
Qed.

Lemma nodupb_NoDup l : nodupb l = true -> NoDup l.
Proof.
  induction l as [ | x l IH]; simpl; intros H; constructor.
  - apply andb_true_iff in H. destruct H as [H _].
    apply negb_true_iff in H. intros Hin.
    assert (existsb (PyStr.eqb x) l = true) as E.
    { apply existsb_exists. exists x. split; [exact Hin | apply str_eqb_refl]. }
    congruence.
  - apply andb_true_iff in H. destruct H as [_ H]. auto.
Qed.

Lemma FIELD_PATTERNS_good : good_table FIELD_PATTERNS = true.
Proof. vm_compute. reflexivity. Qed.

Lemma FIELD_PATTERNS_NoDup : NoDup (map fst FIELD_PATTERNS).
Proof. apply nodupb_NoDup. vm_compute. reflexivity. Qed.

Lemma parse_with_patterns_spec self :
  parse_with_patterns self
  = Ok (pattern_fields (document_text self) FIELD_PATTERNS).
Proof.
  unfold parse_with_patterns.
  rewrite field_loop_spec.
  - reflexivity.
  - exact FIELD_PATTERNS_good.
  - exact FIELD_PATTERNS_NoDup.
  - intros f [].
Qed.

Lemma already_extracted_covered self i v :
  already_extracted self i v = covered (parsed_fields self) i v.
Proof. reflexivity. Qed.

Lemma context_match_loop_spec self i line keyword : forall ms results,
  Forall (fun m => Re.group line m 1 = Some (capture line m)) ms ->
  context_match_loop self i line keyword ms results
  = Ok (results
        ++ filter (fresh (parsed_fields self))
             (flat_map
                (fun m =>
                   let v := extract_number (capture line m) in
                   if is_positive v
                   then [context_field i line keyword (the v)] else [])
                ms)).
Proof.
  induction ms as [ | m ms IH]; intros results H;
    cbn [context_match_loop flat_map].
  - cbn. rewrite app_nil_r. reflexivity.
  - inversion H as [ | ? ? Hm Hms]; subst.
    unfold group_str. rewrite Hm. cbn [bind]. rewrite filter_app.
    destruct (is_positive (extract_number (capture line m))) eqn:P.
    + cbn [filter]. unfold fresh at 1.
      cbn [line_number value context_field].
      rewrite <- already_extracted_covered.
      destruct (already_extracted self i
                  (the (extract_number (capture line m)))); cbn [negb].
      * cbn [bind app]. apply IH. exact Hms.
      * rewrite calculate_confidence_ok. cbn [bind].
        rewrite IH by exact Hms. rewrite <- app_assoc. reflexivity.
    + cbn [bind filter app]. apply IH. exact Hms.
Qed.

Lemma context_amount_pattern_good :
  good_pattern false context_amount_pattern = true.
Proof. vm_compute. reflexivity. Qed.

Lemma all_amount_pattern_good : good_pattern true all_amount_pattern = true.
Proof. vm_compute. reflexivity. Qed.

Lemma keyword_loop_spec self i line : forall kws results,
  keyword_loop self i line (PyStr.lower line) kws results
  = Ok (results
        ++ filter (fresh (parsed_fields self))
             (flat_map
                (fun keyword =>
                   if PyStr.contains keyword (PyStr.lower line)
                   then context_candidates_for i line keyword else [])
                kws)).
Proof.
  induction kws as [ | kw kws IH]; intros results;
    cbn [keyword_loop flat_map].
  - cbn. rewrite app_nil_r. reflexivity.
  - rewrite filter_app.
    destruct (PyStr.contains kw (PyStr.lower line)).
    + destruct (@re_finditer_good false context_amount_pattern line
                  context_amount_pattern_good) as [E F].
      rewrite E. cbn [bind].
      rewrite (@context_match_loop_spec self i line kw _ results F).
      cbn [bind]. rewrite IH. rewrite <- app_assoc. reflexivity.
    + cbn [bind filter app]. apply IH.
Qed.

Lemma context_line_loop_spec self : forall ls i results,
  context_line_loop self i ls results
  = Ok (results
        ++ filter (fresh (parsed_fields self)) (context_candidates i ls)).
Proof.
  induction ls as [ | line ls IH]; intros i results;
    cbn [context_line_loop context_candidates].
  - cbn. rewrite app_nil_r. reflexivity.
  - rewrite keyword_loop_spec. cbn [bind]. rewrite IH.
    rewrite filter_app, <- app_assoc. reflexivity.
Qed.

Lemma parse_context_aware_spec self :
  parse_context_aware self
  = Ok (filter (fresh (parsed_fields self))
          (context_candidates 1 (lines self))).
Proof.
  unfold parse_context_aware. rewrite context_line_loop_spec. reflexivity.
Qed.

Lemma amount_match_loop_spec self i line : forall ms results,
  Forall (fun m => Re.group line m 1 = Some (capture line m)) ms ->
  amount_match_loop self i line ms results
  = Ok (results
        ++ filter (fresh (parsed_fields self))
             (flat_map
                (fun m =>
                   let v := extract_number (capture line m) in
                   if is_positive v then [amount_field i line m (the v)] else [])
                ms)).
Proof.
  induction ms as [ | m ms IH]; intros results H;
    cbn [amount_match_loop flat_map].
  - cbn. rewrite app_nil_r. reflexivity.
  - inversion H as [ | ? ? Hm Hms]; subst.
    unfold group_str at 1. rewrite Hm. cbn [bind]. rewrite filter_app.
    destruct (is_positive (extract_number (capture line m))) eqn:P.
    + cbn [filter]. unfold fresh at 1.
      cbn [line_number value amount_field].
      rewrite <- already_extracted_covered.
      destruct (already_extracted self i
                  (the (extract_number (capture line m)))); cbn [negb].
      * cbn [bind app]. apply IH. exact Hms.
      * unfold group_str, Re.group. cbn [bind].
        rewrite IH by exact Hms. rewrite <- app_assoc. reflexivity.
    + cbn [bind filter app]. apply IH. exact Hms.
Qed.

Lemma amount_line_loop_spec self : forall ls i results,
  amount_line_loop self i ls results
  = Ok (results
        ++ filter (fresh (parsed_fields self)) (amount_candidates i ls)).
Proof.
  induction ls as [ | line ls IH]; intros i results;
    cbn [amount_line_loop amount_candidates].
  - cbn. rewrite app_nil_r. reflexivity.
  - destruct (@re_finditer_good true all_amount_pattern line
                all_amount_pattern_good) as [E F].
    rewrite E. cbn [bind].
    rewrite (@amount_match_loop_spec self i line _ results F).
    cbn [bind]. rewrite IH.
    rewrite filter_app, <- app_assoc. reflexivity.
Qed.

Lemma parse_all_amounts_spec self :
  parse_all_amounts self
  = Ok (filter (fresh (parsed_fields self))
          (amount_candidates 1 (lines self))).
Proof.
  unfold parse_all_amounts. rewrite amount_line_loop_spec. reflexivity.
Qed.

(** ** One call of [parse] *)

Lemma insert_In x y l :
  In y (insert_by_confidence x l) <-> y = x \/ In y l.
Proof.
  induction l as [ | z l IH]; simpl.
  - intuition congruence.
  - destruct (PyFloat.lt (confidence x) (confidence z)); simpl.
    + rewrite IH. intuition congruence.
    + intuition congruence.
Qed.

Lemma sort_In x l : In x (sort_by_confidence l) <-> In x l.
Proof.
  induction l as [ | y l IH]; simpl; [tauto | ].
  rewrite insert_In, IH. intuition congruence.
Qed.

Lemma insert_length x l :
  List.length (insert_by_confidence x l) = S (List.length l).
Proof.
  induction l as [ | z l IH]; simpl; [reflexivity | ].
  destruct (PyFloat.lt (confidence x) (confidence z)); simpl; congruence.
Qed.

Lemma sort_length l : List.length (sort_by_confidence l) = List.length l.
Proof.
  induction l as [ | y l IH]; simpl; [reflexivity | ].
  rewrite insert_length, IH. reflexivity.
Qed.

Lemma parse_spec self flag now :
  parse self flag now
  = Ok (parse_results self flag now, after_parse self flag).
Proof.
  unfold parse. rewrite parse_with_patterns_spec. cbn [bind].
  rewrite parse_context_aware_spec. cbn [bind].
  destruct flag.
  - rewrite parse_all_amounts_spec. reflexivity.
  - cbn [bind]. unfold parse_results, after_parse, round_amounts.
    cbn [parsed_fields extend sort_parsed_fields document_text lines].
    rewrite app_nil_r. reflexivity.
Qed.

(** ** Currency detection *)

Lemma first_symbol_spec text : forall items,
  (exists before symbol code after,
      items = before ++ (symbol, code) :: after
      /\ PyStr.contains symbol text = true
      /\ (forall s, In s (map fst before) -> PyStr.contains s text = false)
      /\ first_symbol items text = code)
  \/ ((forall s, In s (map fst items) -> PyStr.contains s text = false)
      /\ first_symbol items text = u"INR").
Proof.
  induction items as [ | [symbol code] items IH]; simpl.
  - right. split; [intros s [] | reflexivity].
  - destruct (PyStr.contains symbol text) eqn:E.
    + left. exists [], symbol, code, items. simpl.
      repeat split; auto. intros s [].
    + destruct IH as [(before & s1 & c1 & after & -> & Hc & Hb & Hr) | [Hn Hr]].
      * left. exists ((symbol, code) :: before), s1, c1, after. simpl.
        repeat split; auto. intros s [<- | Hs]; auto.
      * right. split; [ | exact Hr]. intros s [<- | Hs]; auto.
Qed.

(** C8: [detect_currency] returns the code of the first marker, in the
    order ₹, Rs., Rs, INR, $, USD, €, EUR, £, GBP, that occurs in the
    text, and INR when none occurs. *)
Theorem detect_currency_first_marker : forall text,
  map fst CURRENCY_SYMBOLS
  = [u"₹"; u"Rs."; u"Rs"; u"INR"; u"$"; u"USD"; u"€"; u"EUR"; u"£"; u"GBP"]
  /\ map snd CURRENCY_SYMBOLS
     = [u"INR"; u"INR"; u"INR"; u"INR"; u"USD"; u"USD"; u"EUR"; u"EUR";
        u"GBP"; u"GBP"]
  /\ ((exists before symbol code after,
          CURRENCY_SYMBOLS = before ++ (symbol, code) :: after
          /\ PyStr.contains symbol text = true
          /\ (forall s, In s (map fst before) ->
                        PyStr.contains s text = false)
          /\ detect_currency text = code)
      \/ ((forall s, In s (map fst CURRENCY_SYMBOLS) ->
                     PyStr.contains s text = false)
          /\ detect_currency text = u"INR")).
Proof.
  intros text. split; [reflexivity | ]. split; [reflexivity | ].
  apply first_symbol_spec.
Qed.

(** ** The summary *)

Lemma summary_step_premium s f :
  total_premium_amount (summary_step s f)
  = if counted_as PREMIUM f
    then (total_premium_amount s + value f)%float
    else total_premium_amount s.
Proof.
  unfold summary_step, counted_as.
  destruct (category f); simpl;
    destruct (PyFloat.ge (confidence f) 0.7); reflexivity.
Qed.

Lemma summary_step_coverage s f :
  total_coverage_amount (summary_step s f)
  = if counted_as COVERAGE f
    then (total_coverage_amount s + value f)%float
    else total_coverage_amount s.
Proof.
  unfold summary_step, counted_as.
  destruct (category f); simpl;
    destruct (PyFloat.ge (confidence f) 0.7); reflexivity.
Qed.

Lemma summary_step_claims s f :
  total_claims_amount (summary_step s f)
  = if counted_as CLAIM f
    then (total_claims_amount s + value f)%float
    else total_claims_amount s.
Proof.
  unfold summary_step, counted_as.
  destruct (category f); simpl;
    destruct (PyFloat.ge (confidence f) 0.7); reflexivity.
Qed.

Lemma summary_step_high s f :
  high_confidence_fields (summary_step s f)
  = if high_confidence f
    then high_confidence_fields s + 1
    else high_confidence_fields s.
Proof.
  unfold summary_step, high_confidence.
  destruct (category f); simpl;
    destruct (PyFloat.ge (confidence f) 0.7);
    destruct (PyFloat.ge (confidence f) 0.8); reflexivity.
Qed.

Lemma summary_fold : forall fs s,
  let s' := fold_left summary_step fs s in
  total_premium_amount s'
  = fold_left (fun acc f => (acc + value f)%float)
      (filter (counted_as PREMIUM) fs) (total_premium_amount s)
  /\ total_coverage_amount s'
     = fold_left (fun acc f => (acc + value f)%float)
         (filter (counted_as COVERAGE) fs) (total_coverage_amount s)
  /\ total_claims_amount s'
     = fold_left (fun acc f => (acc + value f)%float)
         (filter (counted_as CLAIM) fs) (total_claims_amount s)
  /\ high_confidence_fields s'
     = high_confidence_fields s + List.length (filter high_confidence fs).
Proof.
  induction fs as [ | f fs IH]; intros s; cbn [fold_left filter].
  - cbn. repeat split; auto.
  - destruct (IH (summary_step s f)) as (P & C & L & H).
    cbn zeta in *. rewrite P, C, L, H.
    rewrite summary_step_premium, summary_step_coverage,
      summary_step_claims, summary_step_high.
    repeat split.
    + destruct (counted_as PREMIUM f); reflexivity.
    + destruct (counted_as COVERAGE f); reflexivity.
    + destruct (counted_as CLAIM f); reflexivity.
    + destruct (high_confidence f); cbn [List.length]; lia.
Qed.

(** C7: the summary's three totals are the running sums, from 0, of the
    values of the fields of the category with confidence at least 0.7, and
    [high_confidence_fields] counts the fields with confidence at least
    0.8. *)
Theorem generate_summary_totals : forall self,
  total_premium_amount (_generate_summary self)
  = sum_values (filter (counted_as PREMIUM) (parsed_fields self))
  /\ total_coverage_amount (_generate_summary self)
     = sum_values (filter (counted_as COVERAGE) (parsed_fields self))
  /\ total_claims_amount (_generate_summary self)
     = sum_values (filter (counted_as CLAIM) (parsed_fields self))
  /\ high_confidence_fields (_generate_summary self)
     = List.length (filter high_confidence (parsed_fields self)).
Proof.
  intros self. unfold _generate_summary, sum_values.
  destruct (summary_fold (parsed_fields self)
              {| by_category := []; by_currency := [];
                 high_confidence_fields := 0;
                 total_premium_amount := 0%float;
                 total_coverage_amount := 0%float;
                 total_claims_amount := 0%float |}) as (P & C & L & H).
  cbn zeta in *. rewrite P, C, L, H. repeat split.
Qed.

(** ** The confidence score *)

(** C4: the score is 0.5 plus the four boosts, cut at 1.0; it lies between
    0.5 and 1.0. *)
Theorem calculate_confidence_formula : forall name v ctx,
  calculate_confidence name v ctx = Ok (confidence_formula name v ctx)
  /\ PrimFloat.leb 0.5 (confidence_formula name v ctx) = true
  /\ PrimFloat.leb (confidence_formula name v ctx) 1.0 = true.
Proof.
  intros name v ctx.
  unfold calculate_confidence, confidence_formula, has_grouped_number,
    re_search.
  destruct (Re.compile grouped_number_pattern false) as [p | ] eqn:E;
    [ | vm_compute in E; discriminate].
  cbn [bind fold_left].
  destruct (PyStr.contains (u"₹") ctx || PyStr.contains (u"Rs") ctx);
    destruct (PyStr.contains (PyStr.replace 95%N 32%N (PyStr.lower name))
                (PyStr.lower ctx));
    destruct (PyFloat.gt v 0);
    destruct (is_some (Re.search p ctx));
    repeat split; reflexivity.
Qed.

(** The name is looked for lower-cased in the lower-cased context, whatever
    the letters: the name "É" is found in the context "é". *)
Lemma calculate_confidence_accented :
  calculate_confidence (u"É") 0 (u"é") = Ok 0.7%float.
Proof. vm_compute. reflexivity. Qed.

(** ** What the fields of each strategy look like *)

Lemma pattern_fields_inv doc table f :
  In f (pattern_fields doc table) ->
  exists name patterns h,
    In (name, patterns) table
    /\ first_pattern_hit doc patterns = Some h
    /\ f = pattern_field doc name h.
Proof.
  unfold pattern_fields. rewrite in_flat_map.
  intros ([name patterns] & He & Hf). unfold entry_fields in Hf. simpl in Hf.
  destruct (first_pattern_hit doc patterns) as [h | ] eqn:E; simpl in Hf;
    [ | contradiction].
  destruct Hf as [<- | []]. exists name, patterns, h. auto.
Qed.

Lemma is_positive_the v :
  is_positive v = true ->
  PyFloat.truthy (the v) = true /\ PyFloat.gt (the v) 0 = true.
Proof.
  destruct v as [x | ]; simpl; [ | discriminate].
  intros H. apply andb_true_iff in H. exact H.
Qed.

Lemma context_candidates_for_inv i line keyword f :
  In f (context_candidates_for i line keyword) ->
  exists v,
    f = context_field i line keyword v
    /\ PyFloat.truthy v = true /\ PyFloat.gt v 0 = true.
Proof.
  unfold context_candidates_for. rewrite in_flat_map.
  intros (m & _ & Hf). cbn zeta in Hf.
  destruct (is_positive (extract_number (capture line m))) eqn:P;
    [ | contradiction].
  destruct Hf as [<- | []]. apply is_positive_the in P.
  eexists. split; [reflexivity | exact P].
Qed.

Lemma context_candidates_inv : forall ls i f,
  In f (context_candidates i ls) ->
  exists n line keyword v,
    i <= n /\ nth_error ls (n - i) = Some line
    /\ In keyword keywords
    /\ f = context_field n line keyword v
    /\ PyFloat.truthy v = true /\ PyFloat.gt v 0 = true.
Proof.
  induction ls as [ | line ls IH]; intros i f H; simpl in H;
    [contradiction | ].
  apply in_app_or in H. destruct H as [H | H].
  - unfold context_candidates_on in H. rewrite in_flat_map in H.
    destruct H as (kw & Hk & Hf).
    destruct (PyStr.contains kw (PyStr.lower line)); [ | contradiction].
    apply context_candidates_for_inv in Hf. destruct Hf as (v & -> & Hv).
    exists i, line, kw, v. rewrite Nat.sub_diag. simpl. auto.
  - apply IH in H.
    destruct H as (n & l & kw & v & Hn & Hl & Hk & -> & Hv).
    exists n, l, kw, v. replace (n - i) with (S (n - S i)) by lia.
    simpl. destruct Hv. repeat split; auto; lia.
Qed.

Lemma amount_candidates_inv : forall ls i f,
  In f (amount_candidates i ls) ->
  exists n line m v,
    i <= n /\ nth_error ls (n - i) = Some line
    /\ f = amount_field n line m v
    /\ PyFloat.truthy v = true /\ PyFloat.gt v 0 = true.
Proof.
  induction ls as [ | line ls IH]; intros i f H; simpl in H;
    [contradiction | ].
  apply in_app_or in H. destruct H as [H | H].
  - unfold amount_candidates_on in H. rewrite in_flat_map in H.
    destruct H as (m & _ & Hf). cbn zeta in Hf.
    destruct (is_positive (extract_number (capture line m))) eqn:P;
      [ | contradiction].
    destruct Hf as [<- | []]. apply is_positive_the in P.
    exists i, line, m, (the (extract_number (capture line m))).
    rewrite Nat.sub_diag. simpl. auto.
  - apply IH in H. destruct H as (n & l & m & v & Hn & Hl & -> & Hv).
    exists n, l, m, v. replace (n - i) with (S (n - S i)) by lia.
    simpl. destruct Hv. repeat split; auto; lia.
Qed.

(** The fields of the parser after one call, by strategy. *)
Lemma after_parse_fields self flag f :
  In f (parsed_fields (after_parse self flag)) <->
  In f (parsed_fields self) \/ In f (round_patterns self)
  \/ In f (round_context self) \/ In f (round_amounts self flag).
Proof.
  unfold after_parse. cbn [parsed_fields].
  rewrite sort_In, !in_app_iff. tauto.
Qed.

Lemma round_context_candidates self f :
  In f (round_context self) ->
  In f (context_candidates 1 (lines self))
  /\ fresh (parsed_fields self ++ round_patterns self) f = true.
Proof. unfold round_context. rewrite filter_In. tauto. Qed.

Lemma round_amounts_candidates self flag f :
  In f (round_amounts self flag) ->
  In f (amount_candidates 1 (lines self))
  /\ fresh ((parsed_fields self ++ round_patterns self)
            ++ round_context self) f = true.
Proof.
  unfold round_amounts. destruct flag; [ | intros []].
  rewrite filter_In. tauto.
Qed.

(** ** The lines of the document *)

Lemma count_firstn c : forall s k,
  PyStr.count c (firstn k s) <= PyStr.count c s.
Proof.
  unfold PyStr.count.
  induction s as [ | x s IH]; intros k; destruct k; simpl; try lia.
  specialize (IH k). destruct (PyStr.char_eqb c x); simpl; lia.
Qed.

Lemma count_slice_prefix c s k :
  PyStr.count c (PyStr.slice s 0 k) <= PyStr.count c s.
Proof.
  unfold PyStr.slice. simpl. rewrite Nat.sub_0_r. apply count_firstn.
Qed.

Lemma split_length sep : forall s,
  List.length (PyStr.split sep s) = PyStr.count sep s + 1.
Proof.
  unfold PyStr.count.
  induction s as [ | x s IH]; simpl; [reflexivity | ].
  unfold PyStr.char_eqb in *. rewrite (N.eqb_sym sep x).
  destruct (N.eqb x sep); simpl.
  - rewrite IH. reflexivity.
  - destruct (PyStr.split sep s) as [ | w ws]; simpl in *; lia.
Qed.

Lemma nth_error_bound {A : Type} (l : list A) k x :
  nth_error l k = Some x -> k < List.length l.
Proof. intros H. apply nth_error_Some. congruence. Qed.

Lemma context_scanner_lines self f :
  In f (filter (fresh (parsed_fields self))
          (context_candidates 1 (lines self)))
  \/ In f (filter (fresh (parsed_fields self))
             (amount_candidates 1 (lines self))) ->
  exists n line,
    1 <= n /\ line_number f = Some n
    /\ nth_error (lines self) (n - 1) = Some line
    /\ context f = PyStr.strip line.
Proof.
  intros [Hf | Hf]; apply filter_In in Hf; destruct Hf as [Hf _].
  - apply context_candidates_inv in Hf.
    destruct Hf as (n & line & kw & v & Hn & Hl & _ & -> & _).
    exists n, line. auto.
  - apply amount_candidates_inv in Hf.
    destruct Hf as (n & line & m & v & Hn & Hl & -> & _).
    exists n, line. auto.
Qed.

(** ** Zero values *)

Lemma truthy_not_zero v :
  PyFloat.truthy v = true -> PrimFloat.eqb v 0 = false.
Proof. unfold PyFloat.truthy. apply negb_true_iff. Qed.

(** C10: the pattern matcher keeps a value of zero (the document
    "Annual Premium: 0" gives one field, of value 0.0), the two scanners
    only emit values that are true and above zero; so a field of value zero
    comes from the pattern matcher. *)
Theorem zero_value_only_from_patterns :
  (exists f,
      parse_with_patterns (__init__ (u"Annual Premium: 0")) = Ok [f]
      /\ value f = 0%float
      /\ field_name f = u"annual_premium"
      /\ extraction_method f = Some (u"pattern_matching"))
  /\ (forall self,
        exists cs xs,
          parse_context_aware self = Ok cs
          /\ parse_all_amounts self = Ok xs
          /\ forall f, In f (cs ++ xs) ->
               PyFloat.truthy (value f) = true
               /\ PyFloat.gt (value f) 0 = true
               /\ PrimFloat.eqb (value f) 0 = false)
  /\ (forall doc flag now,
        exists r s,
          parse (__init__ doc) flag now = Ok (r, s)
          /\ forall f, In f (parsed_fields s) ->
                       PrimFloat.eqb (value f) 0 = true ->
                       extraction_method f = Some (u"pattern_matching")).
Proof.
  assert (forall self flag f,
            In f (round_context self) \/ In f (round_amounts self flag) ->
            PyFloat.truthy (value f) = true
            /\ PyFloat.gt (value f) 0 = true) as HS.
  { intros self flag f [Hf | Hf].
    - apply round_context_candidates in Hf. destruct Hf as [Hf _].
      apply context_candidates_inv in Hf.
      destruct Hf as (n & line & kw & v & _ & _ & _ & -> & Hv). exact Hv.
    - apply round_amounts_candidates in Hf. destruct Hf as [Hf _].
      apply amount_candidates_inv in Hf.
      destruct Hf as (n & line & m & v & _ & _ & -> & Hv). exact Hv. }
  split; [ | split].
  - eexists. split; [vm_compute; reflexivity | ].
    repeat split; vm_compute; reflexivity.
  - intros self. eexists. eexists.
    split; [apply parse_context_aware_spec | ].
    split; [apply parse_all_amounts_spec | ].
    intros f Hf.
    assert (PyFloat.truthy (value f) = true
            /\ PyFloat.gt (value f) 0 = true) as [T G].
    { apply in_app_or in Hf.
      destruct Hf as [Hf | Hf]; apply filter_In in Hf; destruct Hf as [Hf _].
      - apply context_candidates_inv in Hf.
        destruct Hf as (n & line & kw & v & _ & _ & _ & -> & Hv). exact Hv.
      - apply amount_candidates_inv in Hf.
        destruct Hf as (n & line & m & v & _ & _ & -> & Hv). exact Hv. }
    repeat split; auto. apply truthy_not_zero. exact T.
  - intros doc flag now.
    exists (parse_results (__init__ doc) flag now),
           (after_parse (__init__ doc) flag).
    split; [apply parse_spec | ].
    intros f Hf Z. apply (proj1 (after_parse_fields _ _ _)) in Hf.
    destruct Hf as [[] | [Hf | Hf]].
    + unfold round_patterns in Hf. apply pattern_fields_inv in Hf.
      destruct Hf as (name & pats & [m v] & _ & _ & ->). reflexivity.
    + apply HS in Hf. destruct Hf as [T _].
      apply truthy_not_zero in T. congruence.
Qed.

(** ** Totality *)

(** C6: [parse] returns for every document (and every state of the
    parser); a capture that does not parse is skipped; the empty document
    gives no field and empty summary maps. *)
Theorem parse_total :
  (forall self flag now, exists r s, parse self flag now = Ok (r, s))
  /\ (forall text,
        PyFloat.of_str (PyStr.strip (PyStr.remove 44%N text)) = None ->
        extract_number text = None)
  /\ (forall self name m rest results s,
        Re.group (document_text self) m 1 = Some s ->
        extract_number s = None ->
        pattern_match_loop self name (m :: rest) results
        = pattern_match_loop self name rest results)
  /\ (forall self i line keyword m rest results s,
        Re.group line m 1 = Some s ->
        extract_number s = None ->
        context_match_loop self i line keyword (m :: rest) results
        = context_match_loop self i line keyword rest results
        /\ amount_match_loop self i line (m :: rest) results
           = amount_match_loop self i line rest results)
  /\ (forall flag now,
        exists r s,
          parse (__init__ []) flag now = Ok (r, s)
          /\ total_fields_extracted (metadata r) = 0
          /\ fields r = []
          /\ by_category (summary r) = []
          /\ by_currency (summary r) = []).
Proof.
  split; [ | split; [ | split; [ | split]]].
  - intros self flag now. eexists. eexists. apply parse_spec.
  - intros text H. unfold extract_number. rewrite H. reflexivity.
  - intros self name m rest results s G E.
    cbn [pattern_match_loop]. unfold group_str. rewrite G. cbn [bind].
    rewrite E. reflexivity.
  - intros self i line keyword m rest results s G E. split.
    + cbn [context_match_loop]. unfold group_str. rewrite G. cbn [bind].
      rewrite E. reflexivity.
    + cbn [amount_match_loop]. unfold group_str at 1. rewrite G.
      cbn [bind]. rewrite E. reflexivity.
  - intros flag now.
    exists (parse_results (__init__ []) flag now),
           (after_parse (__init__ []) flag).
    split; [apply parse_spec | ].
    destruct flag; repeat split; vm_compute; reflexivity.
Qed.

(** ** Categories *)

Lemma startswith_sep needle c b : forall a,
  ~ In c needle -> needle <> [] ->
  PyStr.startswith needle (a ++ c :: b) = PyStr.startswith needle a.
Proof.
  induction needle as [ | x n IH]; intros a Hc Hn; [congruence | ].
  destruct a as [ | y a]; simpl.
  - unfold PyStr.char_eqb. destruct (N.eqb x c) eqn:E; [ | reflexivity].
    apply N.eqb_eq in E. subst. exfalso. apply Hc. left. reflexivity.
  - destruct n as [ | x' n'].
    + destruct a; reflexivity.
    + rewrite IH; [reflexivity | | discriminate].
      intros H. apply Hc. right. exact H.
Qed.

Lemma contains_sep needle c b :
  ~ In c needle -> needle <> [] ->
  forall a,
    PyStr.contains needle (a ++ c :: b)
    = PyStr.contains needle a || PyStr.contains needle b.
Proof.
  intros Hc Hn. induction a as [ | y a IH].
  - pose proof (@startswith_sep needle c b [] Hc Hn) as S.
    cbn [app] in *. cbn [PyStr.contains]. rewrite S.
    destruct needle; [congruence | ]. simpl. reflexivity.
  - pose proof (@startswith_sep needle c b (y :: a) Hc Hn) as S.
    cbn [app] in *. cbn [PyStr.contains]. rewrite S, IH.
    rewrite orb_assoc. reflexivity.
Qed.

Lemma contains_no_head x n : forall hay,
  (forall c, In c hay -> c <> x) ->
  PyStr.contains (x :: n) hay = false.
Proof.
  induction hay as [ | y hay IH]; intros H; simpl; [reflexivity | ].
  unfold PyStr.char_eqb. destruct (N.eqb x y) eqn:E.
  - apply N.eqb_eq in E. subst. exfalso. apply (H y); [left | ]; reflexivity.
  - simpl. apply IH. intros c Hc. apply H. right. exact Hc.
Qed.

Lemma of_uint_digits d : forall c,
  In c (PyStr.of_uint d) -> PyFloat.is_digit c = true.
Proof.
  induction d; simpl; intros c H; try contradiction;
    (destruct H as [<- | H]; [reflexivity | auto]).
Qed.

Lemma lower_from_cons c s b :
  (c =? 931)%N = false -> PyStr.case_ignorable c = false ->
  PyStr.lower_from b (c :: s)
  = PyStr.lower_char c ++ PyStr.lower_from (PyStr.cased c) s.
Proof. intros E I. cbn [PyStr.lower_from]. rewrite E, I. reflexivity. Qed.

Ltac lower_step :=
  rewrite lower_from_cons by (vm_compute; reflexivity);
  match goal with
  | |- context [PyStr.lower_char ?c] =>
      let v := eval vm_compute in (PyStr.lower_char c) in
      change (PyStr.lower_char c) with v
  end;
  match goal with
  | |- context [PyStr.cased ?c] =>
      let v := eval vm_compute in (PyStr.cased c) in
      change (PyStr.cased c) with v
  end;
  cbn [app].

Lemma lower_from_of_uint d : forall b,
  PyStr.lower_from b (PyStr.of_uint d) = PyStr.of_uint d.
Proof.
  induction d; intros b; cbn [PyStr.of_uint]; try reflexivity;
    lower_step; rewrite IHd; reflexivity.
Qed.

Lemma lower_of_uint d : PyStr.lower (PyStr.of_uint d) = PyStr.of_uint d.
Proof. apply lower_from_of_uint. Qed.

(** A character that is neither cased nor case-ignorable cuts the text in
    two for the lower-casing: what a capital sigma becomes does not depend
    on what is on the other side. *)
Lemma cased_next_app_sep c r : forall a,
  PyStr.case_ignorable c = false -> PyStr.cased c = false ->
  PyStr.cased_next (a ++ c :: r) = PyStr.cased_next a.
Proof.
  intros a I C. induction a as [ | x a IH]; cbn [app PyStr.cased_next].
  - rewrite I. exact C.
  - rewrite IH. reflexivity.
Qed.

Lemma lower_from_app_sep c r : forall a b,
  PyStr.case_ignorable c = false -> PyStr.cased c = false ->
  exists b',
    PyStr.lower_from b (a ++ c :: r)
    = PyStr.lower_from b a ++ PyStr.lower_from b' (c :: r).
Proof.
  intros a b I C. revert b.
  induction a as [ | x a IH]; intros b; cbn [app PyStr.lower_from].
  - exists b. reflexivity.
  - destruct (IH (if PyStr.case_ignorable x then b else PyStr.cased x))
      as (b' & E).
    exists b'. rewrite E, cased_next_app_sep by assumption.
    rewrite app_assoc. reflexivity.
Qed.

Lemma lower_line_name kw i :
  PyStr.lower (kw ++ u"_line_" ++ PyStr.of_nat i)
  = PyStr.lower kw ++ u"_line_" ++ PyStr.of_nat i.
Proof.
  unfold PyStr.lower.
  change (u"_line_") with (95%N :: u"line_").
  destruct (@lower_from_app_sep 95%N (u"line_" ++ PyStr.of_nat i) kw false)
    as (b' & E); [vm_compute; reflexivity | vm_compute; reflexivity | ].
  cbn [app] in *. rewrite E. f_equal.
  change (u"line_") with [108; 105; 110; 101; 95]%N. cbn [app].
  do 6 lower_step.
  unfold PyStr.of_nat. rewrite lower_from_of_uint. reflexivity.
Qed.

(** The lower-casing beyond ASCII: letters with accents, the capital sigma
    at the end of a word and elsewhere, and the one character whose lower
    case is two characters. *)
Lemma lower_beyond_ascii :
  PyStr.lower (u"ÉCOLE") = u"école"
  /\ PyStr.lower (u"ΟΔΟΣ ΣΟΦΙΑΣ") = u"οδος σοφιας"
  /\ PyStr.lower [304%N] = [105; 775]%N.
Proof. vm_compute. repeat split; reflexivity. Qed.

Lemma existsb_char_false c w :
  existsb (PyStr.char_eqb c) w = false -> ~ In c w.
Proof.
  intros E H.
  assert (existsb (PyStr.char_eqb c) w = true) as E'.
  { apply existsb_exists. exists c. split; [exact H | ].
    unfold PyStr.char_eqb. apply N.eqb_refl. }
  congruence.
Qed.

Lemma contains_line_name w a i :
  plain_word w = true ->
  PyStr.contains w (a ++ u"_line_" ++ PyStr.of_nat i) = PyStr.contains w a.
Proof.
  unfold plain_word. intros H.
  apply andb_true_iff in H. destruct H as [H L].
  apply andb_true_iff in H. destruct H as [U D].
  apply negb_true_iff in U, L. apply existsb_char_false in U.
  destruct w as [ | x n]; [discriminate | ].
  apply negb_true_iff in D.
  change (u"_line_") with (95%N :: u"line" ++ [95%N]).
  change (a ++ (95%N :: u"line" ++ [95%N]) ++ PyStr.of_nat i)
    with (a ++ 95%N :: (u"line" ++ 95%N :: PyStr.of_nat i)).
  rewrite contains_sep by (auto; discriminate).
  rewrite contains_sep by (auto; discriminate).
  rewrite L.
  rewrite (@contains_no_head x n (PyStr.of_nat i)).
  - rewrite !orb_false_r. reflexivity.
  - intros c Hc E. subst c. apply of_uint_digits in Hc. congruence.
Qed.

Lemma categorize_field_line_name kw i :
  categorize_field (kw ++ u"_line_" ++ PyStr.of_nat i) = categorize_field kw.
Proof.
  unfold categorize_field. rewrite lower_line_name.
  rewrite !contains_line_name by (vm_compute; reflexivity).
  reflexivity.
Qed.

Lemma categorize_amount_line i :
  categorize_field (u"amount_line_" ++ PyStr.of_nat i) = BENEFIT.
Proof.
  change (u"amount_line_") with (u"amount" ++ u"_line_").
  rewrite <- app_assoc. rewrite categorize_field_line_name.
  vm_compute. reflexivity.
Qed.

Lemma categorize_field_rules name :
  categorize_field name = categorize_by_rules name.
Proof.
  unfold categorize_field, categorize_by_rules, category_rules.
  cbn [find existsb fst snd].
  repeat match goal with
         | |- context [PyStr.contains ?w (PyStr.lower name)] =>
             destruct (PyStr.contains w (PyStr.lower name));
             cbn [orb find existsb fst snd]; try reflexivity
         end.
Qed.

(** C5: every field of every strategy has the category that the
    categorizer gives to its name; the categorizer is the ordered rule
    list, [BENEFIT] when no rule applies. A field of the context scanner
    is named "<keyword>_line_<N>" and categorized from the keyword; a field
    of the exhaustive scanner is named "amount_line_<N>" and is a
    [BENEFIT]. *)
Theorem category_is_categorize_of_name :
  (forall name, categorize_field name = categorize_by_rules name)
  /\ (forall self,
        exists ps cs xs,
          parse_with_patterns self = Ok ps
          /\ parse_context_aware self = Ok cs
          /\ parse_all_amounts self = Ok xs
          /\ (forall f, In f (ps ++ cs ++ xs) ->
                category f = categorize_field (field_name f))
          /\ (forall f, In f cs ->
                exists keyword n,
                  In keyword keywords
                  /\ field_name f = keyword ++ u"_line_" ++ PyStr.of_nat n
                  /\ category f = categorize_field keyword)
          /\ (forall f, In f xs ->
                exists n,
                  field_name f = u"amount_line_" ++ PyStr.of_nat n
                  /\ category f = BENEFIT))
  /\ (forall doc flag now,
        exists r s,
          parse (__init__ doc) flag now = Ok (r, s)
          /\ forall f, In f (parsed_fields s) ->
               category f = categorize_field (field_name f)).
Proof.
  assert (forall doc table f, In f (pattern_fields doc table) ->
            category f = categorize_field (field_name f)) as HP.
  { intros doc table f Hf. apply pattern_fields_inv in Hf.
    destruct Hf as (name & pats & [m v] & _ & _ & ->). reflexivity. }
  assert (forall i ls f, In f (context_candidates i ls) ->
            exists keyword n,
              In keyword keywords
              /\ field_name f = keyword ++ u"_line_" ++ PyStr.of_nat n
              /\ category f = categorize_field keyword) as HC.
  { intros i ls f Hf. apply context_candidates_inv in Hf.
    destruct Hf as (n & line & kw & v & _ & _ & Hk & -> & _).
    exists kw, n. auto. }
  assert (forall i ls f, In f (amount_candidates i ls) ->
            exists n,
              field_name f = u"amount_line_" ++ PyStr.of_nat n
              /\ category f = BENEFIT) as HA.
  { intros i ls f Hf. apply amount_candidates_inv in Hf.
    destruct Hf as (n & line & m & v & _ & _ & -> & _).
    exists n. auto. }
  assert (forall i ls f, In f (context_candidates i ls) ->
            category f = categorize_field (field_name f)) as HC'.
  { intros i ls f Hf. destruct (HC i ls f Hf) as (kw & n & _ & -> & ->).
    symmetry. apply categorize_field_line_name. }
  assert (forall i ls f, In f (amount_candidates i ls) ->
            category f = categorize_field (field_name f)) as HA'.
  { intros i ls f Hf. destruct (HA i ls f Hf) as (n & -> & ->).
    symmetry. apply categorize_amount_line. }
  split; [exact categorize_field_rules | ]. split.
  - intros self. eexists. eexists. eexists.
    split; [apply parse_with_patterns_spec | ].
    split; [apply parse_context_aware_spec | ].
    split; [apply parse_all_amounts_spec | ].
    split; [ | split].
    + intros f Hf. rewrite !in_app_iff, !filter_In in Hf.
      destruct Hf as [Hf | [[Hf _] | [Hf _]]]; eauto.
    + intros f Hf. apply filter_In in Hf. destruct Hf as [Hf _]. eauto.
    + intros f Hf. apply filter_In in Hf. destruct Hf as [Hf _]. eauto.
  - intros doc flag now.
    exists (parse_results (__init__ doc) flag now),
           (after_parse (__init__ doc) flag).
    split; [apply parse_spec | ].
    intros f Hf. apply (proj1 (after_parse_fields _ _ _)) in Hf.
    destruct Hf as [[] | [Hf | [Hf | Hf]]].
    + eapply HP. exact Hf.
    + apply round_context_candidates in Hf. destruct Hf as [Hf _]. eauto.
    + apply round_amounts_candidates in Hf. destruct Hf as [Hf _]. eauto.
Qed.

(** ** The pattern matcher: first match wins *)

Lemma match_at_start p pos s adv m :
  Re.match_at p pos s adv = Some m -> Re.m_start m = pos.
Proof.
  unfold Re.match_at. intros H.
  apply (@rmatch_groups _ (Re.p_ignorecase p) 0) in H.
  destruct H as (p' & s' & c' & H & _).
  destruct (adv && Nat.eqb p' pos); [discriminate | ].
  inversion H. reflexivity.
Qed.

Lemma scan_start_ge p : forall s pos skip m,
  In m (Re.scan p pos s skip) -> pos <= Re.m_start m.
Proof.
  induction s as [ | c s IH]; intros pos skip m H.
  - destruct skip; simpl in H; [ | contradiction].
    destruct (Re.match_at p pos [] false) as [m0 | ] eqn:E; [ | contradiction].
    apply match_at_start in E.
    destruct (Nat.eqb (Re.m_end m0) pos).
    + destruct H as [<- | H]; [lia | ].
      destruct (Re.match_at p pos [] true) as [m1 | ] eqn:E2;
        [ | contradiction].
      apply match_at_start in E2.
      destruct H as [<- | []]. lia.
    + destruct H as [<- | []]. lia.
  - destruct skip; simpl in H.
    + destruct (Re.match_at p pos (c :: s) false) as [m0 | ] eqn:E.
      * apply match_at_start in E.
        destruct (Nat.eqb (Re.m_end m0) pos).
        -- destruct H as [<- | H]; [lia | ].
           destruct (Re.match_at p pos (c :: s) true) as [m1 | ] eqn:E2.
           ++ apply match_at_start in E2.
              destruct H as [<- | H]; [lia | ]. apply IH in H. lia.
           ++ apply IH in H. lia.
        -- destruct H as [<- | H]; [lia | ]. apply IH in H. lia.
      * apply IH in H. lia.
    + apply IH in H. lia.
Qed.

Lemma scan_sorted p : forall s pos skip,
  StronglySorted starts_before (Re.scan p pos s skip).
Proof.
  assert (forall s pos skip m0,
            Re.m_start m0 = pos ->
            StronglySorted starts_before (Re.scan p (S pos) s skip) ->
            StronglySorted starts_before (m0 :: Re.scan p (S pos) s skip))
    as Hcons.
  { intros s pos skip m0 E S. constructor; [exact S | ].
    apply Forall_forall. intros x Hx. apply scan_start_ge in Hx.
    unfold starts_before. lia. }
  induction s as [ | c s IH]; intros pos skip.
  - destruct skip; simpl; [ | constructor].
    destruct (Re.match_at p pos [] false) as [m0 | ] eqn:E; [ | constructor].
    apply match_at_start in E.
    destruct (Nat.eqb (Re.m_end m0) pos).
    + destruct (Re.match_at p pos [] true) as [m1 | ] eqn:E2.
      * apply match_at_start in E2.
        repeat constructor. unfold starts_before. lia.
      * repeat constructor.
    + repeat constructor.
  - destruct skip; simpl; [ | apply IH].
    destruct (Re.match_at p pos (c :: s) false) as [m0 | ] eqn:E;
      [ | apply IH].
    apply match_at_start in E.
    destruct (Nat.eqb (Re.m_end m0) pos).
    + destruct (Re.match_at p pos (c :: s) true) as [m1 | ] eqn:E2.
      * apply match_at_start in E2.
        constructor.
        -- apply Hcons; [exact E2 | apply IH].
        -- constructor; [unfold starts_before; lia | ].
           apply Forall_forall. intros x Hx. apply scan_start_ge in Hx.
           unfold starts_before. lia.
      * apply Hcons; [exact E | apply IH].
    + apply Hcons; [exact E | apply IH].
Qed.

Lemma matches_in_order pattern text ic mb m ma :
  matches pattern text ic = mb ++ m :: ma ->
  forall x, In x mb -> Re.m_start x <= Re.m_start m.
Proof.
  unfold matches. destruct (Re.compile pattern ic) as [p | ].
  - intros E. pose proof (scan_sorted p text 0 0) as S.
    unfold Re.finditer in E. rewrite E in S. clear E.
    induction mb as [ | y mb IH]; intros x Hx; [contradiction | ].
    simpl in S. inversion S as [ | ? ? S' F]; subst.
    destruct Hx as [<- | Hx].
    + rewrite Forall_forall in F. apply F. apply in_or_app. right. left.
      reflexivity.
    + apply IH; assumption.
  - intros E. destruct mb; discriminate.
Qed.

Lemma first_parseable_Some text : forall ms m v,
  first_parseable text ms = Some (m, v) ->
  exists mb ma,
    ms = mb ++ m :: ma
    /\ (forall x, In x mb -> extract_number (capture text x) = None)
    /\ extract_number (capture text m) = Some v.
Proof.
  induction ms as [ | y ms IH]; intros m v H; simpl in H; [discriminate | ].
  destruct (extract_number (capture text y)) as [w | ] eqn:E.
  - inversion H; subst. exists [], ms.
    split; [reflexivity | ]. split; [intros x [] | exact E].
  - apply IH in H. destruct H as (mb & ma & -> & Hb & Hm).
    exists (y :: mb), ma. split; [reflexivity | ]. split; [ | exact Hm].
    intros x [<- | Hx]; auto.
Qed.

Lemma first_parseable_None text : forall ms,
  first_parseable text ms = None ->
  forall x, In x ms -> extract_number (capture text x) = None.
Proof.
  induction ms as [ | y ms IH]; intros H x Hx; simpl in *; [contradiction | ].
  destruct (extract_number (capture text y)) as [w | ] eqn:E;
    [discriminate | ].
  destruct Hx as [<- | Hx]; auto.
Qed.

Lemma first_pattern_hit_Some doc : forall patterns m v,
  first_pattern_hit doc patterns = Some (m, v) ->
  exists before pattern after mb ma,
    patterns = before ++ pattern :: after
    /\ (forall p, In p before -> no_parseable doc p)
    /\ matches pattern doc true = mb ++ m :: ma
    /\ (forall x, In x mb ->
          extract_number (capture doc x) = None
          /\ Re.m_start x <= Re.m_start m)
    /\ extract_number (capture doc m) = Some v.
Proof.
  induction patterns as [ | p ps IH]; intros m v H; simpl in H;
    [discriminate | ].
  destruct (first_parseable doc (matches p doc true)) as [[m0 v0] | ] eqn:E.
  - inversion H; subst. apply first_parseable_Some in E.
    destruct E as (mb & ma & E & Hb & Hm).
    exists [], p, ps, mb, ma.
    split; [reflexivity | ]. split; [intros q [] | ].
    split; [exact E | ]. split; [ | exact Hm].
    intros x Hx. split; [apply Hb; exact Hx | ].
    eapply matches_in_order; eassumption.
  - apply IH in H.
    destruct H as (before & q & after & mb & ma & -> & Hb & Hq & Hmb & Hm).
    exists (p :: before), q, after, mb, ma.
    split; [reflexivity | ]. split; [ | auto].
    intros p' [<- | Hp]; [ | auto].
    intros x Hx. eapply first_parseable_None; eassumption.
Qed.

Lemma first_pattern_hit_None doc : forall patterns,
  first_pattern_hit doc patterns = None ->
  forall p, In p patterns -> no_parseable doc p.
Proof.
  induction patterns as [ | q ps IH]; intros H p Hp; simpl in *;
    [contradiction | ].
  destruct (first_parseable doc (matches q doc true)) as [h | ] eqn:E;
    [discriminate | ].
  destruct Hp as [<- | Hp]; auto.
  intros x Hx. eapply first_parseable_None; eassumption.
Qed.

Lemma filter_named_entry doc entry name :
  filter (named name) (entry_fields doc entry)
  = if PyStr.eqb (fst entry) name then entry_fields doc entry else [].
Proof.
  unfold entry_fields.
  destruct (first_pattern_hit doc (snd entry)) as [[m v] | ]; simpl.
  - unfold named. simpl. destruct (PyStr.eqb (fst entry) name); reflexivity.
  - destruct (PyStr.eqb (fst entry) name); reflexivity.
Qed.

Lemma filter_named_absent doc name : forall table,
  ~ In name (map fst table) ->
  filter (named name) (pattern_fields doc table) = [].
Proof.
  induction table as [ | e table IH]; intros H; [reflexivity | ].
  change (pattern_fields doc (e :: table))
    with (entry_fields doc e ++ pattern_fields doc table).
  rewrite filter_app.
  rewrite filter_named_entry.
  destruct (PyStr.eqb (fst e) name) eqn:E.
  - apply str_eqb_eq in E. exfalso. apply H. left. exact E.
  - rewrite IH; [reflexivity | ]. intros Hin. apply H. right. exact Hin.
Qed.

Lemma filter_named_present doc name patterns : forall table,
  NoDup (map fst table) ->
  In (name, patterns) table ->
  filter (named name) (pattern_fields doc table)
  = entry_fields doc (name, patterns).
Proof.
  induction table as [ | e table IH]; intros N H; [contradiction | ].
  change (pattern_fields doc (e :: table))
    with (entry_fields doc e ++ pattern_fields doc table).
  rewrite filter_app.
  rewrite filter_named_entry. simpl in N. inversion N as [ | ? ? Hn Nt]; subst.
  destruct H as [-> | H].
  - simpl. rewrite str_eqb_refl.
    rewrite (@filter_named_absent doc name table Hn). apply app_nil_r.
  - destruct (PyStr.eqb (fst e) name) eqn:E.
    + apply str_eqb_eq in E. exfalso. apply Hn. rewrite E.
      change name with (fst (name, patterns)). apply in_map. exact H.
    + simpl. apply IH; assumption.
Qed.

Lemma str_eq_dec (a b : str) : {a = b} + {a <> b}.
Proof. apply list_eq_dec. apply N.eq_dec. Qed.

Lemma entry_fields_length doc entry :
  List.length (entry_fields doc entry) <= 1.
Proof.
  unfold entry_fields.
  destruct (first_pattern_hit doc (snd entry)); simpl; lia.
Qed.

Lemma filter_named_length doc table name :
  NoDup (map fst table) ->
  List.length (filter (named name) (pattern_fields doc table)) <= 1.
Proof.
  intros N. destruct (in_dec str_eq_dec name (map fst table)) as [H | H].
  - apply in_map_iff in H. destruct H as ([n pats] & E & H).
    simpl in E. subst n.
    rewrite (@filter_named_present doc name pats table N H).
    apply entry_fields_length.
  - rewrite filter_named_absent by exact H. simpl. lia.
Qed.

(** C3: the pattern matcher emits at most one field for each name of the
    table. For a name, it is the field of the first match with a number
    that parses (the first by position in the document) of the first
    pattern, in listed order, that has such a match; and there is no field
    when no pattern has one. *)
Theorem pattern_matcher_first_match_wins : forall self,
  exists fs,
    parse_with_patterns self = Ok fs
    /\ fs = pattern_fields (document_text self) FIELD_PATTERNS
    /\ (forall name, List.length (filter (named name) fs) <= 1)
    /\ forall name patterns,
         In (name, patterns) FIELD_PATTERNS ->
         (exists before pattern after mb m ma v,
             patterns = before ++ pattern :: after
             /\ (forall p, In p before ->
                   no_parseable (document_text self) p)
             /\ matches pattern (document_text self) true = mb ++ m :: ma
             /\ (forall x, In x mb ->
                   extract_number (capture (document_text self) x) = None
                   /\ Re.m_start x <= Re.m_start m)
             /\ extract_number (capture (document_text self) m) = Some v
             /\ filter (named name) fs
                = [pattern_field (document_text self) name (m, v)])
         \/ ((forall p, In p patterns ->
                no_parseable (document_text self) p)
             /\ filter (named name) fs = []).
Proof.
  intros self. eexists. split; [apply parse_with_patterns_spec | ].
  split; [reflexivity | ]. split.
  - intros name. apply filter_named_length. exact FIELD_PATTERNS_NoDup.
  - intros name patterns H.
    rewrite (@filter_named_present (document_text self) name patterns
               FIELD_PATTERNS FIELD_PATTERNS_NoDup H).
    unfold entry_fields. cbn [fst snd].
    destruct (first_pattern_hit (document_text self) patterns)
      as [[m v] | ] eqn:E.
    + left. apply first_pattern_hit_Some in E.
      destruct E as (before & p & after & mb & ma & E1 & E2 & E3 & E4 & E5).
      exists before, p, after, mb, m, ma, v.
      split; [exact E1 | ]. split; [exact E2 | ]. split; [exact E3 | ].
      split; [exact E4 | ]. split; [exact E5 | reflexivity].
    + right. split; [ | reflexivity].
      apply first_pattern_hit_None. exact E.
Qed.

(** ** Line numbers of the fields *)

(** C9: every field of every strategy has a line number, between 1 and
    the number of lines of the document. A field of the pattern matcher is
    made from a match of a pattern of its table entry in the document, the
    one the matcher chose, and its line number is one plus the number of
    newlines before the start of that match; the two scanners give the
    index, from 1, of the line they read. *)
Theorem line_numbers_in_range :
  (forall doc flag now,
     exists r s,
       parse (__init__ doc) flag now = Ok (r, s)
       /\ List.length (lines (__init__ doc)) = PyStr.count newline doc + 1
       /\ forall f, In f (parsed_fields s) ->
            exists n, line_number f = Some n
                      /\ 1 <= n <= List.length (lines (__init__ doc)))
  /\ (forall self,
        exists ps cs xs,
          parse_with_patterns self = Ok ps
          /\ parse_context_aware self = Ok cs
          /\ parse_all_amounts self = Ok xs
          /\ (forall f, In f ps ->
                exists name patterns pattern m v,
                  In (name, patterns) FIELD_PATTERNS
                  /\ In pattern patterns
                  /\ In m (matches pattern (document_text self) true)
                  /\ extract_number (capture (document_text self) m)
                     = Some v
                  /\ first_pattern_hit (document_text self) patterns
                     = Some (m, v)
                  /\ f = pattern_field (document_text self) name (m, v)
                  /\ line_number f
                     = Some (PyStr.count newline
                               (PyStr.slice (document_text self) 0
                                  (Re.m_start m)) + 1))
          /\ (forall f, In f (cs ++ xs) ->
                exists n line,
                  1 <= n /\ line_number f = Some n
                  /\ nth_error (lines self) (n - 1) = Some line
                  /\ context f = PyStr.strip line)).
Proof.
  assert (forall self f, In f (round_patterns self) ->
            exists name patterns pattern m v,
              In (name, patterns) FIELD_PATTERNS
              /\ In pattern patterns
              /\ In m (matches pattern (document_text self) true)
              /\ extract_number (capture (document_text self) m) = Some v
              /\ first_pattern_hit (document_text self) patterns
                 = Some (m, v)
              /\ f = pattern_field (document_text self) name (m, v)
              /\ line_number f
                 = Some (PyStr.count newline
                           (PyStr.slice (document_text self) 0
                              (Re.m_start m)) + 1)) as HP.
  { intros self f Hf. unfold round_patterns in Hf.
    apply pattern_fields_inv in Hf.
    destruct Hf as (name & pats & [m v] & Ht & Hh & ->).
    destruct (first_pattern_hit_Some _ _ Hh)
      as (before & pattern & after & mb & ma & -> & _ & Em & _ & Ev).
    exists name, (before ++ pattern :: after), pattern, m, v.
    split; [exact Ht | ].
    split; [apply in_or_app; right; left; reflexivity | ].
    split; [rewrite Em; apply in_or_app; right; left; reflexivity | ].
    split; [exact Ev | ]. split; [exact Hh | ].
    split; reflexivity. }
  split.
  - intros doc flag now.
    exists (parse_results (__init__ doc) flag now),
           (after_parse (__init__ doc) flag).
    split; [apply parse_spec | ].
    assert (List.length (lines (__init__ doc)) = PyStr.count newline doc + 1)
      as L by apply split_length.
    split; [exact L | ].
    intros f Hf. apply (proj1 (after_parse_fields _ _ _)) in Hf.
    destruct Hf as [[] | [Hf | Hf]].
    + destruct (HP _ f Hf) as (name & pats & pattern & m & v & _ & _ & _ & _
                               & _ & _ & E).
      eexists. split; [exact E | ].
      rewrite L.
      pose proof (count_slice_prefix newline doc (Re.m_start m)).
      cbn [document_text __init__]. lia.
    + assert (exists n line,
                1 <= n /\ line_number f = Some n
                /\ nth_error (lines (__init__ doc)) (n - 1) = Some line
                /\ context f = PyStr.strip line)
        as (n & line & Hn & En & Hl & _).
      { destruct Hf as [Hf | Hf].
        - apply round_context_candidates in Hf. destruct Hf as [Hf _].
          apply context_candidates_inv in Hf.
          destruct Hf as (n & line & kw & v & Hn & Hl & _ & -> & _).
          exists n, line. auto.
        - apply round_amounts_candidates in Hf. destruct Hf as [Hf _].
          apply amount_candidates_inv in Hf.
          destruct Hf as (n & line & m & v & Hn & Hl & -> & _).
          exists n, line. auto. }
      exists n. split; [exact En | ].
      apply nth_error_bound in Hl. lia.
  - intros self. eexists. eexists. eexists.
    split; [apply parse_with_patterns_spec | ].
    split; [apply parse_context_aware_spec | ].
    split; [apply parse_all_amounts_spec | ].
    split; [apply HP | ].
    intros f Hf. apply in_app_or in Hf. apply context_scanner_lines. exact Hf.
Qed.

(** ** Deduplication across strategies *)

Lemma covered_false existing i v f :
  covered existing i v = false ->
  In f existing -> line_number f = Some i ->
  near (value f) v = false.
Proof.
  unfold covered. intros C Hf L.
  destruct (near (value f) v) eqn:E; [ | reflexivity].
  assert (existsb (fun f0 => same_line f0 i && near (value f0) v) existing
          = true) as C'.
  { apply existsb_exists. exists f. split; [exact Hf | ].
    unfold same_line. rewrite L, Nat.eqb_refl, E. reflexivity. }
  congruence.
Qed.

Lemma covered_true existing i v f :
  In f existing -> line_number f = Some i -> near (value f) v = true ->
  covered existing i v = true.
Proof.
  intros Hf L E. unfold covered. apply existsb_exists. exists f.
  split; [exact Hf | ]. unfold same_line. rewrite L, Nat.eqb_refl, E.
  reflexivity.
Qed.

Lemma covered_mono e1 e2 i v :
  (forall f, In f e1 -> In f e2) ->
  covered e1 i v = true -> covered e2 i v = true.
Proof.
  unfold covered. intros S C. apply existsb_exists in C.
  destruct C as (f & Hf & C). apply existsb_exists. exists f. auto.
Qed.

Lemma fresh_mono e1 e2 g :
  (forall f, In f e1 -> In f e2) ->
  fresh e2 g = true -> fresh e1 g = true.
Proof.
  unfold fresh. intros S. destruct (line_number g) as [i | ]; [ | auto].
  intros F. apply negb_true_iff in F. apply negb_true_iff.
  destruct (covered e1 i (value g)) eqn:C; [ | reflexivity].
  apply (@covered_mono e1 e2 i (value g) S) in C. congruence.
Qed.

Lemma fresh_near existing g f i :
  fresh existing g = true ->
  In f existing -> line_number f = Some i -> line_number g = Some i ->
  near (value f) (value g) = false.
Proof.
  unfold fresh. intros F Hf Lf Lg. rewrite Lg in F.
  apply negb_true_iff in F. eapply covered_false; eassumption.
Qed.

Lemma rank_patterns doc table f :
  In f (pattern_fields doc table) -> strategy_rank f = 1.
Proof.
  intros H. apply pattern_fields_inv in H.
  destruct H as (name & pats & [m v] & _ & _ & ->). reflexivity.
Qed.

Lemma rank_context i ls f :
  In f (context_candidates i ls) -> strategy_rank f = 2.
Proof.
  intros H. apply context_candidates_inv in H.
  destruct H as (n & line & kw & v & _ & _ & _ & -> & _). reflexivity.
Qed.

Lemma rank_amounts i ls f :
  In f (amount_candidates i ls) -> strategy_rank f = 3.
Proof.
  intros H. apply amount_candidates_inv in H.
  destruct H as (n & line & m & v & _ & _ & -> & _). reflexivity.
Qed.

(** *** Finite and infinite values *)

Lemma finite_sub_self v :
  PrimFloat.is_finite v = true ->
  SF64sub (Prim2SF v) (Prim2SF v) = S754_zero false.
Proof.
  unfold PrimFloat.is_finite, Prim2SF. intros F.
  destruct (PrimFloat.is_nan v); [discriminate | ].
  destruct (PrimFloat.is_infinity v); [discriminate | ].
  destruct (PrimFloat.is_zero v).
  - destruct (PrimFloat.get_sign v); reflexivity.
  - destruct (Z.frexp v) as [r e].
    destruct (shr_fexp prec emax (Uint63.to_Z (normfr_mantissa r))
                (e - prec)%Z loc_Exact) as [shr e'].
    destruct (shr_m shr) as [ | m | m]; try reflexivity.
    unfold SF64sub, SFsub. rewrite Z.sub_diag. reflexivity.
Qed.

(** A finite value is within 0.01 of itself (an infinite one is not:
    the difference is not a number). *)
Lemma finite_near_self v :
  PrimFloat.is_finite v = true -> near v v = true.
Proof.
  intros F. unfold near, PyFloat.lt.
  rewrite ltb_spec, abs_spec, sub_spec, (finite_sub_self v F).
  vm_compute. reflexivity.
Qed.

Lemma infinity_not_near_self : near infinity infinity = false.
Proof. vm_compute. reflexivity. Qed.

(** C1, as the code has it: each scanner checks a candidate against the
    fields accumulated before its own pass began, with the test
    [abs(existing.value - value) < 0.01] on floats. So for a field of a
    scanner and a field on the same line that was there when the scanner
    started (in one call of [parse]: every field of an earlier strategy)
    the test is false, and the two never have the same finite value. The
    test is also false on two infinite values, whose difference is not a
    number: on [overflowing_document] the pattern matcher and the context
    scanner both emit infinity on line 1. *)
Theorem later_strategy_fields_are_new :
  (forall self,
     exists cs xs,
       parse_context_aware self = Ok cs
       /\ parse_all_amounts self = Ok xs
       /\ forall f g i,
            In f (parsed_fields self) -> In g (cs ++ xs) ->
            line_number f = Some i -> line_number g = Some i ->
            near (value f) (value g) = false
            /\ (PrimFloat.is_finite (value f) = true
                 \/ PrimFloat.is_finite (value g) = true ->
                 value f <> value g))
  /\ (forall doc flag now,
        exists r s,
          parse (__init__ doc) flag now = Ok (r, s)
          /\ forall f g i,
               In f (parsed_fields s) -> In g (parsed_fields s) ->
               strategy_rank f < strategy_rank g ->
               line_number f = Some i -> line_number g = Some i ->
               near (value f) (value g) = false
               /\ (PrimFloat.is_finite (value f) = true
                    \/ PrimFloat.is_finite (value g) = true ->
                    value f <> value g))
  /\ (exists r s f g,
        parse (__init__ overflowing_document) false [] = Ok (r, s)
        /\ In f (parsed_fields s) /\ In g (parsed_fields s)
        /\ strategy_rank f = 1 /\ strategy_rank g = 2
        /\ line_number f = Some 1 /\ line_number g = Some 1
        /\ value f = infinity /\ value g = infinity).
Proof.
  assert (forall a b : float,
            near a b = false ->
            near a b = false
            /\ (PrimFloat.is_finite a = true \/ PrimFloat.is_finite b = true ->
                 a <> b)) as Hnear.
  { intros a b N. split; [exact N | ].
    intros F E. subst b.
    assert (PrimFloat.is_finite a = true) as F' by (destruct F; assumption).
    rewrite (finite_near_self a F') in N. discriminate. }
  split; [ | split].
  - intros self. eexists. eexists.
    split; [apply parse_context_aware_spec | ].
    split; [apply parse_all_amounts_spec | ].
    intros f g i Hf Hg Lf Lg. apply Hnear. apply in_app_or in Hg.
    destruct Hg as [Hg | Hg]; apply filter_In in Hg; destruct Hg as [_ F];
      eapply fresh_near; eassumption.
  - intros doc flag now.
    exists (parse_results (__init__ doc) flag now),
           (after_parse (__init__ doc) flag).
    split; [apply parse_spec | ].
    intros f g i Hf Hg R Lf Lg. apply Hnear.
    apply (proj1 (after_parse_fields _ _ _)) in Hf.
    apply (proj1 (after_parse_fields _ _ _)) in Hg.
    destruct Hg as [[] | [Hg | [Hg | Hg]]].
    + unfold round_patterns in Hg. apply rank_patterns in Hg.
      destruct Hf as [[] | [Hf | [Hf | Hf]]].
      * unfold round_patterns in Hf. apply rank_patterns in Hf. lia.
      * apply round_context_candidates in Hf. destruct Hf as [Hf _].
        apply rank_context in Hf. lia.
      * apply round_amounts_candidates in Hf. destruct Hf as [Hf _].
        apply rank_amounts in Hf. lia.
    + apply round_context_candidates in Hg. destruct Hg as [Hg F].
      apply rank_context in Hg.
      destruct Hf as [[] | [Hf | [Hf | Hf]]].
      * eapply fresh_near; [exact F | | exact Lf | exact Lg].
        rewrite !in_app_iff. auto.
      * apply round_context_candidates in Hf. destruct Hf as [Hf _].
        apply rank_context in Hf. lia.
      * apply round_amounts_candidates in Hf. destruct Hf as [Hf _].
        apply rank_amounts in Hf. lia.
    + apply round_amounts_candidates in Hg. destruct Hg as [Hg F].
      apply rank_amounts in Hg.
      destruct Hf as [[] | [Hf | [Hf | Hf]]].
      * eapply fresh_near; [exact F | | exact Lf | exact Lg].
        rewrite !in_app_iff. auto.
      * eapply fresh_near; [exact F | | exact Lf | exact Lg].
        rewrite !in_app_iff. auto.
      * apply round_amounts_candidates in Hf. destruct Hf as [Hf _].
        apply rank_amounts in Hf. lia.
  - exists (parse_results (__init__ overflowing_document) false []),
           (after_parse (__init__ overflowing_document) false).
    assert (exists f g,
              nth_error (parsed_fields
                           (after_parse (__init__ overflowing_document)
                              false)) 0 = Some f
              /\ nth_error (parsed_fields
                              (after_parse (__init__ overflowing_document)
                                 false)) 1 = Some g
              /\ strategy_rank f = 1 /\ strategy_rank g = 2
              /\ line_number f = Some 1 /\ line_number g = Some 1
              /\ value f = infinity /\ value g = infinity)
      as (f & g & Ef & Eg & H).
    { vm_compute. eexists. eexists. repeat split; reflexivity. }
    exists f, g. split; [apply parse_spec | ].
    split; [eapply nth_error_In; exact Ef | ].
    split; [eapply nth_error_In; exact Eg | exact H].
Qed.

(** C1 as stated fails: on the one-line document "premium amount 500" the
    context scanner emits the amount once for the keyword "premium" and
    once for "amount", both on line 1 with the value 500. *)
Lemma shared_line_value_counterexample :
  ~ (forall doc flag now r s,
       parse (__init__ doc) flag now = Ok (r, s) ->
       no_shared_line_value (parsed_fields s)).
Proof.
  intros H.
  specialize (H (u"premium amount 500") false [] _ _ (parse_spec _ _ _)).
  assert (exists f g,
            nth_error (parsed_fields
                         (after_parse (__init__ (u"premium amount 500"))
                            false)) 0 = Some f
            /\ nth_error (parsed_fields
                            (after_parse (__init__ (u"premium amount 500"))
                               false)) 1 = Some g
            /\ line_number f = line_number g
            /\ near (value f) (value g) = true) as (f & g & Ef & Eg & L & N).
  { vm_compute. eexists. eexists.
    split; [reflexivity | ]. split; [reflexivity | ].
    split; reflexivity. }
  assert (0 <> 1) as D by discriminate.
  pose proof (H 0 1 f g D Ef Eg L). congruence.
Qed.

(** ** A second call of [parse] *)

Lemma filter_length_le {A : Type} (p q : A -> bool) : forall l,
  (forall x, In x l -> p x = true -> q x = true) ->
  List.length (filter p l) <= List.length (filter q l).
Proof.
  induction l as [ | x l IH]; intros H; simpl; [lia | ].
  assert (List.length (filter p l) <= List.length (filter q l)) as IH'.
  { apply IH. intros y Hy. apply H. right. exact Hy. }
  destruct (p x) eqn:P.
  - rewrite (H x (or_introl eq_refl) P). simpl. lia.
  - destruct (q x); simpl; lia.
Qed.

Lemma filter_none {A : Type} (p : A -> bool) : forall l,
  (forall x, In x l -> p x = false) -> filter p l = [].
Proof.
  induction l as [ | x l IH]; intros H; simpl; [reflexivity | ].
  rewrite (H x (or_introl eq_refl)). apply IH.
  intros y Hy. apply H. right. exact Hy.
Qed.

(** A candidate that the first round emitted, or found covered, is
    covered in the second round. *)
Lemma not_fresh_again e1 e2 g :
  (forall f, In f e1 -> In f e2) ->
  (exists i, line_number g = Some i) ->
  (fresh e1 g = true ->
   In g e2 /\ near (value g) (value g) = true) ->
  fresh e2 g = false.
Proof.
  intros S (i & L) E. unfold fresh in *. rewrite L in *.
  apply negb_false_iff.
  destruct (covered e1 i (value g)) eqn:C.
  - eapply covered_mono; eassumption.
  - destruct (E eq_refl) as [Hg N].
    eapply covered_true; [exact Hg | exact L | exact N].
Qed.

(** C2, as the code has it: a second call of [parse] appends the fields
    of the pattern matcher once more, and from the two scanners only the
    candidates that the accumulated list does not cover. The count grows
    by at least the pattern matches and at most doubles; when every
    accumulated value is finite, the scanners add nothing and the count
    grows by the pattern matches exactly. *)
Theorem second_parse_appends_patterns_only : forall doc flag now1 now2,
  exists r1 s1 r2 s2,
    parse (__init__ doc) flag now1 = Ok (r1, s1)
    /\ parse s1 flag now2 = Ok (r2, s2)
    /\ pattern_matches (metadata r2) = pattern_matches (metadata r1)
    /\ context_matches (metadata r2) <= context_matches (metadata r1)
    /\ total_fields_extracted (metadata r1) + pattern_matches (metadata r1)
       <= total_fields_extracted (metadata r2)
    /\ total_fields_extracted (metadata r2)
       <= 2 * total_fields_extracted (metadata r1)
    /\ ((forall f, In f (parsed_fields s1) ->
                   PrimFloat.is_finite (value f) = true) ->
        context_matches (metadata r2) = 0
        /\ total_fields_extracted (metadata r2)
           = total_fields_extracted (metadata r1)
             + pattern_matches (metadata r1)).
Proof.
  intros doc flag now1 now2.
  set (s0 := __init__ doc). set (s1 := after_parse s0 flag).
  exists (parse_results s0 flag now1), s1,
         (parse_results s1 flag now2), (after_parse s1 flag).
  split; [apply parse_spec | ]. split; [apply parse_spec | ].
  set (P := round_patterns s0).
  set (C1 := round_context s0). set (A1 := round_amounts s0 flag).
  set (C2 := round_context s1). set (A2 := round_amounts s1 flag).
  assert (round_patterns s1 = P) as EP by reflexivity.
  assert (forall f, In f (parsed_fields s1) <->
                    In f P \/ In f C1 \/ In f A1) as F1.
  { intros f. unfold s1. rewrite after_parse_fields.
    change (parsed_fields s0) with (@nil FinancialField).
    simpl In. tauto. }
  assert (List.length (parsed_fields s1)
          = List.length P + List.length C1 + List.length A1) as L1.
  { unfold s1, after_parse. cbn [parsed_fields].
    rewrite sort_length, !length_app. reflexivity. }
  assert (List.length (parsed_fields (after_parse s1 flag))
          = List.length (parsed_fields s1) + List.length P
            + List.length C2 + List.length A2) as L2.
  { unfold after_parse at 1. cbn [parsed_fields].
    rewrite sort_length, !length_app, EP. reflexivity. }
  assert (forall f, In f (parsed_fields s0 ++ P) ->
                    In f (parsed_fields s1 ++ round_patterns s1)) as S1.
  { intros f Hf. rewrite EP. apply in_app_or in Hf. apply in_or_app.
    destruct Hf as [[] | Hf]. right. exact Hf. }
  assert (forall f, In f ((parsed_fields s0 ++ P) ++ C1) ->
                    In f ((parsed_fields s1 ++ round_patterns s1) ++ C2))
    as S2.
  { intros f Hf. rewrite EP. apply in_or_app. left. apply in_or_app.
    apply in_app_or in Hf. destruct Hf as [Hf | Hf].
    - apply in_app_or in Hf. destruct Hf as [[] | Hf]. right. exact Hf.
    - left. apply F1. right. left. exact Hf. }
  assert (List.length C2 <= List.length C1) as LC.
  { apply filter_length_le. intros g _. apply fresh_mono. exact S1. }
  assert (List.length A2 <= List.length A1) as LA.
  { unfold A2, A1, round_amounts. destruct flag; [ | simpl; lia].
    apply filter_length_le. intros g _. apply fresh_mono. exact S2. }
  cbn [parse_results metadata total_fields_extracted pattern_matches
       context_matches].
  fold s1 P C1 C2. rewrite EP. fold P. rewrite L2.
  split; [reflexivity | ]. split; [exact LC | ].
  split; [lia | ]. split; [lia | ].
  intros N.
  assert (C2 = []) as EC.
  { apply filter_none. intros g Hg.
    apply not_fresh_again with (e1 := parsed_fields s0 ++ P).
    - exact S1.
    - apply context_candidates_inv in Hg.
      destruct Hg as (n & line & kw & v & _ & _ & _ & -> & _).
      exists n. reflexivity.
    - intros Fr.
      assert (In g (parsed_fields s1)) as H1.
      { apply F1. right. left. apply filter_In. split; assumption. }
      split; [apply in_or_app; left; exact H1 | apply finite_near_self, N; exact H1]. }
  assert (A2 = []) as EA.
  { unfold A2, round_amounts. destruct flag; [ | reflexivity].
    apply filter_none. intros g Hg.
    apply not_fresh_again with (e1 := (parsed_fields s0 ++ P) ++ C1).
    - exact S2.
    - apply amount_candidates_inv in Hg.
      destruct Hg as (n & line & m & v & _ & _ & -> & _).
      exists n. reflexivity.
    - intros Fr.
      assert (In g (parsed_fields s1)) as H1.
      { apply F1. right. right. unfold A1, round_amounts.
        apply filter_In. split; assumption. }
      split; [ | apply finite_near_self, N; exact H1].
      apply in_or_app. left. apply in_or_app. left. exact H1. }
  rewrite EC, EA. simpl. split; [reflexivity | lia].
Qed.

(** C2 as stated fails: on "premium amount 500" the first call gives two
    fields (both from the context scanner) and the second call adds
    none. *)
Lemma second_parse_counterexample : ~ second_parse_doubles.
Proof.
  intros H.
  specialize (H (u"premium amount 500") false [] [] _ _ _ _
                (parse_spec _ _ _) (parse_spec _ _ _)).
  vm_compute in H. discriminate.
Qed.

(** The theorem at a two-line document: three fields after the first call
    (one from a pattern, two from the context scanner), four after the
    second. *)
Lemma second_parse_witness :
  exists r1 s1 r2 s2,
    parse
      (__init__ (u"Annual Premium: Rs. 500" ++ newline :: u"premium amount 20"))
      true [] = Ok (r1, s1)
    /\ parse s1 true [] = Ok (r2, s2)
    /\ pattern_matches (metadata r1) = 1
    /\ total_fields_extracted (metadata r1) = 3
    /\ total_fields_extracted (metadata r2) = 4.
Proof.
  destruct (second_parse_appends_patterns_only
              (u"Annual Premium: Rs. 500" ++ newline :: u"premium amount 20")
              true [] [])
    as (r1 & s1 & r2 & s2 & P1 & P2 & _ & _ & _ & _ & Hc).
  exists r1, s1, r2, s2.
  split; [exact P1 | ]. split; [exact P2 | ].
  rewrite parse_spec in P1. injection P1 as E1 E2. subst r1 s1.
  destruct Hc as [_ Hc].
  - intros f Hf. vm_compute in Hf.
    repeat (destruct Hf as [<- | Hf]; [vm_compute; reflexivity | ]).
    destruct Hf.
  - rewrite Hc. vm_compute. repeat split; reflexivity.
Defined.

(* ================================================================== *)
(** * Further properties *)

(** ** The order of floats

    The comparisons of floats, read off the specification of the
    primitive ones: a lexicographic order on sign, exponent and mantissa,
    with the NaN comparable to nothing. *)

Lemma SFcompare_key a b :
  SFcompare a b
  = match sf_key a, sf_key b with
    | Some ka, Some kb => Some (key_compare ka kb)
    | _, _ => None
    end.
Proof.
  destruct a as [sa | sa | | sa ma ea], b as [sb | sb | | sb mb eb];
    try destruct sa; try destruct sb; cbn; try reflexivity.
  - rewrite Z.compare_opp. rewrite (Z.compare_antisym eb ea).
    rewrite Pos.compare_cont_spec.
    destruct (eb ?= ea)%Z; cbn; try reflexivity.
    destruct (ma ?= mb)%positive; reflexivity.
Qed.

Lemma key_compare_le a b :
  match key_compare a b with Lt | Eq => key_le a b | Gt => key_lt b a end.
Proof.
  destruct a as [[a1 a2] a3], b as [[b1 b2] b3]. cbn.
  destruct (Z.compare_spec a1 b1); try lia.
  destruct (Z.compare_spec a2 b2); try lia.
  destruct (Z.compare_spec a3 b3); lia.
Qed.

Lemma key_compare_lt a b :
  match key_compare a b with Lt => key_lt a b | Eq => a = b | Gt => key_lt b a end.
Proof.
  destruct a as [[a1 a2] a3], b as [[b1 b2] b3]. cbn.
  destruct (Z.compare_spec a1 b1); try lia.
  destruct (Z.compare_spec a2 b2); try lia.
  destruct (Z.compare_spec a3 b3); try lia. congruence.
Qed.

Lemma key_lt_irrefl a : ~ key_lt a a.
Proof. destruct a as [[a1 a2] a3]. cbn. lia. Qed.

Lemma key_lt_le a b : key_lt a b -> key_le a b.
Proof. destruct a as [[a1 a2] a3], b as [[b1 b2] b3]. cbn. lia. Qed.

Lemma key_le_lt a b : key_le a b -> key_lt b a -> False.
Proof. destruct a as [[a1 a2] a3], b as [[b1 b2] b3]. cbn. lia. Qed.

Lemma key_le_trans a b c : key_le a b -> key_le b c -> key_le a c.
Proof.
  destruct a as [[a1 a2] a3], b as [[b1 b2] b3], c as [[c1 c2] c3]. cbn. lia.
Qed.

Lemma key_le_refl a : key_le a a.
Proof. destruct a as [[a1 a2] a3]. cbn. lia. Qed.

(** [a <= b] on floats, by the keys. *)
Lemma leb_key a b :
  PrimFloat.leb a b = true <->
  exists ka kb, sf_key (Prim2SF a) = Some ka /\ sf_key (Prim2SF b) = Some kb
                /\ key_le ka kb.
Proof.
  rewrite leb_spec. unfold SFleb. rewrite SFcompare_key.
  destruct (sf_key (Prim2SF a)) as [ka | ], (sf_key (Prim2SF b)) as [kb | ].
  - pose proof (key_compare_le ka kb) as H.
    split.
    + intros E. exists ka, kb. repeat split.
      destruct (key_compare ka kb); [exact H | exact H | discriminate].
    + intros (ka' & kb' & [= <-] & [= <-] & L).
      destruct (key_compare ka kb); try reflexivity.
      exfalso. eapply key_le_lt; eassumption.
  - split; [discriminate | intros (? & ? & _ & [=] & _)].
  - split; [discriminate | intros (? & ? & [=] & _)].
  - split; [discriminate | intros (? & ? & [=] & _)].
Qed.

Lemma ltb_key a b :
  PrimFloat.ltb a b = true <->
  exists ka kb, sf_key (Prim2SF a) = Some ka /\ sf_key (Prim2SF b) = Some kb
                /\ key_lt ka kb.
Proof.
  rewrite ltb_spec. unfold SFltb. rewrite SFcompare_key.
  destruct (sf_key (Prim2SF a)) as [ka | ], (sf_key (Prim2SF b)) as [kb | ].
  - pose proof (key_compare_lt ka kb) as H.
    split.
    + intros E. exists ka, kb. repeat split.
      destruct (key_compare ka kb); [discriminate | exact H | discriminate].
    + intros (ka' & kb' & [= <-] & [= <-] & L).
      destruct (key_compare ka kb); try reflexivity.
      * subst kb. destruct (@key_lt_irrefl _ L).
      * exfalso. eapply key_le_lt; [apply key_lt_le | ]; eassumption.
  - split; [discriminate | intros (? & ? & _ & [=] & _)].
  - split; [discriminate | intros (? & ? & [=] & _)].
  - split; [discriminate | intros (? & ? & [=] & _)].
Qed.

(** A float that is a number (not a NaN) is below or equal to itself. *)
Lemma leb_refl_key a :
  PrimFloat.leb a a = true <-> exists ka, sf_key (Prim2SF a) = Some ka.
Proof.
  rewrite leb_key. split.
  - intros (ka & _ & H & _). eauto.
  - intros (ka & H). exists ka, ka. repeat split; auto. apply key_le_refl.
Qed.

Lemma leb_trans a b c :
  PrimFloat.leb a b = true -> PrimFloat.leb b c = true ->
  PrimFloat.leb a c = true.
Proof.
  rewrite !leb_key.
  intros (ka & kb & Ha & Hb & L1) (kb' & kc & Hb' & Hc & L2).
  rewrite Hb in Hb'. injection Hb' as <-.
  exists ka, kc. repeat split; auto. eapply key_le_trans; eassumption.
Qed.

Lemma ltb_leb a b : PrimFloat.ltb a b = true -> PrimFloat.leb a b = true.
Proof.
  rewrite ltb_key, leb_key. intros (ka & kb & Ha & Hb & L).
  exists ka, kb. repeat split; auto. apply key_lt_le. exact L.
Qed.

Lemma not_ltb_leb a b :
  PrimFloat.leb a a = true -> PrimFloat.leb b b = true ->
  PrimFloat.ltb a b = false -> PrimFloat.leb b a = true.
Proof.
  rewrite !leb_refl_key. intros (ka & Ha) (kb & Hb) N.
  apply leb_key. exists kb, ka. repeat split; auto.
  pose proof (key_compare_le kb ka) as H1.
  pose proof (key_compare_lt kb ka) as H2.
  destruct (key_compare kb ka); auto.
  exfalso. apply not_true_iff_false in N. apply N.
  apply ltb_key. exists ka, kb. auto.
Qed.

Lemma leb_not_ltb a b :
  PrimFloat.leb a b = true -> PrimFloat.ltb b a = false.
Proof.
  intros L. apply not_true_iff_false. intros H.
  apply leb_key in L. apply ltb_key in H.
  destruct L as (ka & kb & Ha & Hb & L), H as (kb' & ka' & Hb' & Ha' & H).
  rewrite Ha in Ha'. rewrite Hb in Hb'. injection Ha' as <-. injection Hb' as <-.
  eapply key_le_lt; eassumption.
Qed.

Lemma eqb_key a b :
  PrimFloat.eqb a b = true <->
  exists k, sf_key (Prim2SF a) = Some k /\ sf_key (Prim2SF b) = Some k.
Proof.
  rewrite eqb_spec. unfold SFeqb. rewrite SFcompare_key.
  destruct (sf_key (Prim2SF a)) as [ka | ], (sf_key (Prim2SF b)) as [kb | ].
  - pose proof (key_compare_lt ka kb) as H.
    split.
    + intros E. exists ka.
      destruct (key_compare ka kb); [subst; auto | discriminate | discriminate].
    + intros (k & E1 & E2). injection E1 as ->. injection E2 as ->.
      destruct (key_compare k k); try reflexivity;
        destruct (@key_lt_irrefl _ H).
  - split; [discriminate | intros (? & _ & [=])].
  - split; [discriminate | intros (? & [=] & _)].
  - split; [discriminate | intros (? & [=] & _)].
Qed.

(** Two floats that compare equal compare alike with a third. *)
Lemma eqb_ltb_false a b c :
  PrimFloat.eqb a c = true -> PrimFloat.ltb a b = true ->
  PrimFloat.eqb b c = false.
Proof.
  intros E L. apply not_true_iff_false. intros E'.
  apply eqb_key in E. apply eqb_key in E'. apply ltb_key in L.
  destruct E as (k & Ha & Hc), E' as (k' & Hb & Hc'), L as (ka & kb & Ha' & Hb' & L).
  rewrite Hc in Hc'. injection Hc' as <-.
  rewrite Ha in Ha'. rewrite Hb in Hb'. injection Ha' as <-. injection Hb' as <-.
  destruct (@key_lt_irrefl _ L).
Qed.

(** ** The matcher: the star

    The matcher bounds the rounds of a star by the length of the text.
    The bound is never what stops it: a round has to move forward, so the
    star is the greedy star, one more round and then the star again. *)

Section Star.
Variable R : Type.
Variable ic : bool.

Lemma ahead_refl pos s : ahead pos s pos s.
Proof. exists 0. rewrite Nat.add_0_r. simpl. auto with arith. Qed.

Lemma ahead_step pos c s p' s' :
  ahead (S pos) s p' s' -> ahead pos (c :: s) p' s'.
Proof.
  intros (d & Hd & -> & ->). exists (S d). simpl.
  repeat split; [lia | lia].
Qed.

Lemma ahead_trans pos s p1 s1 p2 s2 :
  ahead pos s p1 s1 -> ahead p1 s1 p2 s2 -> ahead pos s p2 s2.
Proof.
  intros (d1 & H1 & -> & ->) (d2 & H2 & -> & ->).
  rewrite length_skipn in H2.
  exists (d1 + d2). rewrite skipn_skipn.
  repeat split; [lia | lia | f_equal; lia].
Qed.

Lemma ahead_moved pos s p' s' :
  ahead pos s p' s' -> p' <> pos -> List.length s' < List.length s.
Proof.
  intros (d & Hd & -> & ->) N. rewrite length_skipn. lia.
Qed.

Lemma ahead_nil pos p' s' : ahead pos [] p' s' -> p' = pos.
Proof. intros (d & Hd & -> & _). simpl in Hd. lia. Qed.

(** The result of a match only depends on the continuation at the places
    it can be called at. *)
Lemma rmatch_ext : forall r pos s caps
    (k1 k2 : nat -> str -> Re.captures -> option R),
  (forall p' s' c', ahead pos s p' s' -> k1 p' s' c' = k2 p' s' c') ->
  Re.rmatch ic r pos s caps k1 = Re.rmatch ic r pos s caps k2.
Proof.
  induction r as [ | c | neg items | r1 IH1 r2 IH2 | r1 IH1 r2 IH2
                 | r1 IH1 | g r1 IH1 ];
    intros pos s caps k1 k2 H; cbn [Re.rmatch].
  - apply H. apply ahead_refl.
  - destruct s as [ | c0 s']; [reflexivity | ].
    destruct (Re.lit_match ic c c0); [ | reflexivity].
    apply H. apply ahead_step. apply ahead_refl.
  - destruct s as [ | c0 s']; [reflexivity | ].
    destruct (Re.set_match ic neg items c0); [ | reflexivity].
    apply H. apply ahead_step. apply ahead_refl.
  - apply IH1. intros p1 s1 c1 H1. apply IH2. intros p2 s2 c2 H2.
    apply H. eapply ahead_trans; eassumption.
  - rewrite (IH1 pos s caps k1 k2 H), (IH2 pos s caps k1 k2 H). reflexivity.
  - generalize (List.length s) as n. intros n. revert pos s caps H.
    induction n as [ | n IHn]; intros pos s caps H.
    + apply H. apply ahead_refl.
    + rewrite (H pos s caps (ahead_refl pos s)).
      match goal with
      | |- match ?a with _ => _ end = match ?b with _ => _ end =>
          replace a with b; [reflexivity | ]
      end.
      apply IH1. intros p1 s1 c1 H1.
      destruct (Nat.eqb p1 pos); [reflexivity | ].
      symmetry. apply IHn. intros p2 s2 c2 H2.
      apply H. eapply ahead_trans; eassumption.
  - apply IH1. intros p1 s1 c1 H1. apply H. exact H1.
Qed.

Lemma rmatch_fail r pos s caps :
  Re.rmatch ic r pos s caps (fun _ _ _ => @None R) = None.
Proof.
  revert pos s caps.
  induction r as [ | c | neg items | r1 IH1 r2 IH2 | r1 IH1 r2 IH2
                 | r1 IH1 | g r1 IH1 ];
    intros pos s caps; cbn [Re.rmatch].
  - reflexivity.
  - destruct s as [ | c0 s']; [reflexivity | ].
    destruct (Re.lit_match ic c c0); reflexivity.
  - destruct s as [ | c0 s']; [reflexivity | ].
    destruct (Re.set_match ic neg items c0); reflexivity.
  - rewrite <- (IH1 pos s caps) at 1. apply rmatch_ext.
    intros p1 s1 c1 _. apply IH2.
  - rewrite IH1, IH2. reflexivity.
  - generalize (List.length s) as n. intros n. revert pos s caps.
    induction n as [ | n IHn]; intros pos s caps; [reflexivity | ].
    match goal with
    | |- match ?a with _ => _ end = _ =>
        replace a with (@None R); [reflexivity | ]
    end.
    rewrite <- (IH1 pos s caps) at 1. apply rmatch_ext.
    intros p1 s1 c1 _. destruct (Nat.eqb p1 pos); [reflexivity | symmetry; apply IHn].
  - rewrite <- (IH1 pos s caps) at 1. apply rmatch_ext.
    intros p1 s1 c1 _. reflexivity.
Qed.

Variable r : Re.regex.
Variable k : nat -> str -> Re.captures -> option R.

Lemma star_is_rounds pos s caps :
  Re.rmatch ic (Re.Star r) pos s caps k
  = star_rounds ic r k (List.length s) pos s caps.
Proof. reflexivity. Qed.

(** Any number of rounds that the text allows gives the same result. *)
Lemma star_rounds_enough : forall n m pos s caps,
  List.length s <= n -> List.length s <= m ->
  star_rounds ic r k n pos s caps = star_rounds ic r k m pos s caps.
Proof.
  assert (forall n pos caps, star_rounds ic r k n pos [] caps = k pos [] caps)
    as Hnil.
  { intros n pos caps. destruct n; [reflexivity | ]. cbn [star_rounds].
    match goal with
    | |- match ?a with _ => _ end = _ =>
        replace a with (@None R); [reflexivity | ]
    end.
    symmetry. etransitivity; [ | apply (rmatch_fail r pos [] caps)].
    apply rmatch_ext.
    intros p1 s1 c1 H1. apply ahead_nil in H1. subst p1.
    rewrite Nat.eqb_refl. reflexivity. }
  induction n as [ | n IHn]; intros m pos s caps Hn Hm.
  - destruct s; [ | simpl in Hn; lia]. rewrite !Hnil. reflexivity.
  - destruct m as [ | m].
    + destruct s; [ | simpl in Hm; lia]. rewrite !Hnil. reflexivity.
    + cbn [star_rounds].
      match goal with
      | |- match ?a with _ => _ end = match ?b with _ => _ end =>
          replace a with b; [reflexivity | ]
      end.
      apply rmatch_ext. intros p1 s1 c1 H1.
      destruct (Nat.eqb p1 pos) eqn:E; [reflexivity | ].
      apply Nat.eqb_neq in E. pose proof (ahead_moved H1 E).
      symmetry. apply IHn; lia.
Qed.

(** The star is the greedy star: one more round that moves forward, then
    the star again; failing that, the rest of the pattern. *)
Lemma star_unfold pos s caps :
  Re.rmatch ic (Re.Star r) pos s caps k
  = match Re.rmatch ic r pos s caps
            (fun p' s' c' =>
               if Nat.eqb p' pos then None
               else Re.rmatch ic (Re.Star r) p' s' c' k)
    with
    | Some x => Some x
    | None => k pos s caps
    end.
Proof.
  rewrite star_is_rounds.
  rewrite (@star_rounds_enough (List.length s) (S (List.length s)) pos s caps)
    by lia.
  cbn [star_rounds].
  match goal with
  | |- match ?a with _ => _ end = match ?b with _ => _ end =>
      replace a with b; [reflexivity | ]
  end.
  apply rmatch_ext. intros p1 s1 c1 H1.
  destruct (Nat.eqb p1 pos) eqn:E; [reflexivity | ].
  apply Nat.eqb_neq in E. pose proof (ahead_moved H1 E).
  rewrite star_is_rounds. apply star_rounds_enough; lia.
Qed.

End Star.

(** ** The states of a parser

    What holds of the fields a parser has accumulated, whatever calls of
    [parse] it went through: each comes from one of the three strategies
    run on the document. *)

Lemma Ok_inj (A : Type) (a b : A) : Ok a = Ok b -> a = b.
Proof. intros H. inversion H. reflexivity. Qed.

Lemma reached_after_parse doc s flag :
  reached doc s -> reached doc (after_parse s flag).
Proof.
  intros R.
  apply (@reached_parse doc s flag [] (parse_results s flag []) _ R).
  apply parse_spec.
Qed.

Lemma sample_reached : reached sample_document sample_parsed.
Proof. apply reached_after_parse. apply reached_init. Qed.

Lemma score_cases name v ctx :
  exists b1 b2,
    score name v ctx
    = score_of b1 b2 (PyFloat.gt v 0) (has_grouped_number ctx).
Proof.
  unfold score, calculate_confidence, re_search, has_grouped_number.
  destruct (Re.compile grouped_number_pattern false) as [p | ] eqn:E;
    [ | vm_compute in E; discriminate].
  cbn [bind fold_left].
  exists (PyStr.contains (u"₹") ctx || PyStr.contains (u"Rs") ctx),
    (PyStr.contains (PyStr.replace 95%N 32%N (PyStr.lower name))
       (PyStr.lower ctx)).
  destruct (PyStr.contains (u"₹") ctx || PyStr.contains (u"Rs") ctx);
    destruct (PyStr.contains (PyStr.replace 95%N 32%N (PyStr.lower name))
                (PyStr.lower ctx));
    destruct (PyFloat.gt v 0);
    destruct (is_some (Re.search p ctx)); reflexivity.
Qed.

Lemma reached_inv doc s :
  reached doc s ->
  document_text s = doc
  /\ lines s = PyStr.split newline doc
  /\ forall f, In f (parsed_fields s) -> origin doc f.
Proof.
  induction 1 as [ | s flag now r s' R (D & L & F) P].
  - unfold __init__; cbn [document_text lines parsed_fields].
    repeat split. intros f [].
  - rewrite parse_spec in P. injection P as _ <-.
    unfold after_parse at 1 2; cbn [document_text lines].
    split; [exact D | ]. split; [exact L | ].
    intros f Hf. apply (proj1 (after_parse_fields _ _ _)) in Hf.
    destruct Hf as [Hf | [Hf | [Hf | Hf]]].
    + apply F. exact Hf.
    + left. unfold round_patterns in Hf. rewrite D in Hf. exact Hf.
    + apply round_context_candidates in Hf. destruct Hf as [Hf _].
      right; left. rewrite L in Hf. exact Hf.
    + apply round_amounts_candidates in Hf. destruct Hf as [Hf _].
      right; right. rewrite L in Hf. exact Hf.
Qed.

(** The confidence of a field, by its strategy. *)
Lemma origin_confidence doc f :
  origin doc f ->
  (method_is (u"pattern_matching") f
   /\ exists b1 b2 b3 b4, confidence f = score_of b1 b2 b3 b4)
  \/ (method_is (u"context_aware") f
      /\ exists b1 b2 b4,
           confidence f = (score_of b1 b2 true b4 * 0.8)%float)
  \/ (method_is (u"all_amounts") f /\ confidence f = 0.5%float).
Proof.
  intros [H | [H | H]].
  - left. apply pattern_fields_inv in H.
    destruct H as (name & patterns & [m v] & _ & _ & ->).
    unfold method_is, pattern_field; cbn [extraction_method confidence].
    split; [reflexivity | ].
    destruct (score_cases name v
                (PyStr.replace newline 32%N
                   (PyStr.slice doc (Nat.max 0 (Re.m_start m - 50))
                      (Nat.min (List.length doc) (Re.m_end m + 50)))))
      as (b1 & b2 & E).
    exists b1, b2, (PyFloat.gt v 0), (has_grouped_number
                (PyStr.replace newline 32%N
                   (PyStr.slice doc (Nat.max 0 (Re.m_start m - 50))
                      (Nat.min (List.length doc) (Re.m_end m + 50))))).
    exact E.
  - right; left. apply context_candidates_inv in H.
    destruct H as (n & line & keyword & v & _ & _ & _ & -> & _ & G).
    unfold method_is, context_field; cbn [extraction_method confidence].
    split; [reflexivity | ].
    destruct (score_cases (keyword ++ u"_line_" ++ PyStr.of_nat n) v line)
      as (b1 & b2 & E).
    exists b1, b2, (has_grouped_number line). rewrite E, G. reflexivity.
  - right; right. apply amount_candidates_inv in H.
    destruct H as (n & line & m & v & _ & _ & -> & _).
    unfold method_is, amount_field; cbn [extraction_method confidence].
    split; reflexivity.
Qed.

Lemma origin_confidence_range doc f :
  origin doc f ->
  PrimFloat.leb 0.4 (confidence f) = true
  /\ PrimFloat.leb (confidence f) 1 = true.
Proof.
  intros H. apply origin_confidence in H.
  destruct H as [(_ & b1 & b2 & b3 & b4 & ->)
                | [(_ & b1 & b2 & b4 & ->) | (_ & ->)]].
  - destruct b1, b2, b3, b4; split; reflexivity.
  - destruct b1, b2, b4; split; reflexivity.
  - split; reflexivity.
Qed.

Lemma origin_confidence_number doc f :
  origin doc f -> PrimFloat.leb (confidence f) (confidence f) = true.
Proof.
  intros H. apply origin_confidence_range in H. destruct H as [H1 H2].
  apply leb_refl_key. apply leb_key in H2.
  destruct H2 as (ka & _ & Ha & _). eauto.
Qed.

(** ** The sort *)

Lemma insert_sorted x : forall l,
  PrimFloat.leb (confidence x) (confidence x) = true ->
  Forall (fun f => PrimFloat.leb (confidence f) (confidence f) = true) l ->
  StronglySorted by_confidence l ->
  StronglySorted by_confidence (insert_by_confidence x l).
Proof.
  intros l Nx. induction l as [ | y l IH]; intros Nl S; cbn [insert_by_confidence].
  - constructor; constructor.
  - inversion Nl as [ | ? ? Ny Nl']; subst.
    inversion S as [ | ? ? S' Fy]; subst.
    unfold PyFloat.lt. destruct (PrimFloat.ltb (confidence x) (confidence y)) eqn:E.
    + constructor; [apply IH; assumption | ].
      apply Forall_forall. intros z Hz. apply insert_In in Hz.
      destruct Hz as [-> | Hz].
      * apply ltb_leb. exact E.
      * rewrite Forall_forall in Fy. apply Fy. exact Hz.
    + assert (by_confidence x y) as Hxy
        by (apply not_ltb_leb; assumption).
      constructor; [exact S | ].
      constructor; [exact Hxy | ].
      apply Forall_forall. intros z Hz.
      rewrite Forall_forall in Fy. unfold by_confidence in *.
      eapply leb_trans; [apply Fy; exact Hz | exact Hxy].
Qed.

Lemma sort_sorted : forall l,
  Forall (fun f => PrimFloat.leb (confidence f) (confidence f) = true) l ->
  StronglySorted by_confidence (sort_by_confidence l).
Proof.
  induction l as [ | x l IH]; intros N.
  - constructor.
  - inversion N as [ | ? ? Nx Nl]; subst.
    cbn [sort_by_confidence fold_right].
    apply insert_sorted; [exact Nx | | apply IH; exact Nl].
    apply Forall_forall. intros z Hz.
    apply (proj1 (sort_In z l)) in Hz.
    rewrite Forall_forall in Nl. apply Nl. exact Hz.
Qed.

Lemma insert_perm x : forall l, Permutation (insert_by_confidence x l) (x :: l).
Proof.
  induction l as [ | y l IH]; cbn [insert_by_confidence].
  - apply Permutation_refl.
  - destruct (PyFloat.lt (confidence x) (confidence y)).
    + eapply perm_trans; [apply perm_skip; exact IH | apply perm_swap].
    + apply Permutation_refl.
Qed.

Lemma sort_perm : forall l, Permutation (sort_by_confidence l) l.
Proof.
  induction l as [ | x l IH]; [apply Permutation_refl | ].
  cbn [sort_by_confidence fold_right].
  eapply perm_trans; [apply insert_perm | apply perm_skip; exact IH].
Qed.

Lemma insert_stable c x : forall l,
  filter (with_confidence c) (insert_by_confidence x l)
  = filter (with_confidence c) (x :: l).
Proof.
  induction l as [ | y l IH]; cbn [insert_by_confidence]; [reflexivity | ].
  unfold PyFloat.lt.
  destruct (PrimFloat.ltb (confidence x) (confidence y)) eqn:E;
    [ | reflexivity].
  cbn [filter] in *. rewrite IH.
  destruct (with_confidence c x) eqn:Ex; [ | reflexivity].
  unfold with_confidence in *.
  rewrite (eqb_ltb_false Ex E). reflexivity.
Qed.

Lemma sort_stable c : forall l,
  filter (with_confidence c) (sort_by_confidence l)
  = filter (with_confidence c) l.
Proof.
  induction l as [ | x l IH]; [reflexivity | ].
  cbn [sort_by_confidence fold_right]. rewrite insert_stable.
  cbn [filter]. fold (sort_by_confidence l). rewrite IH. reflexivity.
Qed.

(** ** Dictionaries and counts *)

(** *** Dictionaries *)

Lemma str_eqb_sym a b : PyStr.eqb a b = PyStr.eqb b a.
Proof.
  destruct (PyStr.eqb a b) eqn:E.
  - apply str_eqb_eq in E. subst. symmetry. apply str_eqb_refl.
  - symmetry. apply not_true_iff_false. intros H. apply str_eqb_eq in H.
    subst. rewrite str_eqb_refl in E. discriminate.
Qed.

Lemma dict_get_set {V : Type} (k : str) (v : V) k' x : forall d,
  dict_get (dict_set d k v) k' x
  = if PyStr.eqb k' k then v else dict_get d k' x.
Proof.
  induction d as [ | [k0 v0] d IH]; cbn [dict_set dict_get].
  - reflexivity.
  - destruct (PyStr.eqb k k0) eqn:E; cbn [dict_get].
    + apply str_eqb_eq in E. subst k0.
      destruct (PyStr.eqb k' k); reflexivity.
    + rewrite IH. destruct (PyStr.eqb k' k0) eqn:E0; [ | reflexivity].
      destruct (PyStr.eqb k' k) eqn:E1; [ | reflexivity].
      apply str_eqb_eq in E0, E1. subst. rewrite str_eqb_refl in E.
      discriminate.
Qed.

Lemma dict_set_keys {V : Type} (k : str) (v : V) : forall d,
  map fst (dict_set d k v)
  = if existsb (PyStr.eqb k) (map fst d) then map fst d
    else map fst d ++ [k].
Proof.
  induction d as [ | [k0 v0] d IH]; cbn [dict_set map existsb fst app].
  - reflexivity.
  - destruct (PyStr.eqb k k0); cbn [map fst orb]; [reflexivity | ].
    rewrite IH. destruct (existsb (PyStr.eqb k) (map fst d)); reflexivity.
Qed.

Lemma existsb_eqb_In k (l : list str) :
  existsb (PyStr.eqb k) l = true <-> In k l.
Proof.
  rewrite existsb_exists. split.
  - intros (x & Hx & E). apply str_eqb_eq in E. subst. exact Hx.
  - intros H. exists k. split; [exact H | apply str_eqb_refl].
Qed.

Lemma dict_set_sum (k : str) : forall d : dict nat,
  list_sum (map snd (dict_set d k (dict_get d k 0 + 1)))
  = S (list_sum (map snd d)).
Proof.
  unfold list_sum.
  induction d as [ | [k0 v0] d IH]; cbn [dict_set dict_get].
  - reflexivity.
  - destruct (PyStr.eqb k k0); cbn [map snd fold_right].
    + lia.
    + rewrite IH. lia.
Qed.

(** *** Counting by key *)

Lemma tally_get key k : forall fs d,
  dict_get (fold_left (tally key) fs d) k 0
  = dict_get d k 0
    + List.length (filter (fun f => PyStr.eqb k (key f)) fs).
Proof.
  induction fs as [ | f fs IH]; intros d; cbn [fold_left filter].
  - cbn. lia.
  - rewrite IH. unfold tally. rewrite dict_get_set.
    destruct (PyStr.eqb k (key f)) eqn:E; cbn [List.length]; [ | lia].
    apply str_eqb_eq in E. subst k. lia.
Qed.

Lemma tally_keys key k : forall fs d,
  In k (map fst (fold_left (tally key) fs d))
  <-> In k (map fst d) \/ exists f, In f fs /\ key f = k.
Proof.
  induction fs as [ | f fs IH]; intros d; cbn [fold_left].
  - split; [auto | intros [H | (f & [] & _)]; exact H].
  - rewrite IH. unfold tally. rewrite dict_set_keys.
    destruct (existsb (PyStr.eqb (key f)) (map fst d)) eqn:E.
    + apply existsb_eqb_In in E. split.
      * intros [H | (g & Hg & Eg)]; [auto | right; exists g; cbn; auto].
      * intros [H | (g & [<- | Hg] & Eg)]; [auto | subst; auto | ].
        right. exists g. auto.
    + rewrite in_app_iff. cbn [In]. split.
      * intros [[H | [<- | []]] | (g & Hg & Eg)]; [auto | | ].
        -- right. exists f. cbn. auto.
        -- right. exists g. cbn. auto.
      * intros [H | (g & [<- | Hg] & Eg)]; [auto | auto | ].
        right. exists g. auto.
Qed.

Lemma tally_NoDup key : forall fs d,
  NoDup (map fst d) -> NoDup (map fst (fold_left (tally key) fs d)).
Proof.
  induction fs as [ | f fs IH]; intros d N; cbn [fold_left]; [exact N | ].
  apply IH. unfold tally. rewrite dict_set_keys.
  destruct (existsb (PyStr.eqb (key f)) (map fst d)) eqn:E; [exact N | ].
  apply NoDup_app; [exact N | constructor; [intros [] | constructor] | ].
  intros x Hx [<- | []].
  apply existsb_eqb_In in Hx. rewrite Hx in E. discriminate.
Qed.

Lemma tally_sum key : forall fs d,
  list_sum (map snd (fold_left (tally key) fs d))
  = list_sum (map snd d) + List.length fs.
Proof.
  induction fs as [ | f fs IH]; intros d; cbn [fold_left List.length].
  - lia.
  - rewrite IH. unfold tally. rewrite dict_set_sum. lia.
Qed.

(** *** The two counts of the summary *)

Lemma summary_step_by_category s f :
  by_category (summary_step s f) = tally category_key (by_category s) f.
Proof.
  unfold summary_step, tally, category_key.
  destruct (category f); cbn [category_eqb andb];
    destruct (PyFloat.ge (confidence f) 0.7); reflexivity.
Qed.

Lemma summary_step_by_currency s f :
  by_currency (summary_step s f) = tally currency (by_currency s) f.
Proof.
  unfold summary_step, tally.
  destruct (category f); cbn [category_eqb andb];
    destruct (PyFloat.ge (confidence f) 0.7); reflexivity.
Qed.

Lemma summary_fold_counts : forall fs s,
  by_category (fold_left summary_step fs s)
  = fold_left (tally category_key) fs (by_category s)
  /\ by_currency (fold_left summary_step fs s)
     = fold_left (tally currency) fs (by_currency s).
Proof.
  induction fs as [ | f fs IH]; intros s; cbn [fold_left].
  - split; reflexivity.
  - destruct (IH (summary_step s f)) as [C1 C2]. rewrite C1, C2.
    rewrite summary_step_by_category, summary_step_by_currency.
    split; reflexivity.
Qed.

Lemma category_value_eqb a b :
  PyStr.eqb (category_value a) (category_value b) = category_eqb b a.
Proof. destruct a, b; reflexivity. Qed.

Lemma category_eqb_eq a b : category_eqb a b = true <-> a = b.
Proof. destruct a, b; cbn; split; intros H; try reflexivity; discriminate. Qed.

(** The strategies of one call, each on the state [parse] runs it on. *)
Lemma parse_rounds self flag :
  parse_with_patterns self = Ok (round_patterns self)
  /\ parse_context_aware (extend self (round_patterns self))
     = Ok (round_context self)
  /\ (if flag : bool then
        parse_all_amounts
          (extend (extend self (round_patterns self)) (round_context self))
        = Ok (round_amounts self flag)
      else round_amounts self flag = []).
Proof.
  split; [apply parse_with_patterns_spec | ].
  split; [rewrite parse_context_aware_spec; reflexivity | ].
  destruct flag; [ | reflexivity].
  rewrite parse_all_amounts_spec. reflexivity.
Qed.

Lemma reached_number doc s :
  reached doc s ->
  Forall (fun f => PrimFloat.leb (confidence f) (confidence f) = true)
    (parsed_fields s).
Proof.
  intros R. apply Forall_forall. intros f Hf.
  apply (@origin_confidence_number doc).
  apply (reached_inv R). exact Hf.
Qed.

Lemma reached_sorted doc s :
  reached doc s -> StronglySorted by_confidence (parsed_fields s).
Proof.
  intros R. pose proof (reached_number R) as N.
  destruct R as [ | s flag now r s' R P].
  - constructor.
  - rewrite parse_spec in P. injection P as _ <-.
    unfold after_parse in *. cbn [parsed_fields] in *.
    apply sort_sorted. apply Forall_forall. intros f Hf.
    rewrite Forall_forall in N. apply N.
    apply (proj2 (sort_In f _)). exact Hf.
Qed.

(** ** The order of the result *)

(** X1: whatever calls of [parse] came before on a parser, a call leaves
    the accumulated fields in order of confidence, the largest first (every
    field is followed only by fields of the same or a smaller confidence),
    and the [fields] of the result are these fields in that order. *)
Theorem parse_orders_by_confidence : forall doc s flag now,
  reached doc s ->
  exists r s',
    parse s flag now = Ok (r, s')
    /\ fields r = map to_dict (parsed_fields s')
    /\ StronglySorted by_confidence (parsed_fields s').
Proof.
  intros doc s flag now R.
  exists (parse_results s flag now), (after_parse s flag).
  pose proof (parse_spec s flag now) as P.
  pose proof (@reached_parse _ _ _ _ _ _ R P) as R'.
  split; [exact P | ]. split; [reflexivity | ].
  apply (reached_sorted R').
Qed.

Lemma parse_orders_by_confidence_witness :
  reached sample_document sample_parsed
  /\ exists r s',
       parse sample_parsed true [] = Ok (r, s')
       /\ fields r = map to_dict (parsed_fields s')
       /\ StronglySorted by_confidence (parsed_fields s')
       /\ map field_name (parsed_fields s')
          = [u"annual_premium"; u"annual_premium"; u"claim_line_3";
             u"fee_line_3"; u"premium_line_4"; u"amount_line_5"]
       /\ map confidence (parsed_fields s')
          = [1; 1; 0.55999999999999994; 0.55999999999999994;
             0.55999999999999994; 0.5]%float.
Proof.
  split; [exact sample_reached | ].
  destruct (@parse_orders_by_confidence sample_document sample_parsed true []
              sample_reached) as (r & s' & P & F & S).
  exists r, s'. split; [exact P | ]. split; [exact F | ].
  split; [exact S | ].
  pose proof (Ok_inj (eq_trans (eq_sym P) (parse_spec _ _ _))) as E.
  assert (s' = after_parse sample_parsed true) as Es
    by exact (f_equal snd E).
  rewrite Es.
  vm_compute. split; reflexivity.
Defined.

(** X2: a call of [parse] loses and invents nothing, and its sort is
    stable: the fields after the call are a rearrangement of the fields
    before it followed by the results of the pattern matcher, of the
    context scanner and (when asked for) of the exhaustive scanner, each
    run on the list as the strategies before it left it; and the fields
    of any one confidence stand in the order of that list. *)
Theorem parse_sort_is_stable : forall doc s flag now,
  reached doc s ->
  exists r s' ps cs xs,
    parse s flag now = Ok (r, s')
    /\ parse_with_patterns s = Ok ps
    /\ parse_context_aware (extend s ps) = Ok cs
    /\ (if flag then parse_all_amounts (extend (extend s ps) cs) = Ok xs
        else xs = [])
    /\ Permutation (parsed_fields s') (((parsed_fields s ++ ps) ++ cs) ++ xs)
    /\ forall c,
         filter (with_confidence c) (parsed_fields s')
         = filter (with_confidence c)
             (((parsed_fields s ++ ps) ++ cs) ++ xs).
Proof.
  intros doc s flag now R.
  exists (parse_results s flag now), (after_parse s flag),
    (round_patterns s), (round_context s), (round_amounts s flag).
  destruct (parse_rounds s flag) as (P1 & P2 & P3).
  split; [apply parse_spec | ]. split; [exact P1 | ].
  split; [exact P2 | ]. split; [exact P3 | ].
  unfold after_parse; cbn [parsed_fields].
  split; [apply sort_perm | ]. intros c. apply sort_stable.
Qed.

Lemma parse_sort_is_stable_witness :
  reached sample_document sample_parsed
  /\ exists r s' ps cs xs,
       parse sample_parsed true [] = Ok (r, s')
       /\ parse_with_patterns sample_parsed = Ok ps
       /\ parse_context_aware (extend sample_parsed ps) = Ok cs
       /\ parse_all_amounts (extend (extend sample_parsed ps) cs) = Ok xs
       /\ Permutation (parsed_fields s')
            (((parsed_fields sample_parsed ++ ps) ++ cs) ++ xs)
       /\ (forall c,
             filter (with_confidence c) (parsed_fields s')
             = filter (with_confidence c)
                 (((parsed_fields sample_parsed ++ ps) ++ cs) ++ xs))
       /\ map confidence (((parsed_fields sample_parsed ++ ps) ++ cs) ++ xs)
          = [1; 0.55999999999999994; 0.55999999999999994;
             0.55999999999999994; 0.5; 1]%float
       /\ map confidence (parsed_fields s')
          = [1; 1; 0.55999999999999994; 0.55999999999999994;
             0.55999999999999994; 0.5]%float
       /\ map field_name
            (filter (with_confidence 0.55999999999999994) (parsed_fields s'))
          = [u"claim_line_3"; u"fee_line_3"; u"premium_line_4"].
Proof.
  split; [exact sample_reached | ].
  destruct (@parse_sort_is_stable sample_document sample_parsed true []
              sample_reached)
    as (r & s' & ps & cs & xs & P & P1 & P2 & P3 & Hp & Hs).
  exists r, s', ps, cs, xs.
  split; [exact P | ]. split; [exact P1 | ]. split; [exact P2 | ].
  split; [exact P3 | ]. split; [exact Hp | ]. split; [exact Hs | ].
  pose proof (Ok_inj (eq_trans (eq_sym P) (parse_spec _ _ _))) as E.
  pose proof (Ok_inj (eq_trans (eq_sym P1) (parse_with_patterns_spec _)))
    as E1.
  rewrite E1 in P2.
  pose proof (Ok_inj (eq_trans (eq_sym P2) (parse_context_aware_spec _)))
    as E2.
  rewrite E1, E2 in P3.
  pose proof (Ok_inj (eq_trans (eq_sym P3) (parse_all_amounts_spec _)))
    as E3.
  assert (s' = after_parse sample_parsed true) as Es
    by exact (f_equal snd E).
  rewrite Es, E1, E2, E3.
  vm_compute. repeat split; reflexivity.
Defined.

(** ** Looking a field up *)




(** ** Counts by category and by currency *)

Lemma generate_summary_counts self :
  by_category (_generate_summary self)
  = fold_left (tally category_key) (parsed_fields self) []
  /\ by_currency (_generate_summary self)
     = fold_left (tally currency) (parsed_fields self) [].
Proof. unfold _generate_summary. apply summary_fold_counts. Qed.

Lemma filter_category_key c fs :
  filter (fun f => PyStr.eqb (category_value c) (category_key f)) fs
  = filter (fun field => category_eqb (category field) c) fs.
Proof.
  apply filter_ext. intros f. unfold category_key.
  apply category_value_eqb.
Qed.

Lemma category_partition : forall fs : list FinancialField,
  list_sum
    (map (fun c =>
            List.length
              (filter (fun field => category_eqb (category field) c) fs))
       all_categories)
  = List.length fs.
Proof.
  induction fs as [ | f fs IH]; [reflexivity | ].
  unfold all_categories, list_sum in *. cbn [map fold_right filter] in *.
  destruct (category f); cbn [category_eqb List.length]; lia.
Qed.

(** X4: [get_fields_by_category] returns exactly the accumulated fields
    of the category. Their number is the count the summary keeps under
    the category's value in [by_category] (0 when the key is absent), a
    key is present exactly when the category has a field, no key occurs
    twice, and the eight categories together account for every field. *)
Theorem category_counts_match_lookup : forall self,
  (forall c f,
     In f (get_fields_by_category self c)
     <-> In f (parsed_fields self) /\ category f = c)
  /\ (forall c,
        dict_get (by_category (_generate_summary self)) (category_value c) 0
        = List.length (get_fields_by_category self c))
  /\ (forall c,
        In (category_value c)
          (map fst (by_category (_generate_summary self)))
        <-> get_fields_by_category self c <> [])
  /\ NoDup (map fst (by_category (_generate_summary self)))
  /\ list_sum
       (map (fun c => List.length (get_fields_by_category self c))
          all_categories)
     = List.length (parsed_fields self).
Proof.
  intros self. destruct (generate_summary_counts self) as [C _].
  rewrite C. unfold get_fields_by_category.
  split; [ | split; [ | split; [ | split]]].
  - intros c f. rewrite filter_In, category_eqb_eq. tauto.
  - intros c. rewrite tally_get, filter_category_key. reflexivity.
  - intros c. rewrite tally_keys. split.
    + intros [[] | (f & Hf & E)]. intros N.
      assert (In f (filter (fun field => category_eqb (category field) c)
                      (parsed_fields self))) as H.
      { apply filter_In. split; [exact Hf | ].
        unfold category_key in E.
        rewrite <- category_value_eqb, E. apply str_eqb_refl. }
      rewrite N in H. destruct H.
    + intros N. right.
      destruct (filter (fun field => category_eqb (category field) c)
                  (parsed_fields self)) as [ | f l] eqn:E;
        [destruct N; reflexivity | ].
      assert (In f (f :: l)) as H by (left; reflexivity).
      rewrite <- E in H. apply filter_In in H. destruct H as [Hf Hc].
      apply category_eqb_eq in Hc. exists f. split; [exact Hf | ].
      unfold category_key. rewrite Hc. reflexivity.
  - apply tally_NoDup. constructor.
  - apply category_partition.
Qed.

(** *** The currency codes *)

Lemma first_symbol_range text : forall items,
  In (first_symbol items text) (u"INR" :: map snd items).
Proof.
  induction items as [ | [symbol code] items IH]; cbn [first_symbol map snd].
  - left. reflexivity.
  - destruct (PyStr.contains symbol text).
    + right. left. reflexivity.
    + destruct IH as [H | H]; [left; exact H | right; right; exact H].
Qed.

Lemma detect_currency_codes text : In (detect_currency text) currency_codes.
Proof.
  pose proof (first_symbol_range text CURRENCY_SYMBOLS) as H.
  unfold detect_currency.
  set (x := first_symbol CURRENCY_SYMBOLS text) in *. clearbody x.
  vm_compute in H. vm_compute. tauto.
Qed.

Lemma origin_currency doc f : origin doc f -> In (currency f) currency_codes.
Proof.
  intros [H | [H | H]].
  - apply pattern_fields_inv in H.
    destruct H as (name & patterns & [m v] & _ & _ & ->).
    apply detect_currency_codes.
  - apply context_candidates_inv in H.
    destruct H as (n & line & keyword & v & _ & _ & _ & -> & _).
    apply detect_currency_codes.
  - apply amount_candidates_inv in H.
    destruct H as (n & line & m & v & _ & _ & -> & _).
    apply detect_currency_codes.
Qed.

(** X5: after any calls of [parse], [by_currency] maps a code to the
    number of accumulated fields with that currency; its keys are the
    currencies that occur, each once, all among INR, USD, EUR and GBP (so
    at most four), and its counts add up to the number of fields. *)
Theorem currency_counts : forall doc s,
  reached doc s ->
  (forall code,
     dict_get (by_currency (_generate_summary s)) code 0
     = List.length (filter (has_currency code) (parsed_fields s)))
  /\ (forall code,
        In code (map fst (by_currency (_generate_summary s)))
        <-> exists f, In f (parsed_fields s) /\ currency f = code)
  /\ NoDup (map fst (by_currency (_generate_summary s)))
  /\ incl (map fst (by_currency (_generate_summary s))) currency_codes
  /\ List.length (by_currency (_generate_summary s)) <= 4
  /\ list_sum (map snd (by_currency (_generate_summary s)))
     = List.length (parsed_fields s).
Proof.
  intros doc s R. destruct (generate_summary_counts s) as [_ C]. rewrite C.
  assert (forall code,
            In code (map fst (fold_left (tally currency) (parsed_fields s) []))
            <-> exists f, In f (parsed_fields s) /\ currency f = code) as K.
  { intros code. rewrite tally_keys. split.
    - intros [[] | H]. exact H.
    - intros H. right. exact H. }
  assert (NoDup (map fst (fold_left (tally currency) (parsed_fields s) [])))
    as N by (apply tally_NoDup; constructor).
  assert (incl (map fst (fold_left (tally currency) (parsed_fields s) []))
            currency_codes) as I.
  { intros code H. apply K in H. destruct H as (f & Hf & <-).
    apply (@origin_currency doc). apply (reached_inv R). exact Hf. }
  split; [ | split; [exact K | split; [exact N | split; [exact I | split]]]].
  - intros code. rewrite tally_get. reflexivity.
  - rewrite <- (length_map fst).
    apply (NoDup_incl_length N I).
  - rewrite tally_sum. reflexivity.
Qed.

Lemma currency_counts_witness :
  reached (u"Annual Premium: Rs. 500")
    (after_parse (__init__ (u"Annual Premium: Rs. 500")) false)
  /\ (forall code,
        dict_get
          (by_currency
             (_generate_summary
                (after_parse (__init__ (u"Annual Premium: Rs. 500")) false)))
          code 0
        = List.length
            (filter (has_currency code)
               (parsed_fields
                  (after_parse (__init__ (u"Annual Premium: Rs. 500"))
                     false))))
  /\ List.length
       (by_currency
          (_generate_summary
             (after_parse (__init__ (u"Annual Premium: Rs. 500")) false)))
     <= 4.
Proof.
  assert (reached (u"Annual Premium: Rs. 500")
            (after_parse (__init__ (u"Annual Premium: Rs. 500")) false))
    as R.
  { apply (@reached_parse (u"Annual Premium: Rs. 500")
             (__init__ (u"Annual Premium: Rs. 500")) false []
             (parse_results (__init__ (u"Annual Premium: Rs. 500")) false [])
             _).
    - apply reached_init.
    - apply parse_spec. }
  split; [exact R | ].
  destruct (@currency_counts (u"Annual Premium: Rs. 500") _ R)
    as (H1 & _ & _ & _ & H5 & _).
  split; [exact H1 | exact H5].
Defined.

(** ** The counts of the metadata *)

Lemma pattern_fields_length doc : forall table,
  List.length (pattern_fields doc table) <= List.length table.
Proof.
  induction table as [ | e table IH]; [apply Nat.le_refl | ].
  change (pattern_fields doc (e :: table))
    with (entry_fields doc e ++ pattern_fields doc table).
  rewrite length_app. pose proof (entry_fields_length doc e).
  cbn [List.length]. lia.
Qed.

(** X6: for every state of the parser, a call of [parse] reports
    [pattern_matches] and [context_matches] as the numbers of fields the
    pattern matcher and the context scanner returned in this call, and
    [total_fields_extracted] as the number of fields held before the call
    plus those of the three strategies (none from the exhaustive scanner
    when it is not asked for). The total is the length of [fields] and of
    the parser's list, the sum of the counts of [by_category] and of
    [by_currency], and an upper bound of [high_confidence_fields]; there
    are at most 22 pattern matches, one for each name of the table; the
    document and its lines are left as they were. *)
Theorem metadata_counts : forall self flag now,
  exists r s' ps cs xs,
    parse self flag now = Ok (r, s')
    /\ parse_with_patterns self = Ok ps
    /\ parse_context_aware (extend self ps) = Ok cs
    /\ (if flag then parse_all_amounts (extend (extend self ps) cs) = Ok xs
        else xs = [])
    /\ pattern_matches (metadata r) = List.length ps
    /\ context_matches (metadata r) = List.length cs
    /\ total_fields_extracted (metadata r)
       = List.length (parsed_fields self) + List.length ps
         + List.length cs + List.length xs
    /\ List.length (fields r) = total_fields_extracted (metadata r)
    /\ List.length (parsed_fields s') = total_fields_extracted (metadata r)
    /\ pattern_matches (metadata r) <= 22
    /\ list_sum (map snd (by_category (summary r)))
       = total_fields_extracted (metadata r)
    /\ list_sum (map snd (by_currency (summary r)))
       = total_fields_extracted (metadata r)
    /\ high_confidence_fields (summary r)
       <= total_fields_extracted (metadata r)
    /\ extraction_date (metadata r) = now
    /\ document_text s' = document_text self
    /\ lines s' = lines self.
Proof.
  intros self flag now.
  exists (parse_results self flag now), (after_parse self flag),
    (round_patterns self), (round_context self), (round_amounts self flag).
  destruct (parse_rounds self flag) as (P1 & P2 & P3).
  split; [apply parse_spec | ]. split; [exact P1 | ].
  split; [exact P2 | ]. split; [exact P3 | ].
  assert (List.length (parsed_fields (after_parse self flag))
          = List.length (parsed_fields self)
            + List.length (round_patterns self)
            + List.length (round_context self)
            + List.length (round_amounts self flag)) as T.
  { unfold after_parse at 1; cbn [parsed_fields].
    rewrite sort_length, !length_app. reflexivity. }
  assert (List.length (round_patterns self) <= 22) as B.
  { unfold round_patterns.
    apply (Nat.le_trans _ _ _
             (pattern_fields_length (document_text self) FIELD_PATTERNS)).
    apply Nat.le_refl. }
  unfold parse_results.
  cbn [metadata fields summary total_fields_extracted pattern_matches
       context_matches extraction_date].
  destruct (generate_summary_counts (after_parse self flag)) as [C1 C2].
  rewrite C1, C2, !tally_sum, length_map.
  destruct (summary_fold (parsed_fields (after_parse self flag))
              {| by_category := []; by_currency := [];
                 high_confidence_fields := 0;
                 total_premium_amount := 0%float;
                 total_coverage_amount := 0%float;
                 total_claims_amount := 0%float |}) as (_ & _ & _ & H).
  cbn zeta in H. unfold _generate_summary. rewrite H.
  cbn [high_confidence_fields].
  pose proof (List.filter_length_le high_confidence
                (parsed_fields (after_parse self flag))) as HL.
  change (list_sum (map snd (@nil (str * nat)))) with 0.
  set (n := List.length (parsed_fields (after_parse self flag))) in *.
  split; [reflexivity | ]. split; [reflexivity | ].
  split; [exact T | ]. split; [reflexivity | ]. split; [reflexivity | ].
  split; [exact B | ]. split; [apply Nat.add_0_l | ].
  split; [apply Nat.add_0_l | ]. split; [lia | ].
  split; [reflexivity | ]. split; reflexivity.
Qed.

(** ** The matcher: what a group captures

    A group written with digits, commas and dots only captures a stretch
    of the text, inside the match, made of such characters. *)

Lemma skipn_cons_S {A : Type} (doc : list A) pos c s :
  skipn pos doc = c :: s ->
  pos < List.length doc /\ skipn (S pos) doc = s.
Proof.
  intros H. split.
  - destruct (Nat.lt_ge_cases pos (List.length doc)) as [L | L]; [exact L | ].
    rewrite (skipn_all2 doc L) in H. discriminate.
  - change (S pos) with (1 + pos). rewrite <- skipn_skipn, H. reflexivity.
Qed.

Lemma slice_one doc pos c s :
  skipn pos doc = c :: s -> PyStr.slice doc pos (S pos) = [c].
Proof.
  intros H. unfold PyStr.slice. rewrite H.
  replace (S pos - pos) with 1 by lia. reflexivity.
Qed.

Lemma slice_empty doc pos : PyStr.slice doc pos pos = [].
Proof. unfold PyStr.slice. rewrite Nat.sub_diag. reflexivity. Qed.

Lemma firstn_plus {A : Type} n m : forall l : list A,
  firstn (n + m) l = firstn n l ++ firstn m (skipn n l).
Proof.
  induction n as [ | n IH]; intros l; [reflexivity | ].
  destruct l as [ | x l]; cbn [Nat.add firstn skipn app].
  - rewrite firstn_nil. reflexivity.
  - rewrite IH. reflexivity.
Qed.

Lemma slice_app doc a b c :
  a <= b -> b <= c ->
  PyStr.slice doc a c = PyStr.slice doc a b ++ PyStr.slice doc b c.
Proof.
  intros H1 H2. unfold PyStr.slice.
  replace (c - a) with ((b - a) + (c - b)) by lia.
  rewrite firstn_plus, skipn_skipn.
  replace (b - a + a) with b by lia. reflexivity.
Qed.

Lemma slice_In doc b e c : In c (PyStr.slice doc b e) -> In c doc.
Proof.
  unfold PyStr.slice. intros H.
  rewrite <- (firstn_skipn b doc). apply in_or_app. right.
  rewrite <- (firstn_skipn (e - b) (skipn b doc)). apply in_or_app. left.
  exact H.
Qed.

Lemma lit_match_punct ic p c :
  ((p =? 44) || (p =? 46))%N = true ->
  Re.lit_match ic p c = true -> c = p.
Proof.
  intros Hp H. unfold Re.lit_match, Re.tolower, PyStr.char_eqb in H.
  apply orb_true_iff in Hp. rewrite !N.eqb_eq in Hp.
  destruct ic.
  - destruct Hp as [-> | ->]; cbn in H;
      destruct ((65 <=? c) && (c <=? 90))%N eqn:E1;
      try destruct (c =? 304)%N eqn:E2;
      try destruct (c =? 8490)%N eqn:E3;
      rewrite ?orb_false_r in H;
      apply N.eqb_eq in H;
      try (apply andb_true_iff in E1; rewrite !N.leb_le in E1);
      lia.
  - apply N.eqb_eq in H. exact H.
Qed.

Lemma item_match_numeric ic i c :
  numeric_item i = true -> Re.item_match ic i c = true ->
  numeric_char c = true.
Proof.
  unfold numeric_char. destruct i as [p | | ]; cbn [numeric_item Re.item_match].
  - intros Hp H. rewrite (lit_match_punct _ _ _ Hp H).
    rewrite <- orb_assoc, Hp. apply orb_true_r.
  - discriminate.
  - intros _ ->. reflexivity.
Qed.

Lemma set_match_numeric ic negated items c :
  negb negated && forallb numeric_item items = true ->
  Re.set_match ic negated items c = true ->
  numeric_char c = true.
Proof.
  intros H M. apply andb_true_iff in H. destruct H as [Hn Hi].
  destruct negated; [discriminate | ].
  unfold Re.set_match in M. cbn [xorb] in M.
  apply existsb_exists in M. destruct M as (i & Hin & Hm).
  rewrite forallb_forall in Hi.
  apply (item_match_numeric ic i c (Hi i Hin) Hm).
Qed.

Section Spans.
Variable R : Type.
Variable ic : bool.
Variable doc : str.
Variable g : nat.

Lemma spans_numeric_cons lo hi g' b e caps :
  spans_numeric doc g lo hi caps ->
  (g = g' -> lo <= b /\ b <= e /\ e <= hi /\ numeric (PyStr.slice doc b e)) ->
  spans_numeric doc g lo hi ((g', (b, e)) :: caps).
Proof.
  intros H Hg b0 e0. cbn [Re.lookup].
  destruct (Nat.eqb g g') eqn:E.
  - intros [= <- <-]. apply Hg. apply Nat.eqb_eq. exact E.
  - apply H.
Qed.

Lemma spans_numeric_mono lo hi hi' caps :
  hi <= hi' -> spans_numeric doc g lo hi caps ->
  spans_numeric doc g lo hi' caps.
Proof.
  intros L H b e E. destruct (H b e E) as (H1 & H2 & H3 & H4).
  split; [exact H1 | ]. split; [exact H2 | ]. split; [lia | exact H4].
Qed.

(** What a successful match hands its continuation: a place further on in
    the text, groups whose spans are numeric, and, for an expression that
    only takes numeric characters, a numeric stretch of text. *)
Lemma rmatch_span lo : forall r pos caps
    (k : nat -> str -> Re.captures -> option R) x,
  group_numeric g r = true ->
  lo <= pos <= List.length doc ->
  spans_numeric doc g lo pos caps ->
  Re.rmatch ic r pos (skipn pos doc) caps k = Some x ->
  exists p' c',
    pos <= p' <= List.length doc
    /\ spans_numeric doc g lo p' c'
    /\ k p' (skipn p' doc) c' = Some x
    /\ (numeric_only r = true -> numeric (PyStr.slice doc pos p')).
Proof.
  induction r as [ | c | neg items | r1 IH1 r2 IH2 | r1 IH1 r2 IH2
                 | r1 IH1 | g' r1 IH1 ];
    intros pos caps k x G L C M; cbn [Re.rmatch group_numeric numeric_only] in *.
  - exists pos, caps. split; [lia | ]. split; [exact C | ].
    split; [exact M | ]. intros _. rewrite slice_empty. constructor.
  - destruct (skipn pos doc) as [ | c0 s'] eqn:E; [discriminate | ].
    destruct (Re.lit_match ic c c0) eqn:Hm; [ | discriminate].
    destruct (skipn_cons_S _ _ E) as [L' E'].
    exists (S pos), caps. split; [lia | ].
    split; [apply (spans_numeric_mono (hi:=pos)); [lia | exact C] | ].
    split; [rewrite E'; exact M | ].
    intros Hp. rewrite (slice_one _ _ E). constructor; [ | constructor].
    rewrite (lit_match_punct _ _ _ Hp Hm). unfold numeric_char.
    rewrite <- orb_assoc, Hp. apply orb_true_r.
  - destruct (skipn pos doc) as [ | c0 s'] eqn:E; [discriminate | ].
    destruct (Re.set_match ic neg items c0) eqn:Hm; [ | discriminate].
    destruct (skipn_cons_S _ _ E) as [L' E'].
    exists (S pos), caps. split; [lia | ].
    split; [apply (spans_numeric_mono (hi:=pos)); [lia | exact C] | ].
    split; [rewrite E'; exact M | ].
    intros Hp. rewrite (slice_one _ _ E). constructor; [ | constructor].
    apply (set_match_numeric _ _ _ _ Hp Hm).
  - apply andb_true_iff in G. destruct G as [G1 G2].
    destruct (IH1 _ _ _ _ G1 L C M) as (p1 & c1 & L1 & C1 & M1 & N1).
    assert (lo <= p1 <= List.length doc) as L1' by lia.
    destruct (IH2 _ _ _ _ G2 L1' C1 M1) as (p2 & c2 & L2 & C2 & M2 & N2).
    exists p2, c2. split; [lia | ]. split; [exact C2 | ].
    split; [exact M2 | ]. intros Hn.
    apply andb_true_iff in Hn. destruct Hn as [Hn1 Hn2].
    rewrite (slice_app doc (a:=pos) (b:=p1) (c:=p2)) by lia.
    apply Forall_app. split; [apply N1; exact Hn1 | apply N2; exact Hn2].
  - apply andb_true_iff in G. destruct G as [G1 G2].
    destruct (Re.rmatch ic r1 pos (skipn pos doc) caps k) as [y | ] eqn:E.
    + injection M as ->.
      destruct (IH1 _ _ _ _ G1 L C E) as (p1 & c1 & L1 & C1 & M1 & N1).
      exists p1, c1. split; [exact L1 | ]. split; [exact C1 | ].
      split; [exact M1 | ]. intros Hn.
      apply andb_true_iff in Hn. apply N1. apply Hn.
    + destruct (IH2 _ _ _ _ G2 L C M) as (p1 & c1 & L1 & C1 & M1 & N1).
      exists p1, c1. split; [exact L1 | ]. split; [exact C1 | ].
      split; [exact M1 | ]. intros Hn.
      apply andb_true_iff in Hn. apply N1. apply Hn.
  - revert M. generalize (List.length (skipn pos doc)) as n. intros n.
    revert pos caps L C. induction n as [ | n IHn]; intros pos caps L C M.
    + exists pos, caps. split; [lia | ]. split; [exact C | ].
      split; [exact M | ]. intros _. rewrite slice_empty. constructor.
    + match type of M with
      | match ?a with _ => _ end = _ => destruct a as [y | ] eqn:E
      end.
      * injection M as ->.
        destruct (IH1 _ _ _ _ G L C E) as (p1 & c1 & L1 & C1 & M1 & N1).
        destruct (Nat.eqb p1 pos); [discriminate | ].
        assert (lo <= p1 <= List.length doc) as L1' by lia.
        destruct (IHn _ _ L1' C1 M1) as (p2 & c2 & L2 & C2 & M2 & N2).
        exists p2, c2. split; [lia | ]. split; [exact C2 | ].
        split; [exact M2 | ]. intros Hn.
        rewrite (slice_app doc (a:=pos) (b:=p1) (c:=p2)) by lia.
        apply Forall_app. split; [apply N1; exact Hn | apply N2; exact Hn].
      * exists pos, caps. split; [lia | ]. split; [exact C | ].
        split; [exact M | ]. intros _. rewrite slice_empty. constructor.
  - apply andb_true_iff in G. destruct G as [Gg G1].
    destruct (IH1 _ _ _ _ G1 L C M) as (p1 & c1 & L1 & C1 & M1 & N1).
    exists p1, ((g', (pos, p1)) :: c1). split; [exact L1 | ].
    split; [ | split; [exact M1 | exact N1]].
    apply spans_numeric_cons; [exact C1 | ].
    intros ->. rewrite Nat.eqb_refl in Gg.
    split; [lia | ]. split; [lia | ]. split; [lia | apply N1; exact Gg].
Qed.

End Spans.

Lemma match_at_in doc g p pos adv m :
  group_numeric g (Re.p_regex p) = true ->
  pos <= List.length doc ->
  Re.match_at p pos (skipn pos doc) adv = Some m ->
  Re.m_start m = pos /\ match_in doc g m.
Proof.
  intros G L M. unfold Re.match_at in M.
  apply (@rmatch_span _ _ doc g pos) in M;
    [ | exact G | lia | intros b e; discriminate].
  destruct M as (p' & c' & L' & C' & M & _).
  destruct (adv && Nat.eqb p' pos); [discriminate | ].
  injection M as <-. unfold match_in. cbn [Re.m_start Re.m_end Re.m_groups].
  split; [reflexivity | ]. split; [exact L' | exact C'].
Qed.

Lemma scan_in doc g p :
  group_numeric g (Re.p_regex p) = true ->
  forall s pos skip m,
    s = skipn pos doc -> pos <= List.length doc ->
    In m (Re.scan p pos s skip) -> match_in doc g m.
Proof.
  intros G.
  induction s as [ | c s IH]; intros pos skip m E L H.
  - destruct skip as [ | k]; [ | destruct H].
    cbn [Re.scan] in H. rewrite E in H.
    destruct (Re.match_at p pos (skipn pos doc) false) as [m1 | ] eqn:E1;
      [ | destruct H].
    destruct (Nat.eqb (Re.m_end m1) pos).
    + destruct H as [<- | H];
        [apply (match_at_in _ _ _ _ G L E1) | ].
      destruct (Re.match_at p pos (skipn pos doc) true) as [m2 | ] eqn:E2;
        [ | destruct H].
      destruct H as [<- | []]. apply (match_at_in _ _ _ _ G L E2).
    + destruct H as [<- | []]. apply (match_at_in _ _ _ _ G L E1).
  - destruct (skipn_cons_S _ _ (eq_sym E)) as [L' E'].
    assert (forall k, In m (Re.scan p (S pos) s k) -> match_in doc g m) as Next.
    { intros k. apply IH; [symmetry; exact E' | lia]. }
    destruct skip as [ | k]; cbn [Re.scan] in H; [ | apply (Next _ H)].
    rewrite E in H.
    destruct (Re.match_at p pos (skipn pos doc) false) as [m1 | ] eqn:E1;
      [ | apply (Next _ H)].
    destruct (Nat.eqb (Re.m_end m1) pos).
    + destruct H as [<- | H];
        [apply (match_at_in _ _ _ _ G L E1) | ].
      destruct (Re.match_at p pos (skipn pos doc) true) as [m2 | ] eqn:E2;
        [ | apply (Next _ H)].
      destruct H as [<- | H];
        [apply (match_at_in _ _ _ _ G L E2) | apply (Next _ H)].
    + destruct H as [<- | H];
        [apply (match_at_in _ _ _ _ G L E1) | apply (Next _ H)].
Qed.

(** The captured text of a match of a pattern whose group 1 is numeric. *)
Lemma slice_incl doc a b a' b' c :
  a' <= a -> b <= b' ->
  In c (PyStr.slice doc a b) -> In c (PyStr.slice doc a' b').
Proof.
  intros La Lb H. destruct (Nat.le_gt_cases a b) as [L | L].
  - rewrite (slice_app doc (a:=a') (b:=a) (c:=b')) by lia.
    rewrite (slice_app doc (a:=a) (b:=b) (c:=b')) by lia.
    apply in_or_app. right. apply in_or_app. left. exact H.
  - unfold PyStr.slice in H. replace (b - a) with 0 in H by lia.
    destruct H.
Qed.

Lemma capture_numeric ic pattern text m :
  numeric_capture ic pattern = true ->
  In m (matches pattern text ic) ->
  Re.m_start m <= Re.m_end m <= List.length text
  /\ numeric (capture text m)
  /\ forall c, In c (capture text m) ->
        In c (PyStr.slice text (Re.m_start m) (Re.m_end m)).
Proof.
  unfold numeric_capture, matches, capture.
  destruct (Re.compile pattern ic) as [p | ]; [ | discriminate].
  intros G H. unfold Re.finditer in H.
  apply (scan_in text 1 p G (pos:=0)) in H; [ | reflexivity | lia].
  destruct H as [B S]. split; [exact B | ].
  unfold Re.group.
  destruct (Re.lookup 1 (Re.m_groups m)) as [[b e] | ] eqn:E.
  - destruct (S b e E) as (S1 & S2 & S3 & N). split; [exact N | ].
    intros c Hc. apply (@slice_incl text b e _ _ c S1 S3 Hc).
  - split; [constructor | intros c []].
Qed.

(** ** Numbers, as the patterns capture them *)

(** *** The sign of a parsed number *)

Lemma binary_round_aux_sign mx ex lx :
  sf_not_negative (binary_round_aux prec emax false mx ex lx).
Proof.
  unfold binary_round_aux.
  destruct (shr_fexp prec emax mx ex lx) as [mrs' e'].
  destruct (shr_fexp prec emax
              (round_nearest_even (shr_m mrs') (loc_of_shr_record mrs'))
              e' loc_Exact) as [mrs'' e''].
  destruct (shr_m mrs''); [exact I | | exact I].
  destruct (e'' <=? emax - prec)%Z; reflexivity.
Qed.

Lemma binary_round_sign mx ex :
  sf_not_negative (binary_round prec emax false mx ex).
Proof.
  unfold binary_round.
  destruct (shl_align mx ex (fexp prec emax (Z.pos (digits2_pos mx) + ex)))
    as [mz ez].
  apply binary_round_aux_sign.
Qed.

Lemma SFldexp_sign f e :
  sf_not_negative f -> sf_not_negative (SFldexp prec emax f e).
Proof.
  destruct f as [s | s | | s m x]; cbn [SFldexp sf_not_negative]; auto.
  intros ->. apply binary_round_sign.
Qed.

Lemma of_uint63_sign n : sf_not_negative (Prim2SF (PrimFloat.of_uint63 n)).
Proof.
  rewrite of_uint63_spec. unfold binary_normalize.
  pose proof (Uint63.to_Z_bounded n) as B.
  destruct (Uint63Axioms.to_Z n) as [ | m | m]; cbn [sf_not_negative]; auto.
  - apply binary_round_sign.
  - lia.
Qed.

Lemma not_negative_ltb x :
  sf_not_negative (Prim2SF x) -> PrimFloat.ltb x 0 = false.
Proof.
  intros H. rewrite ltb_spec.
  change (Prim2SF 0) with (S754_zero false).
  destruct (Prim2SF x) as [s | s | | s m e]; cbn in *; subst; reflexivity.
Qed.

Lemma of_ratio_not_negative n d :
  PrimFloat.ltb (PyFloat.of_ratio n d) 0 = false.
Proof.
  unfold PyFloat.of_ratio.
  destruct (n <=? 0)%Z; [reflexivity | ].
  cbv zeta.
  match goal with
  | |- PrimFloat.ltb (let '(num, den) := ?p in _) _ = _ =>
      destruct p as [num den]
  end.
  destruct (971 <? _)%Z; [reflexivity | ].
  apply not_negative_ltb. rewrite Z_ldexp_spec.
  apply SFldexp_sign. apply of_uint63_sign.
Qed.

Lemma read_magnitude_not_negative s v :
  PyFloat.read_magnitude s = Some v -> PrimFloat.ltb v 0 = false.
Proof.
  unfold PyFloat.read_magnitude.
  destruct (PyStr.eqb (PyFloat.ascii_lower s) (u"inf")
            || PyStr.eqb (PyFloat.ascii_lower s) (u"infinity"));
    [intros [= <-]; reflexivity | ].
  destruct (PyStr.eqb (PyFloat.ascii_lower s) (u"nan"));
    [intros [= <-]; reflexivity | ].
  destruct (PyFloat.span_digits s) as [ip s1].
  destruct (match s1 with
            | 46%N :: s1' => PyFloat.span_digits s1'
            | _ => ([], s1)
            end) as [fp s2].
  destruct (ip ++ fp) as [ | d ds]; [discriminate | ].
  destruct (PyFloat.read_exponent s2) as [e | ]; [ | discriminate].
  intros [= <-].
  destruct (0 <=? _)%Z; apply of_ratio_not_negative.
Qed.

(** *** Decimal digits and blanks *)

Lemma zeros_ranges z :
  In z PyStr.decimal_zeros ->
  (z = 48 \/ 1632 <= z <= 4240 \/ 6112 <= z <= 7248 \/ 42528 <= z)%N.
Proof.
  unfold PyStr.decimal_zeros. cbn [In]. intros H.
  repeat (destruct H as [<- | H]; [lia | ]). destruct H.
Qed.

Lemma decimal_block c d :
  PyStr.decimal c = Some d ->
  exists z, In z PyStr.decimal_zeros
            /\ (z <= c < z + 10)%N /\ d = (c - z)%N.
Proof.
  unfold PyStr.decimal.
  destruct (find _ PyStr.decimal_zeros) as [z | ] eqn:E; [ | discriminate].
  intros [= <-]. apply find_some in E. destruct E as [Hz Hb].
  apply andb_true_iff in Hb. rewrite N.leb_le, N.ltb_lt in Hb.
  exists z. auto.
Qed.

Lemma isdecimal_block c :
  PyStr.isdecimal c = true ->
  exists z, In z PyStr.decimal_zeros /\ (z <= c < z + 10)%N.
Proof.
  unfold PyStr.isdecimal.
  destruct (PyStr.decimal c) as [d | ] eqn:E; [ | discriminate].
  intros _. destruct (@decimal_block _ _ E) as (z & Hz & Hb & _). eauto.
Qed.

Lemma isdecimal_not_space c :
  PyStr.isdecimal c = true -> PyStr.isspace c = false.
Proof.
  intros H. destruct (@isdecimal_block _ H) as (z & Hz & Hb).
  apply zeros_ranges in Hz. apply not_true_iff_false. intros S.
  unfold PyStr.isspace in S.
  rewrite !orb_true_iff, !andb_true_iff, !N.leb_le, !N.eqb_eq in S. lia.
Qed.

Lemma is_digit_isdecimal c :
  PyFloat.is_digit c = true -> PyStr.isdecimal c = true.
Proof.
  unfold PyFloat.is_digit, PyStr.isdecimal, PyStr.decimal. intros H.
  unfold PyStr.decimal_zeros. cbn [find].
  apply andb_true_iff in H. rewrite !N.leb_le in H.
  replace ((48 <=? c) && (c <? 48 + 10))%N with true; [reflexivity | ].
  symmetry. apply andb_true_iff. rewrite N.leb_le, N.ltb_lt. lia.
Qed.

Lemma isdecimal_ascii c :
  PyStr.isdecimal c = true -> (c < 127)%N -> PyFloat.is_digit c = true.
Proof.
  intros H L. destruct (@isdecimal_block _ H) as (z & Hz & Hb).
  apply zeros_ranges in Hz. unfold PyFloat.is_digit.
  apply andb_true_iff. rewrite !N.leb_le. lia.
Qed.

(** *** [strip] on a text without blanks at its ends *)

Lemma lstrip_id s :
  match s with c :: _ => PyStr.isspace c = false | [] => True end ->
  PyStr.lstrip s = s.
Proof. destruct s as [ | c s]; cbn; [reflexivity | intros ->; reflexivity]. Qed.

Lemma strip_id s :
  Forall (fun c => PyStr.isspace c = false) s -> PyStr.strip s = s.
Proof.
  intros F. unfold PyStr.strip, PyStr.rstrip.
  rewrite (lstrip_id s) by (destruct F; auto).
  rewrite (lstrip_id (rev s)); [apply rev_involutive | ].
  apply Forall_rev in F. destruct F; auto.
Qed.

Lemma c_lstrip_id s :
  match s with c :: _ => PyFloat.c_isspace c = false | [] => True end ->
  PyFloat.c_lstrip s = s.
Proof. destruct s as [ | c s]; cbn; [reflexivity | intros ->; reflexivity]. Qed.

Lemma c_strip_id s :
  Forall (fun c => PyFloat.c_isspace c = false) s -> PyFloat.c_strip s = s.
Proof.
  intros F. unfold PyFloat.c_strip.
  rewrite (c_lstrip_id s) by (destruct F; auto).
  rewrite (c_lstrip_id (rev s)); [apply rev_involutive | ].
  apply Forall_rev in F. destruct F; auto.
Qed.

(** *** [float] on digits and dots *)

Lemma plain_char_cases c :
  plain_char c = true -> ((48 <= c <= 57) \/ c = 46)%N.
Proof.
  unfold plain_char, PyFloat.is_digit.
  rewrite orb_true_iff, andb_true_iff, !N.leb_le, N.eqb_eq. tauto.
Qed.

(** The ASCII form of a text of decimal digits and dots. *)
Lemma to_ascii_plain : forall s,
  Forall (fun c => PyStr.isdecimal c = true \/ c = 46%N) s ->
  exists a,
    PyFloat.to_ascii s = Some a
    /\ Forall (fun c => plain_char c = true) a
    /\ ((exists c, In c a /\ PyFloat.is_digit c = true) -> has_decimal s).
Proof.
  induction s as [ | c s IH]; intros F.
  - exists []. split; [reflexivity | ]. split; [constructor | ].
    intros (c & [] & _).
  - inversion F as [ | ? ? Hc Fs]; subst.
    destruct (IH Fs) as (a & E & P & D). cbn [PyFloat.to_ascii]. rewrite E.
    assert (has_decimal s -> has_decimal (c :: s)) as Up.
    { intros (x & Hx & Dx). exists x. split; [right; exact Hx | exact Dx]. }
    destruct (c <? 127)%N eqn:L.
    + exists (c :: a). split; [reflexivity | ]. apply N.ltb_lt in L.
      assert (plain_char c = true) as Pc.
      { unfold plain_char. destruct Hc as [Hc | ->]; [ | reflexivity].
        rewrite (@isdecimal_ascii _ Hc L). reflexivity. }
      split; [constructor; assumption | ].
      intros (x & [<- | Hx] & Dx).
      * exists c. split; [left; reflexivity | ].
        apply is_digit_isdecimal. exact Dx.
      * apply Up, D. eauto.
    + destruct Hc as [Hc | ->]; [ | discriminate].
      rewrite (@isdecimal_not_space _ Hc).
      unfold PyStr.isdecimal in Hc.
      destruct (PyStr.decimal c) as [d | ] eqn:Ed; [ | discriminate].
      destruct (@decimal_block _ _ Ed) as (z & _ & Hb & ->).
      exists ((48 + (c - z))%N :: a). split; [reflexivity | ].
      split.
      * constructor; [ | exact P]. unfold plain_char, PyFloat.is_digit.
        apply orb_true_iff. left. apply andb_true_iff.
        rewrite !N.leb_le. lia.
      * intros (x & [<- | Hx] & Dx).
        -- exists c. split; [left; reflexivity | ].
           unfold PyStr.isdecimal. rewrite Ed. reflexivity.
        -- apply Up, D. eauto.
Qed.

Lemma drop_underscores_plain : forall a prev,
  Forall (fun c => plain_char c = true) a -> prev <> 95%N ->
  PyFloat.drop_underscores prev a = Some a.
Proof.
  induction a as [ | c a IH]; intros prev F Np; cbn [PyFloat.drop_underscores].
  - destruct (prev =? 95)%N eqn:E; [apply N.eqb_eq in E; contradiction | ].
    reflexivity.
  - inversion F as [ | ? ? Hc Fa]; subst.
    apply plain_char_cases in Hc.
    destruct (c =? 95)%N eqn:E; [apply N.eqb_eq in E; lia | ].
    destruct (prev =? 95)%N eqn:E'; [apply N.eqb_eq in E'; contradiction | ].
    cbn [andb]. rewrite IH; [reflexivity | exact Fa | ].
    apply N.eqb_neq. exact E.
Qed.

Lemma read_sign_plain a :
  Forall (fun c => plain_char c = true) a -> PyFloat.read_sign a = (false, a).
Proof.
  intros F. destruct a as [ | c a]; [reflexivity | ].
  inversion F as [ | ? ? Hc _]; subst. apply plain_char_cases in Hc.
  unfold PyFloat.read_sign.
  destruct c as [ | p]; [reflexivity | ].
  do 6 (try destruct p as [p | p | ]); try reflexivity; lia.
Qed.

Lemma ascii_lower_plain a :
  Forall (fun c => plain_char c = true) a -> PyFloat.ascii_lower a = a.
Proof.
  induction 1 as [ | c a Hc _ IH]; [reflexivity | ].
  unfold PyFloat.ascii_lower in *. cbn [map]. rewrite IH.
  apply plain_char_cases in Hc.
  destruct ((65 <=? c) && (c <=? 90))%N eqn:E; [ | reflexivity].
  apply andb_true_iff in E. rewrite !N.leb_le in E. lia.
Qed.

Lemma span_digits_spec : forall s ds rest,
  PyFloat.span_digits s = (ds, rest) ->
  (ds <> [] -> exists c, In c s /\ PyFloat.is_digit c = true)
  /\ forall c, In c rest -> In c s.
Proof.
  induction s as [ | c s IH]; intros ds rest; cbn [PyFloat.span_digits].
  - intros [= <- <-]. split; [intros N; destruct N; reflexivity | auto].
  - destruct (PyFloat.is_digit c) eqn:D.
    + destruct (PyFloat.span_digits s) as [ds' rest'].
      intros [= <- <-]. destruct (IH _ _ eq_refl) as [_ I].
      split; [intros _; exists c; split; [left; reflexivity | exact D] | ].
      intros x Hx. right. apply I. exact Hx.
    + intros [= <- <-]. split; [intros N; destruct N; reflexivity | auto].
Qed.

Lemma read_magnitude_plain a v :
  Forall (fun c => plain_char c = true) a ->
  PyFloat.read_magnitude a = Some v ->
  exists c, In c a /\ PyFloat.is_digit c = true.
Proof.
  intros F. unfold PyFloat.read_magnitude. rewrite (ascii_lower_plain F).
  assert (forall w, existsb (fun c => negb (plain_char c)) w = true ->
                    PyStr.eqb a w = false) as Ne.
  { intros w Hw. apply not_true_iff_false. intros E.
    apply str_eqb_eq in E. subst w.
    apply existsb_exists in Hw. destruct Hw as (c & Hc & Np).
    rewrite Forall_forall in F. rewrite (F c Hc) in Np. discriminate. }
  rewrite (Ne (u"inf")), (Ne (u"infinity")), (Ne (u"nan")) by reflexivity.
  cbn [orb].
  destruct (PyFloat.span_digits a) as [ip s1] eqn:E1.
  destruct (@span_digits_spec _ _ _ E1) as [D1 I1].
  destruct (match s1 with
            | 46%N :: s1' => PyFloat.span_digits s1'
            | _ => ([], s1)
            end) as [fp s2] eqn:E2.
  destruct (ip ++ fp) as [ | d ds] eqn:E; [discriminate | ].
  intros _.
  destruct ip as [ | i ip]; [ | apply D1; discriminate].
  cbn [app] in E. subst fp.
  destruct s1 as [ | c s1]; [discriminate | ].
  destruct c as [ | p]; [discriminate | ].
  do 6 (try destruct p as [p | p | ]); try discriminate.
  destruct (@span_digits_spec _ _ _ E2) as [D2 _].
  destruct (D2 ltac:(discriminate)) as (x & Hx & Dx).
  exists x. split; [apply I1; right; exact Hx | exact Dx].
Qed.

(** [extract_number] on a captured text: the number read is not negative,
    and the text has a decimal digit. *)
Lemma extract_number_numeric text v :
  numeric text -> extract_number text = Some v ->
  PrimFloat.ltb v 0 = false /\ has_decimal text.
Proof.
  intros N. unfold extract_number.
  assert (Forall (fun c => PyStr.isdecimal c = true \/ c = 46%N)
            (PyStr.remove 44%N text)) as F.
  { apply Forall_forall. intros c Hc. unfold PyStr.remove in Hc.
    apply filter_In in Hc. destruct Hc as [Hc Nc].
    unfold numeric in N. rewrite Forall_forall in N.
    specialize (N c Hc). unfold numeric_char in N.
    unfold PyStr.char_eqb in Nc. apply negb_true_iff in Nc.
    rewrite Nc, orb_false_r in N. apply orb_true_iff in N.
    rewrite N.eqb_eq in N. exact N. }
  rewrite strip_id.
  2:{ apply Forall_forall. intros c Hc. rewrite Forall_forall in F.
      destruct (F c Hc) as [H | ->];
        [apply isdecimal_not_space; exact H | reflexivity]. }
  destruct (to_ascii_plain F) as (a & Ea & Pa & Da).
  unfold PyFloat.of_str. rewrite Ea.
  rewrite c_strip_id.
  2:{ apply Forall_forall. intros c Hc. rewrite Forall_forall in Pa.
      apply Pa in Hc. apply plain_char_cases in Hc.
      unfold PyFloat.c_isspace. apply not_true_iff_false.
      rewrite !orb_true_iff, !andb_true_iff, !N.leb_le, !N.eqb_eq. lia. }
  rewrite (drop_underscores_plain Pa) by discriminate.
  rewrite (read_sign_plain Pa).
  destruct (PyFloat.read_magnitude a) as [x | ] eqn:Em; [ | discriminate].
  intros [= <-]. split; [apply (read_magnitude_not_negative _ Em) | ].
  destruct (Da (read_magnitude_plain Pa Em)) as (c & Hc & Dc).
  exists c. split; [ | exact Dc].
  unfold PyStr.remove in Hc. apply filter_In in Hc. apply Hc.
Qed.

(** ** Every field and the match it was read from *)

(** *** The patterns capture numeric text *)

Lemma FIELD_PATTERNS_numeric :
  forallb (fun e => forallb (numeric_capture true) (snd e)) FIELD_PATTERNS
  = true.
Proof. vm_compute. reflexivity. Qed.

Lemma context_amount_pattern_numeric :
  numeric_capture false context_amount_pattern = true.
Proof. vm_compute. reflexivity. Qed.

Lemma all_amount_pattern_numeric :
  numeric_capture true all_amount_pattern = true.
Proof. vm_compute. reflexivity. Qed.

(** *** Where the fields come from *)

Lemma is_positive_Some o :
  is_positive o = true ->
  exists v, o = Some v /\ PyFloat.gt v 0 = true.
Proof.
  destruct o as [v | ]; cbn [is_positive]; [ | discriminate].
  intros H. apply andb_true_iff in H. exists v. split; [reflexivity | apply H].
Qed.

Lemma pattern_fields_source doc f :
  In f (pattern_fields doc FIELD_PATTERNS) -> from_pattern doc f.
Proof.
  intros H. apply pattern_fields_inv in H.
  destruct H as (name & patterns & [m v] & Hin & Hh & ->).
  apply first_pattern_hit_Some in Hh.
  destruct Hh as (before & pattern & after & mb & ma & -> & _ & Hm & _ & Hv).
  exists name, (before ++ pattern :: after), pattern, m, v.
  split; [exact Hin | ]. split; [apply in_elt | ].
  split; [rewrite Hm; apply in_elt | ]. split; [exact Hv | reflexivity].
Qed.

Lemma context_candidates_source : forall ls i f,
  In f (context_candidates i ls) ->
  exists n line keyword m v,
    i <= n
    /\ nth_error ls (n - i) = Some line
    /\ In keyword keywords
    /\ PyStr.contains keyword (PyStr.lower line) = true
    /\ In m (matches context_amount_pattern line false)
    /\ extract_number (capture line m) = Some v
    /\ PyFloat.gt v 0 = true
    /\ f = context_field n line keyword v.
Proof.
  induction ls as [ | line ls IH]; intros i f H; cbn [context_candidates] in H;
    [contradiction | ].
  apply in_app_or in H. destruct H as [H | H].
  - unfold context_candidates_on in H. rewrite in_flat_map in H.
    destruct H as (kw & Hk & Hf).
    destruct (PyStr.contains kw (PyStr.lower line)) eqn:Hc; [ | contradiction].
    unfold context_candidates_for in Hf. rewrite in_flat_map in Hf.
    destruct Hf as (m & Hm & Hf). cbn zeta in Hf.
    destruct (is_positive (extract_number (capture line m))) eqn:P;
      [ | contradiction].
    destruct Hf as [<- | []].
    destruct (@is_positive_Some _ P) as (v & Ev & Gv). rewrite Ev.
    exists i, line, kw, m, v. rewrite Nat.sub_diag. cbn [nth_error the].
    repeat split; auto.
  - apply IH in H.
    destruct H as (n & l & kw & m & v & Hn & Hl & Hk & Hc & Hm & Hv & Gv & ->).
    exists n, l, kw, m, v. replace (n - i) with (S (n - S i)) by lia.
    cbn [nth_error]. repeat split; auto; lia.
Qed.

Lemma amount_candidates_source : forall ls i f,
  In f (amount_candidates i ls) ->
  exists n line m v,
    i <= n
    /\ nth_error ls (n - i) = Some line
    /\ In m (matches all_amount_pattern line true)
    /\ extract_number (capture line m) = Some v
    /\ PyFloat.gt v 0 = true
    /\ f = amount_field n line m v.
Proof.
  induction ls as [ | line ls IH]; intros i f H; cbn [amount_candidates] in H;
    [contradiction | ].
  apply in_app_or in H. destruct H as [H | H].
  - unfold amount_candidates_on in H. rewrite in_flat_map in H.
    destruct H as (m & Hm & Hf). cbn zeta in Hf.
    destruct (is_positive (extract_number (capture line m))) eqn:P;
      [ | contradiction].
    destruct Hf as [<- | []].
    destruct (@is_positive_Some _ P) as (v & Ev & Gv). rewrite Ev.
    exists i, line, m, v. rewrite Nat.sub_diag. cbn [nth_error the].
    repeat split; auto.
  - apply IH in H.
    destruct H as (n & l & m & v & Hn & Hl & Hm & Hv & Gv & ->).
    exists n, l, m, v. replace (n - i) with (S (n - S i)) by lia.
    cbn [nth_error]. repeat split; auto; lia.
Qed.

Lemma origin_source doc f :
  origin doc f ->
  from_pattern doc f \/ from_context doc f \/ from_amounts doc f.
Proof.
  intros [H | [H | H]].
  - left. apply pattern_fields_source. exact H.
  - right; left. apply context_candidates_source in H. exact H.
  - right; right. apply amount_candidates_source in H. exact H.
Qed.

(** *** The lines of a text *)

Lemma split_In sep : forall s line c,
  In line (PyStr.split sep s) -> In c line -> In c s.
Proof.
  induction s as [ | x s IH]; intros line c Hl Hc; cbn [PyStr.split] in Hl.
  - destruct Hl as [<- | []]. destruct Hc.
  - destruct (PyStr.char_eqb x sep).
    + destruct Hl as [<- | Hl]; [destruct Hc | ].
      right. apply (IH line c Hl Hc).
    + destruct (PyStr.split sep s) as [ | w ws] eqn:E.
      * destruct Hl as [<- | []]. destruct Hc as [<- | []]. left. reflexivity.
      * destruct Hl as [<- | Hl].
        -- destruct Hc as [<- | Hc]; [left; reflexivity | ].
           right. apply (IH w c); [left; reflexivity | exact Hc].
        -- right. apply (IH line c); [right; exact Hl | exact Hc].
Qed.

Lemma split_no_sep sep : forall s line,
  In line (PyStr.split sep s) -> ~ In sep line.
Proof.
  induction s as [ | x s IH]; intros line Hl Hc; cbn [PyStr.split] in Hl.
  - destruct Hl as [<- | []]. destruct Hc.
  - destruct (PyStr.char_eqb x sep) eqn:Ex.
    + destruct Hl as [<- | Hl]; [destruct Hc | ]. apply (IH line Hl Hc).
    + destruct (PyStr.split sep s) as [ | w ws] eqn:E.
      * destruct Hl as [<- | []]. destruct Hc as [<- | []].
        unfold PyStr.char_eqb in Ex. rewrite N.eqb_refl in Ex. discriminate.
      * destruct Hl as [<- | Hl].
        -- destruct Hc as [<- | Hc];
             [unfold PyStr.char_eqb in Ex; rewrite N.eqb_refl in Ex;
              discriminate | ].
           apply (IH w); [left; reflexivity | exact Hc].
        -- apply (IH line); [right; exact Hl | exact Hc].
Qed.

(** *** The value and the text of a field *)

Lemma has_decimal_incl (a b : str) :
  (forall c, In c a -> In c b) -> has_decimal a -> has_decimal b.
Proof. intros I (c & Hc & D). exists c. split; [apply I; exact Hc | exact D]. Qed.

Lemma capture_value ic pattern text m v :
  numeric_capture ic pattern = true ->
  In m (matches pattern text ic) ->
  extract_number (capture text m) = Some v ->
  PrimFloat.ltb v 0 = false
  /\ Re.m_start m <= Re.m_end m <= List.length text
  /\ has_decimal (PyStr.slice text (Re.m_start m) (Re.m_end m)).
Proof.
  intros G M E. destruct (@capture_numeric _ _ _ _ G M) as (B & N & I).
  destruct (@extract_number_numeric _ _ N E) as [S D].
  split; [exact S | ]. split; [exact B | ].
  apply (@has_decimal_incl _ _ I D).
Qed.

Lemma table_numeric name patterns pattern :
  In (name, patterns) FIELD_PATTERNS -> In pattern patterns ->
  numeric_capture true pattern = true.
Proof.
  intros H1 H2. pose proof FIELD_PATTERNS_numeric as T.
  rewrite forallb_forall in T. specialize (T _ H1). cbn [snd] in T.
  rewrite forallb_forall in T. apply T. exact H2.
Qed.

Lemma origin_value doc f :
  origin doc f -> PrimFloat.ltb (value f) 0 = false /\ has_decimal doc.
Proof.
  intros H. apply origin_source in H. destruct H as [H | [H | H]].
  - destruct H as (name & patterns & pattern & m & v & H1 & H2 & Hm & Hv & ->).
    destruct (@capture_value _ _ _ _ _ (@table_numeric _ _ _ H1 H2) Hm Hv)
      as (S & _ & D).
    split; [exact S | ]. apply (@has_decimal_incl _ doc) in D; [exact D | ].
    intros c. apply slice_In.
  - destruct H as (n & line & kw & m & v & _ & Hl & _ & _ & Hm & Hv & _ & ->).
    destruct (@capture_value _ _ _ _ _ context_amount_pattern_numeric Hm Hv)
      as (S & _ & D).
    split; [exact S | ]. apply nth_error_In in Hl.
    apply (@has_decimal_incl _ doc) in D; [exact D | ].
    intros c Hc. apply slice_In in Hc. apply (@split_In _ _ _ _ Hl Hc).
  - destruct H as (n & line & m & v & _ & Hl & Hm & Hv & _ & ->).
    destruct (@capture_value _ _ _ _ _ all_amount_pattern_numeric Hm Hv)
      as (S & _ & D).
    split; [exact S | ]. apply nth_error_In in Hl.
    apply (@has_decimal_incl _ doc) in D; [exact D | ].
    intros c Hc. apply slice_In in Hc. apply (@split_In _ _ _ _ Hl Hc).
Qed.

(** *** The fourth indicator: a number in the context *)

Section Search.
Variable R : Type.
Variable ic : bool.

Lemma never_fails_ok : forall r pos s caps
    (k : nat -> str -> Re.captures -> option R),
  never_fails r = true ->
  (forall p' s' c', k p' s' c' <> None) ->
  Re.rmatch ic r pos s caps k <> None.
Proof.
  induction r as [ | c | neg items | r1 IH1 r2 IH2 | r1 IH1 r2 IH2
                 | r1 IH1 | g r1 IH1 ];
    intros pos s caps k N K; cbn [Re.rmatch never_fails] in *;
    try discriminate.
  - apply K.
  - apply andb_true_iff in N. destruct N as [N1 N2].
    apply IH1; [exact N1 | ]. intros p' s' c'. apply IH2; assumption.
  - destruct (Re.rmatch ic r1 pos s caps k) eqn:E; [discriminate | ].
    apply orb_true_iff in N. destruct N as [N1 | N2].
    + destruct (IH1 pos s caps k N1 K E).
    + apply IH2; assumption.
  - destruct (List.length s) as [ | n]; [apply K | ].
    match goal with
    | |- match ?a with _ => _ end <> None => destruct a
    end; [discriminate | apply K].
  - apply IH1; [exact N | ]. intros p' s' c'. apply K.
Qed.

Lemma takes_digit_ok : forall r pos c s caps
    (k : nat -> str -> Re.captures -> option R),
  takes_digit r = true ->
  PyStr.isdecimal c = true ->
  (forall p' s' c', k p' s' c' <> None) ->
  Re.rmatch ic r pos (c :: s) caps k <> None.
Proof.
  induction r as [ | c0 | neg items | r1 IH1 r2 IH2 | r1 IH1 r2 IH2
                 | r1 IH1 | g r1 IH1 ];
    intros pos c s caps k T D K; cbn [Re.rmatch takes_digit] in *;
    try discriminate.
  - destruct neg; [discriminate | ].
    unfold Re.set_match. cbn [xorb].
    replace (existsb (fun i => Re.item_match ic i c) items) with true;
      [apply K | ].
    symmetry. apply existsb_exists. apply existsb_exists in T.
    destruct T as (i & Hi & Di). exists i. split; [exact Hi | ].
    destruct i; try discriminate. exact D.
  - apply andb_true_iff in T. destruct T as [T1 N2].
    apply IH1; [exact T1 | exact D | ].
    intros p' s' c'. apply never_fails_ok; assumption.
  - apply IH1; [exact T | exact D | ]. intros p' s' c'. apply K.
Qed.

End Search.

Lemma search_from_decimal p :
  takes_digit (Re.p_regex p) = true ->
  forall s pos, has_decimal s -> Re.search_from p pos s <> None.
Proof.
  intros T. induction s as [ | c s IH]; intros pos (x & Hx & D);
    [destruct Hx | ].
  cbn [Re.search_from].
  destruct (Re.match_at p pos (c :: s) false) as [m | ] eqn:E;
    [discriminate | ].
  destruct Hx as [<- | Hx].
  - exfalso. revert E. unfold Re.match_at.
    apply takes_digit_ok; [exact T | exact D | ].
    intros p' s' c'. cbn [andb]. discriminate.
  - apply IH. exists x. auto.
Qed.

Lemma has_grouped_number_decimal ctx :
  has_decimal ctx -> has_grouped_number ctx = true.
Proof.
  intros D. unfold has_grouped_number.
  destruct (Re.compile grouped_number_pattern false) as [p | ] eqn:E;
    [ | vm_compute in E; discriminate].
  assert (takes_digit (Re.p_regex p) = true) as T.
  { vm_compute in E. injection E as <-. reflexivity. }
  unfold Re.search.
  destruct (Re.search_from p 0 ctx) eqn:S; [reflexivity | ].
  destruct (search_from_decimal p T 0 D S).
Qed.

Lemma replace_decimal (s : str) :
  has_decimal s -> has_decimal (PyStr.replace newline 32%N s).
Proof.
  intros (c & Hc & D). exists c. split; [ | exact D].
  unfold PyStr.replace. apply in_map_iff. exists c. split; [ | exact Hc].
  destruct (PyStr.char_eqb c newline) eqn:E; [ | reflexivity].
  unfold PyStr.char_eqb in E. apply N.eqb_eq in E. subst c.
  vm_compute in D. discriminate.
Qed.

(** *** The confidence of a field, by its strategy *)

Lemma origin_score doc f :
  origin doc f ->
  (method_is (u"pattern_matching") f
   /\ exists b1 b2,
        confidence f = score_of b1 b2 (PyFloat.gt (value f) 0) true)
  \/ (method_is (u"context_aware") f
      /\ exists b1 b2,
           confidence f = (score_of b1 b2 true true * 0.8)%float)
  \/ (method_is (u"all_amounts") f
      /\ confidence f = 0.5%float /\ category f = BENEFIT).
Proof.
  intros H. apply origin_source in H. destruct H as [H | [H | H]].
  - left.
    destruct H as (name & patterns & pattern & m & v & H1 & H2 & Hm & Hv & ->).
    destruct (@capture_value _ _ _ _ _ (@table_numeric _ _ _ H1 H2) Hm Hv)
      as (_ & B & D).
    unfold method_is, pattern_field; cbn [extraction_method confidence value].
    split; [reflexivity | ].
    set (ctx := PyStr.replace newline 32%N
                  (PyStr.slice doc (Nat.max 0 (Re.m_start m - 50))
                     (Nat.min (List.length doc) (Re.m_end m + 50)))).
    destruct (score_cases name v ctx) as (b1 & b2 & E).
    exists b1, b2. rewrite E. f_equal.
    apply has_grouped_number_decimal. apply replace_decimal.
    apply (@has_decimal_incl _ _ ) with (2 := D).
    intros c. apply slice_incl; lia.
  - right; left.
    destruct H as (n & line & kw & m & v & _ & _ & _ & _ & Hm & Hv & G & ->).
    destruct (@capture_value _ _ _ _ _ context_amount_pattern_numeric Hm Hv)
      as (_ & _ & D).
    unfold method_is, context_field; cbn [extraction_method confidence].
    split; [reflexivity | ].
    destruct (score_cases (kw ++ u"_line_" ++ PyStr.of_nat n) v line)
      as (b1 & b2 & E).
    exists b1, b2. rewrite E, G. do 2 f_equal.
    apply has_grouped_number_decimal.
    apply (@has_decimal_incl _ _ ) with (2 := D). intros c. apply slice_In.
  - right; right.
    destruct H as (n & line & m & v & _ & _ & _ & _ & _ & ->).
    unfold method_is, amount_field;
      cbn [extraction_method confidence category].
    repeat split.
Qed.

(** ** Confidence, strategy by strategy *)

(** X7: after any calls of [parse], a field of the pattern matcher has a
    confidence between 0.6 and 1.0 (at least 0.7 when its value is
    positive), a field of the context scanner between 0.7 * 0.8 and 0.8,
    and a field of the exhaustive scanner exactly 0.5, with the category
    [BENEFIT]: it is never counted as a high-confidence field nor in a
    total. So every field of the exhaustive scanner has a smaller
    confidence than every field of the other two strategies, and comes
    after them in the result. *)
Theorem confidence_by_strategy : forall doc s,
  reached doc s ->
  Forall
    (fun f =>
       (extraction_method f = Some (u"pattern_matching")
        /\ PrimFloat.leb 0.6 (confidence f) = true
        /\ PrimFloat.leb (confidence f) 1.0 = true
        /\ (PyFloat.gt (value f) 0 = true ->
            PrimFloat.leb 0.7 (confidence f) = true))
       \/ (extraction_method f = Some (u"context_aware")
           /\ PrimFloat.leb (0.7 * 0.8) (confidence f) = true
           /\ PrimFloat.leb (confidence f) 0.8 = true)
       \/ (extraction_method f = Some (u"all_amounts")
           /\ confidence f = 0.5%float
           /\ category f = BENEFIT
           /\ high_confidence f = false
           /\ forall c, counted_as c f = false))
    (parsed_fields s)
  /\ forall f g,
       In f (parsed_fields s) -> In g (parsed_fields s) ->
       extraction_method f <> Some (u"all_amounts") ->
       extraction_method g = Some (u"all_amounts") ->
       PrimFloat.ltb (confidence g) (confidence f) = true.
Proof.
  intros doc s R.
  assert (forall f, In f (parsed_fields s) ->
            (extraction_method f = Some (u"pattern_matching")
             /\ exists b1 b2,
                  confidence f = score_of b1 b2 (PyFloat.gt (value f) 0) true)
            \/ (extraction_method f = Some (u"context_aware")
                /\ exists b1 b2,
                     confidence f = (score_of b1 b2 true true * 0.8)%float)
            \/ (extraction_method f = Some (u"all_amounts")
                /\ confidence f = 0.5%float /\ category f = BENEFIT)) as H.
  { intros f Hf. apply (@origin_score doc). apply (reached_inv R). exact Hf. }
  split.
  - apply Forall_forall. intros f Hf.
    destruct (H f Hf) as [(M & b1 & b2 & E) | [(M & b1 & b2 & E) | (M & E & C)]].
    + left. split; [exact M | ]. rewrite E.
      destruct b1, b2, (PyFloat.gt (value f) 0);
        (split; [reflexivity | split; [reflexivity | ]]);
        intros G; try discriminate G; reflexivity.
    + right; left. split; [exact M | ]. rewrite E.
      destruct b1, b2; split; reflexivity.
    + right; right. split; [exact M | ]. split; [exact E | ].
      split; [exact C | ]. unfold high_confidence, counted_as. rewrite E.
      split; [reflexivity | ]. intros c. apply andb_false_r.
  - intros f g Hf Hg Nf Mg.
    destruct (H g Hg) as [(M & _) | [(M & _) | (_ & Eg & _)]];
      [rewrite M in Mg; vm_compute in Mg; discriminate
      | rewrite M in Mg; vm_compute in Mg; discriminate | ].
    rewrite Eg.
    destruct (H f Hf) as [(_ & b1 & b2 & E) | [(_ & b1 & b2 & E) | (M & _)]];
      [ | | contradiction].
    + rewrite E. destruct b1, b2, (PyFloat.gt (value f) 0); reflexivity.
    + rewrite E. destruct b1, b2; reflexivity.
Qed.

Lemma confidence_by_strategy_witness :
  reached sample_document sample_parsed
  /\ Forall
       (fun f =>
          (extraction_method f = Some (u"pattern_matching")
           /\ PrimFloat.leb 0.6 (confidence f) = true
           /\ PrimFloat.leb (confidence f) 1.0 = true
           /\ (PyFloat.gt (value f) 0 = true ->
               PrimFloat.leb 0.7 (confidence f) = true))
          \/ (extraction_method f = Some (u"context_aware")
              /\ PrimFloat.leb (0.7 * 0.8) (confidence f) = true
              /\ PrimFloat.leb (confidence f) 0.8 = true)
          \/ (extraction_method f = Some (u"all_amounts")
              /\ confidence f = 0.5%float
              /\ category f = BENEFIT
              /\ high_confidence f = false
              /\ forall c, counted_as c f = false))
       (parsed_fields sample_parsed)
  /\ (forall f g,
        In f (parsed_fields sample_parsed) ->
        In g (parsed_fields sample_parsed) ->
        extraction_method f <> Some (u"all_amounts") ->
        extraction_method g = Some (u"all_amounts") ->
        PrimFloat.ltb (confidence g) (confidence f) = true)
  /\ map extraction_method (parsed_fields sample_parsed)
     = [Some (u"pattern_matching"); Some (u"context_aware");
        Some (u"context_aware"); Some (u"context_aware");
        Some (u"all_amounts")]
  /\ map confidence (parsed_fields sample_parsed)
     = [1; 0.55999999999999994; 0.55999999999999994; 0.55999999999999994;
        0.5]%float.
Proof.
  split; [exact sample_reached | ].
  split;
    [exact (proj1 (@confidence_by_strategy sample_document sample_parsed
                     sample_reached)) | ].
  split;
    [exact (proj2 (@confidence_by_strategy sample_document sample_parsed
                     sample_reached)) | ].
  vm_compute. split; reflexivity.
Defined.

Lemma remove_twice c : forall s,
  PyStr.remove c (PyStr.remove c s) = PyStr.remove c s.
Proof.
  unfold PyStr.remove. induction s as [ | x s IH]; [reflexivity | ].
  cbn [filter]. destruct (negb (PyStr.char_eqb x c)) eqn:E; [ | exact IH].
  cbn [filter]. rewrite E, IH. reflexivity.
Qed.

(** ** The numbers read *)

Lemma numeric_forallb s : forallb numeric_char s = true -> numeric s.
Proof.
  intros H. apply Forall_forall. intros c Hc.
  rewrite forallb_forall in H. apply H. exact Hc.
Qed.

Lemma no_decimal_forallb (s : str) :
  forallb (fun c => negb (PyStr.isdecimal c)) s = true ->
  forall c, In c s -> PyStr.isdecimal c = false.
Proof.
  intros H c Hc. rewrite forallb_forall in H.
  apply negb_true_iff. apply H. exact Hc.
Qed.


(** X8: on a text of decimal digits, commas and dots (what the patterns
    capture), [extract_number] reads the text without its commas; a number
    it returns is never below zero, and it returns [None] when the text
    has no decimal digit. *)
Theorem extract_number_of_capture : forall text,
  numeric text ->
  extract_number text = extract_number (PyStr.remove 44%N text)
  /\ (forall v, extract_number text = Some v ->
                PrimFloat.ltb v 0 = false /\ has_decimal text)
  /\ ((forall c, In c text -> PyStr.isdecimal c = false) ->
      extract_number text = None).
Proof.
  intros text N. split; [ | split].
  - unfold extract_number. rewrite remove_twice. reflexivity.
  - intros v E. apply (@extract_number_numeric _ _ N E).
  - intros D. destruct (extract_number text) as [v | ] eqn:E; [ | reflexivity].
    destruct (@extract_number_numeric _ _ N E) as (_ & c & Hc & Dc).
    rewrite (D c Hc) in Dc. discriminate.
Qed.

Lemma extract_number_of_capture_witness :
  numeric (u"1,00,000.50")
  /\ extract_number (u"1,00,000.50")
     = extract_number (PyStr.remove 44%N (u"1,00,000.50"))
  /\ (forall v, extract_number (u"1,00,000.50") = Some v ->
                PrimFloat.ltb v 0 = false /\ has_decimal (u"1,00,000.50"))
  /\ ((forall c, In c (u"1,00,000.50") -> PyStr.isdecimal c = false) ->
      extract_number (u"1,00,000.50") = None).
Proof.
  assert (numeric (u"1,00,000.50")) as N.
  { apply numeric_forallb. vm_compute. reflexivity. }
  split; [exact N | ].
  apply (@extract_number_of_capture (u"1,00,000.50") N).
Defined.

(** X9: after any calls of [parse], no accumulated field has a value
    below zero, and a parser that holds a field was made for a document
    with a decimal digit in it. *)
Theorem values_never_negative : forall doc s,
  reached doc s ->
  Forall (fun f => PrimFloat.ltb (value f) 0 = false) (parsed_fields s)
  /\ (parsed_fields s <> [] -> has_decimal doc).
Proof.
  intros doc s R. split.
  - apply Forall_forall. intros f Hf.
    apply (@origin_value doc). apply (reached_inv R). exact Hf.
  - intros N. destruct (parsed_fields s) as [ | f l] eqn:E;
      [destruct N; reflexivity | ].
    apply (@origin_value doc f). apply (reached_inv R).
    rewrite E. left. reflexivity.
Qed.

Lemma values_never_negative_witness :
  reached (u"Annual Premium: Rs. 500")
    (after_parse (__init__ (u"Annual Premium: Rs. 500")) true)
  /\ Forall (fun f => PrimFloat.ltb (value f) 0 = false)
       (parsed_fields
          (after_parse (__init__ (u"Annual Premium: Rs. 500")) true)).
Proof.
  assert (reached (u"Annual Premium: Rs. 500")
            (after_parse (__init__ (u"Annual Premium: Rs. 500")) true))
    as R.
  { apply (@reached_parse (u"Annual Premium: Rs. 500")
             (__init__ (u"Annual Premium: Rs. 500")) true []
             (parse_results (__init__ (u"Annual Premium: Rs. 500")) true [])
             _).
    - apply reached_init.
    - apply parse_spec. }
  split; [exact R | ].
  apply (proj1 (@values_never_negative (u"Annual Premium: Rs. 500") _ R)).
Defined.

Lemma no_member_nil {A : Type} (l : list A) :
  (forall x, ~ In x l) -> l = [].
Proof.
  destruct l as [ | x l]; [reflexivity | ].
  intros H. destruct (H x). left. reflexivity.
Qed.

(** X10: a document without a decimal digit gives nothing: no field from
    any strategy, zero counts, empty summary maps and zero totals. *)
Theorem no_digit_no_field : forall doc flag now,
  (forall c, In c doc -> PyStr.isdecimal c = false) ->
  exists r s',
    parse (__init__ doc) flag now = Ok (r, s')
    /\ parsed_fields s' = []
    /\ fields r = []
    /\ total_fields_extracted (metadata r) = 0
    /\ pattern_matches (metadata r) = 0
    /\ context_matches (metadata r) = 0
    /\ by_category (summary r) = []
    /\ by_currency (summary r) = []
    /\ high_confidence_fields (summary r) = 0
    /\ total_premium_amount (summary r) = 0%float
    /\ total_coverage_amount (summary r) = 0%float
    /\ total_claims_amount (summary r) = 0%float.
Proof.
  intros doc flag now D.
  exists (parse_results (__init__ doc) flag now),
    (after_parse (__init__ doc) flag).
  pose proof (parse_spec (__init__ doc) flag now) as P.
  pose proof (@reached_parse _ _ _ _ _ _ (reached_init doc) P) as R.
  split; [exact P | ].
  assert (forall f, ~ origin doc f) as No.
  { intros f Hf. destruct (@origin_value doc f Hf) as (_ & c & Hc & Dc).
    rewrite (D c Hc) in Dc. discriminate. }
  assert (parsed_fields (after_parse (__init__ doc) flag) = []) as E.
  { apply no_member_nil. intros f Hf. apply (No f).
    apply (reached_inv R). exact Hf. }
  assert (round_patterns (__init__ doc) = []) as E1.
  { apply no_member_nil. intros f Hf. apply (No f). left. exact Hf. }
  assert (round_context (__init__ doc) = []) as E2.
  { apply no_member_nil. intros f Hf. apply (No f). right; left.
    apply round_context_candidates in Hf. apply Hf. }
  unfold parse_results.
  cbn [metadata fields summary total_fields_extracted pattern_matches
       context_matches].
  unfold _generate_summary. rewrite E, E1, E2. cbn [map List.length fold_left].
  cbn [by_category by_currency high_confidence_fields total_premium_amount
       total_coverage_amount total_claims_amount].
  repeat split.
Qed.

Lemma no_digit_no_field_witness :
  (forall c, In c (u"Premium: to be advised") -> PyStr.isdecimal c = false)
  /\ exists r s',
       parse (__init__ (u"Premium: to be advised")) true [] = Ok (r, s')
       /\ parsed_fields s' = []
       /\ fields r = []
       /\ total_fields_extracted (metadata r) = 0
       /\ pattern_matches (metadata r) = 0
       /\ context_matches (metadata r) = 0
       /\ by_category (summary r) = []
       /\ by_currency (summary r) = []
       /\ high_confidence_fields (summary r) = 0
       /\ total_premium_amount (summary r) = 0%float
       /\ total_coverage_amount (summary r) = 0%float
       /\ total_claims_amount (summary r) = 0%float.
Proof.
  assert (forall c, In c (u"Premium: to be advised") ->
                    PyStr.isdecimal c = false) as D.
  { apply no_decimal_forallb. vm_compute. reflexivity. }
  split; [exact D | ].
  apply (@no_digit_no_field (u"Premium: to be advised") true [] D).
Defined.

(** ** Calling [parse] again *)

Lemma not_fresh_mono e1 e2 g :
  (forall f, In f e1 -> In f e2) ->
  fresh e1 g = false -> fresh e2 g = false.
Proof.
  intros S F. destruct (fresh e2 g) eqn:E; [ | reflexivity].
  rewrite (fresh_mono e1 e2 g S E) in F. discriminate.
Qed.

Lemma after_parse_keeps self flag f :
  In f (parsed_fields self) -> In f (parsed_fields (after_parse self flag)).
Proof. intros H. apply after_parse_fields. left. exact H. Qed.

(** After a call, with finite values, the scanners have nothing left. *)
Lemma after_parse_saturated self flag :
  (forall f, In f (parsed_fields (after_parse self flag)) ->
             PrimFloat.is_finite (value f) = true) ->
  saturated (after_parse self flag) flag.
Proof.
  intros N. split.
  - intros g Hg.
    change (lines (after_parse self flag)) with (lines self) in Hg.
    apply not_fresh_again with (e1 := parsed_fields self ++ round_patterns self).
    + intros f Hf. apply after_parse_fields. apply in_app_or in Hf. tauto.
    + apply context_candidates_inv in Hg.
      destruct Hg as (n & line & kw & v & _ & _ & _ & -> & _).
      exists n. reflexivity.
    + intros Fr.
      assert (In g (parsed_fields (after_parse self flag))) as H1.
      { apply after_parse_fields. right; right; left.
        unfold round_context. apply filter_In. split; assumption. }
      split; [exact H1 | apply finite_near_self, N; exact H1].
  - intros -> g Hg.
    change (lines (after_parse self true)) with (lines self) in Hg.
    apply not_fresh_again
      with (e1 := (parsed_fields self ++ round_patterns self)
                  ++ round_context self).
    + intros f Hf. apply after_parse_fields.
      apply in_app_or in Hf. destruct Hf as [Hf | Hf]; [ | tauto].
      apply in_app_or in Hf. tauto.
    + apply amount_candidates_inv in Hg.
      destruct Hg as (n & line & m & v & _ & _ & -> & _).
      exists n. reflexivity.
    + intros Fr.
      assert (In g (parsed_fields (after_parse self true))) as H1.
      { apply after_parse_fields. right; right; right.
        unfold round_amounts. apply filter_In. split; assumption. }
      split; [exact H1 | apply finite_near_self, N; exact H1].
Qed.

(** On a parser whose scanners have nothing left, a call adds the fields
    of the pattern matcher and nothing else. *)
Lemma saturated_round self flag :
  saturated self flag ->
  round_context self = [] /\ round_amounts self flag = [].
Proof.
  intros [Sc Sa]. split.
  - unfold round_context. apply filter_none. intros g Hg.
    apply not_fresh_mono with (e1 := parsed_fields self);
      [intros f Hf; apply in_or_app; left; exact Hf | apply Sc; exact Hg].
  - unfold round_amounts. destruct flag; [ | reflexivity].
    apply filter_none. intros g Hg.
    apply not_fresh_mono with (e1 := parsed_fields self);
      [ | apply Sa; [reflexivity | exact Hg]].
    intros f Hf. apply in_or_app; left. apply in_or_app; left. exact Hf.
Qed.

Lemma saturated_after self flag :
  saturated self flag -> saturated (after_parse self flag) flag.
Proof.
  intros [Sc Sa]. split.
  - intros g Hg.
    change (lines (after_parse self flag)) with (lines self) in Hg.
    apply not_fresh_mono with (e1 := parsed_fields self);
      [apply after_parse_keeps | apply Sc; exact Hg].
  - intros E g Hg.
    change (lines (after_parse self flag)) with (lines self) in Hg.
    apply not_fresh_mono with (e1 := parsed_fields self);
      [apply after_parse_keeps | apply Sa; [exact E | exact Hg]].
Qed.

Lemma saturated_counts self flag now :
  saturated self flag ->
  pattern_matches (metadata (parse_results self flag now))
  = List.length (round_patterns self)
  /\ context_matches (metadata (parse_results self flag now)) = 0
  /\ total_fields_extracted (metadata (parse_results self flag now))
     = List.length (parsed_fields self) + List.length (round_patterns self)
  /\ List.length (parsed_fields (after_parse self flag))
     = List.length (parsed_fields self) + List.length (round_patterns self).
Proof.
  intros S. destruct (saturated_round S) as [Ec Ea].
  assert (List.length (parsed_fields (after_parse self flag))
          = List.length (parsed_fields self)
            + List.length (round_patterns self)) as L.
  { unfold after_parse; cbn [parsed_fields].
    rewrite sort_length, Ec, Ea, !app_nil_r, length_app. reflexivity. }
  unfold parse_results.
  cbn [metadata total_fields_extracted pattern_matches context_matches].
  rewrite Ec. split; [reflexivity | ]. split; [reflexivity | ].
  split; exact L.
Qed.

Lemma parse_again_saturated flag : forall nows self,
  saturated self flag ->
  exists rs s,
    parse_again self flag nows = Ok (rs, s)
    /\ List.length rs = List.length nows
    /\ forall k r,
         nth_error rs k = Some r ->
         pattern_matches (metadata r) = List.length (round_patterns self)
         /\ context_matches (metadata r) = 0
         /\ total_fields_extracted (metadata r)
            = List.length (parsed_fields self)
              + (k + 1) * List.length (round_patterns self).
Proof.
  induction nows as [ | now nows IH]; intros self S; cbn [parse_again].
  - exists [], self. split; [reflexivity | ]. split; [reflexivity | ].
    intros k r H. destruct k; discriminate.
  - rewrite parse_spec. cbn [bind fst snd].
    destruct (IH (after_parse self flag) (saturated_after S))
      as (rs & s & E & L & H).
    rewrite E. cbn [bind fst snd].
    exists (parse_results self flag now :: rs), s.
    split; [reflexivity | ]. split; [cbn [List.length]; rewrite L; reflexivity | ].
    destruct (saturated_counts now S) as (C1 & C2 & C3 & C4).
    intros k r Hk. destruct k as [ | k]; cbn [nth_error] in Hk.
    + injection Hk as <-. split; [exact C1 | ]. split; [exact C2 | ].
      rewrite C3. lia.
    + destruct (H k r Hk) as (H1 & H2 & H3).
      change (round_patterns (after_parse self flag))
        with (round_patterns self) in *.
      split; [exact H1 | ]. split; [exact H2 | ].
      rewrite H3, C4. lia.
Qed.

(** X11: when a call of [parse] has left only finite values, every later
    call with the same flag adds the fields of the pattern matcher once
    more and nothing else, whatever the parser held before: the [k]-th
    later call reports no context match, the same pattern matches, and a
    total that has grown by [k] times the pattern matches. *)
Theorem repeated_parse_adds_pattern_fields : forall self flag now nows,
  exists r1 s1 rs s,
    parse self flag now = Ok (r1, s1)
    /\ parse_again s1 flag nows = Ok (rs, s)
    /\ List.length rs = List.length nows
    /\ ((forall f, In f (parsed_fields s1) ->
                   PrimFloat.is_finite (value f) = true) ->
        forall k r,
          nth_error rs k = Some r ->
          pattern_matches (metadata r) = pattern_matches (metadata r1)
          /\ context_matches (metadata r) = 0
          /\ total_fields_extracted (metadata r)
             = total_fields_extracted (metadata r1)
               + (k + 1) * pattern_matches (metadata r1)).
Proof.
  intros self flag now nows.
  exists (parse_results self flag now), (after_parse self flag).
  assert (exists rs s,
            parse_again (after_parse self flag) flag nows = Ok (rs, s)
            /\ List.length rs = List.length nows
            /\ (saturated (after_parse self flag) flag ->
                forall k r,
                  nth_error rs k = Some r ->
                  pattern_matches (metadata r)
                  = List.length (round_patterns (after_parse self flag))
                  /\ context_matches (metadata r) = 0
                  /\ total_fields_extracted (metadata r)
                     = List.length (parsed_fields (after_parse self flag))
                       + (k + 1)
                         * List.length
                             (round_patterns (after_parse self flag)))) as H.
  { clear. generalize (after_parse self flag) as s1. clear. intros s1.
    revert s1. induction nows as [ | now nows IH]; intros s1;
      cbn [parse_again].
    - exists [], s1. split; [reflexivity | ]. split; [reflexivity | ].
      intros _ k r H. destruct k; discriminate.
    - rewrite parse_spec. cbn [bind fst snd].
      destruct (IH (after_parse s1 flag)) as (rs & s & E & L & _).
      rewrite E. cbn [bind fst snd].
      exists (parse_results s1 flag now :: rs), s.
      split; [reflexivity | ].
      split; [cbn [List.length]; rewrite L; reflexivity | ].
      intros S.
      destruct (parse_again_saturated (now :: nows) S) as (rs' & s' & E' & _ & H').
      cbn [parse_again] in E'. rewrite parse_spec in E'.
      cbn [bind fst snd] in E'. rewrite E in E'. cbn [bind fst snd] in E'.
      injection E' as <- <-. exact H'. }
  destruct H as (rs & s & E & L & H). exists rs, s.
  split; [apply parse_spec | ]. split; [exact E | ]. split; [exact L | ].
  intros N k r Hk.
  destruct (H (after_parse_saturated self flag N) k r Hk) as (H1 & H2 & H3).
  unfold parse_results at 1 2 3.
  cbn [metadata total_fields_extracted pattern_matches].
  change (round_patterns (after_parse self flag))
    with (round_patterns self) in *.
  split; [exact H1 | ]. split; [exact H2 | exact H3].
Qed.

(** ** The category of every field *)





(** ** How many fields the context scanner makes *)

Lemma flat_map_length {A B : Type} (f : A -> list B) : forall l,
  List.length (flat_map f l) = list_sum (map (fun x => List.length (f x)) l).
Proof.
  induction l as [ | x l IH]; [reflexivity | ].
  cbn [flat_map map list_sum fold_right]. rewrite length_app, IH.
  reflexivity.
Qed.

Lemma context_candidates_for_length i line keyword :
  List.length (context_candidates_for i line keyword)
  = List.length (positive_amounts line).
Proof.
  unfold context_candidates_for, positive_amounts.
  induction (matches context_amount_pattern line false) as [ | m ms IH];
    [reflexivity | ].
  cbn [flat_map filter]. cbn zeta.
  destruct (is_positive (extract_number (capture line m)));
    cbn [app List.length]; rewrite IH; reflexivity.
Qed.

Lemma context_candidates_on_length i line :
  List.length (context_candidates_on i line)
  = List.length (keyword_hits line) * List.length (positive_amounts line).
Proof.
  unfold context_candidates_on, keyword_hits.
  induction keywords as [ | kw kws IH]; [reflexivity | ].
  cbn [flat_map filter]. rewrite length_app, IH.
  destruct (PyStr.contains kw (PyStr.lower line)); cbn [List.length].
  - rewrite context_candidates_for_length. lia.
  - reflexivity.
Qed.

Lemma context_candidates_length : forall ls i,
  List.length (context_candidates i ls)
  = list_sum
      (map (fun line =>
              List.length (keyword_hits line)
              * List.length (positive_amounts line)) ls).
Proof.
  induction ls as [ | line ls IH]; intros i; [reflexivity | ].
  cbn [context_candidates map list_sum fold_right].
  rewrite length_app, context_candidates_on_length, IH. reflexivity.
Qed.

Lemma filter_all {A : Type} (p : A -> bool) : forall l,
  (forall x, In x l -> p x = true) -> filter p l = l.
Proof.
  induction l as [ | x l IH]; intros H; [reflexivity | ].
  cbn [filter]. rewrite (H x (or_introl eq_refl)). f_equal.
  apply IH. intros y Hy. apply H. right. exact Hy.
Qed.

Lemma fresh_nil g : fresh [] g = true.
Proof. unfold fresh. destruct (line_number g); reflexivity. Qed.

(** X13: the context scanner makes one field for every pair of a keyword
    that occurs in a line and a positive amount of that line: on a parser
    that holds no field yet it returns, for each line, as many fields as
    the product of the two numbers, and on any parser at most as many. *)
Theorem context_scanner_pairs : forall self,
  exists cs,
    parse_context_aware self = Ok cs
    /\ List.length cs
       <= list_sum
            (map (fun line =>
                    List.length (keyword_hits line)
                    * List.length (positive_amounts line)) (lines self))
    /\ (parsed_fields self = [] ->
        List.length cs
        = list_sum
            (map (fun line =>
                    List.length (keyword_hits line)
                    * List.length (positive_amounts line)) (lines self))).
Proof.
  intros self. rewrite parse_context_aware_spec.
  eexists. split; [reflexivity | ].
  rewrite <- (context_candidates_length (lines self) 1). split.
  - apply List.filter_length_le.
  - intros E. rewrite E. rewrite filter_all; [reflexivity | ].
    intros g _. apply fresh_nil.
Qed.

(** ** The context of a field *)

Lemma lstrip_split : forall s,
  exists p, s = p ++ PyStr.lstrip s /\ no_blank_first (PyStr.lstrip s).
Proof.
  induction s as [ | c s IH]; cbn [PyStr.lstrip].
  - exists []. split; [reflexivity | exact I].
  - destruct (PyStr.isspace c) eqn:E.
    + destruct IH as (p & Ep & N). exists (c :: p).
      split; [cbn [app]; f_equal; exact Ep | exact N].
    + exists []. split; [reflexivity | exact E].
Qed.

Lemma no_blank_first_prefix (a b : str) :
  no_blank_first (a ++ b) -> no_blank_first a.
Proof. destruct a as [ | c a]; [intros _; exact I | auto]. Qed.

Lemma strip_spec s :
  trimmed (PyStr.strip s)
  /\ exists p q, s = p ++ PyStr.strip s ++ q.
Proof.
  unfold PyStr.strip, PyStr.rstrip.
  destruct (lstrip_split s) as (p & Ep & Np).
  set (t := PyStr.lstrip s) in *.
  destruct (lstrip_split (rev t)) as (q & Eq & Nq).
  set (w := PyStr.lstrip (rev t)) in *.
  assert (t = rev w ++ rev q) as Et.
  { rewrite <- (rev_involutive t), Eq, rev_app_distr. reflexivity. }
  split.
  - split; [ | rewrite rev_involutive; exact Nq].
    rewrite Et in Np. apply (no_blank_first_prefix _ _ Np).
  - exists p, (rev q). rewrite <- Et. exact Ep.
Qed.

Lemma strip_In s c : In c (PyStr.strip s) -> In c s.
Proof.
  destruct (strip_spec s) as (_ & p & q & E). intros H.
  rewrite E. apply in_or_app. right. apply in_or_app. left. exact H.
Qed.

Lemma strip_length s : List.length (PyStr.strip s) <= List.length s.
Proof.
  destruct (strip_spec s) as (_ & p & q & E).
  rewrite E at 2. rewrite !length_app. lia.
Qed.

Lemma replace_no_old old new s :
  new <> old -> ~ In old (PyStr.replace old new s).
Proof.
  intros N H. unfold PyStr.replace in H. apply in_map_iff in H.
  destruct H as (c & E & _).
  destruct (PyStr.char_eqb c old) eqn:Ec; [contradiction | ].
  subst c. unfold PyStr.char_eqb in Ec. rewrite N.eqb_refl in Ec.
  discriminate.
Qed.

Lemma slice_length_le doc a b : List.length (PyStr.slice doc a b) <= b - a.
Proof. unfold PyStr.slice. apply firstn_le_length. Qed.

(** X14: after any calls of [parse], the context of every accumulated
    field holds no line break and neither begins nor ends with a blank.
    A field of the pattern matcher is made from a match of a pattern of
    its table entry in the document; its context is the document from 50
    characters before the match to 50 characters after it, line breaks
    turned into spaces, stripped, and is at most 100 characters longer
    than the match. The context of a field of a scanner is the stripped
    line of the field's line number. *)
Theorem context_of_every_field : forall doc s,
  reached doc s ->
  Forall
    (fun f =>
       ~ In newline (context f)
       /\ trimmed (context f)
       /\ ((extraction_method f = Some (u"pattern_matching")
            /\ exists name patterns pattern m v,
                 In (name, patterns) FIELD_PATTERNS
                 /\ In pattern patterns
                 /\ In m (matches pattern doc true)
                 /\ extract_number (capture doc m) = Some v
                 /\ f = pattern_field doc name (m, v)
                 /\ context f
                    = PyStr.strip
                        (PyStr.replace newline 32%N
                           (PyStr.slice doc (Nat.max 0 (Re.m_start m - 50))
                              (Nat.min (List.length doc) (Re.m_end m + 50))))
                 /\ List.length (context f)
                    <= (Re.m_end m - Re.m_start m) + 100)
           \/ ((extraction_method f = Some (u"context_aware")
                \/ extraction_method f = Some (u"all_amounts"))
               /\ exists n line,
                    line_number f = Some n
                    /\ nth_error (PyStr.split newline doc) (n - 1)
                       = Some line
                    /\ context f = PyStr.strip line)))
    (parsed_fields s).
Proof.
  intros doc s R. apply Forall_forall. intros f Hf.
  apply (reached_inv R) in Hf. apply origin_source in Hf.
  assert (forall n line,
            nth_error (PyStr.split newline doc) (n - 1) = Some line ->
            ~ In newline (PyStr.strip line)) as NoNl.
  { intros n line Hl H. apply strip_In in H. apply nth_error_In in Hl.
    apply (split_no_sep _ _ _ Hl H). }
  destruct Hf as [H | [H | H]].
  - destruct H as (name & patterns & pattern & m & v & H1 & H2 & Hm & Hv & ->).
    split; [ | split; [apply strip_spec | left]].
    + unfold pattern_field; cbn [context].
      intros H. apply strip_In in H. revert H. apply replace_no_old.
      discriminate.
    + split; [reflexivity | ].
      exists name, patterns, pattern, m, v.
      split; [exact H1 | ]. split; [exact H2 | ]. split; [exact Hm | ].
      split; [exact Hv | ]. split; [reflexivity | ].
      split; [reflexivity | ].
      destruct (@capture_value _ _ _ _ _ (@table_numeric _ _ _ H1 H2) Hm Hv)
        as (_ & B & _).
      unfold pattern_field; cbn [context].
      eapply Nat.le_trans; [apply strip_length | ].
      unfold PyStr.replace. rewrite length_map.
      eapply Nat.le_trans; [apply slice_length_le | ]. lia.
  - destruct H as (n & line & kw & m & v & _ & Hl & _ & _ & _ & _ & _ & ->).
    unfold context_field; cbn [context line_number extraction_method].
    split; [apply (NoNl n line Hl) | ].
    split; [apply strip_spec | right].
    split; [left; reflexivity | ]. exists n, line. auto.
  - destruct H as (n & line & m & v & _ & Hl & _ & _ & _ & ->).
    unfold amount_field; cbn [context line_number extraction_method].
    split; [apply (NoNl n line Hl) | ].
    split; [apply strip_spec | right].
    split; [right; reflexivity | ]. exists n, line. auto.
Qed.

Lemma context_of_every_field_witness :
  reached sample_document sample_parsed
  /\ Forall
       (fun f =>
          ~ In newline (context f)
          /\ trimmed (context f)
          /\ ((extraction_method f = Some (u"pattern_matching")
               /\ exists name patterns pattern m v,
                    In (name, patterns) FIELD_PATTERNS
                    /\ In pattern patterns
                    /\ In m (matches pattern sample_document true)
                    /\ extract_number (capture sample_document m) = Some v
                    /\ f = pattern_field sample_document name (m, v)
                    /\ context f
                       = PyStr.strip
                           (PyStr.replace newline 32%N
                              (PyStr.slice sample_document
                                 (Nat.max 0 (Re.m_start m - 50))
                                 (Nat.min (List.length sample_document)
                                    (Re.m_end m + 50))))
                    /\ List.length (context f)
                       <= (Re.m_end m - Re.m_start m) + 100)
              \/ ((extraction_method f = Some (u"context_aware")
                   \/ extraction_method f = Some (u"all_amounts"))
                  /\ exists n line,
                       line_number f = Some n
                       /\ nth_error (PyStr.split newline sample_document)
                            (n - 1) = Some line
                       /\ context f = PyStr.strip line)))
       (parsed_fields sample_parsed)
  /\ map extraction_method (parsed_fields sample_parsed)
     = [Some (u"pattern_matching"); Some (u"context_aware");
        Some (u"context_aware"); Some (u"context_aware");
        Some (u"all_amounts")]
  /\ map context (parsed_fields sample_parsed)
     = [u"Policy schedule Annual Premium: Rs. 500 claim fee 20 premium due $ 30 refund USD 75";
        u"claim fee 20"; u"claim fee 20"; u"premium due $ 30";
        u"refund USD 75"].
Proof.
  split; [exact sample_reached | ].
  split;
    [exact (@context_of_every_field sample_document sample_parsed
              sample_reached) | ].
  vm_compute. split; reflexivity.
Defined.

(** ** The two ways of numbering lines *)

Lemma split_cons sep s : exists w ws, PyStr.split sep s = w :: ws.
Proof.
  destruct s as [ | c s]; cbn [PyStr.split]; [eauto | ].
  destruct (PyStr.char_eqb c sep); [eauto | ].
  destruct (PyStr.split sep s); eauto.
Qed.

(** The lines of a text cut in two: the lines of the first part, the last
    of them continued by the first line of the second part. *)
Lemma split_app sep : forall a b,
  exists ls pre post rest,
    PyStr.split sep a = ls ++ [pre]
    /\ PyStr.split sep b = post :: rest
    /\ PyStr.split sep (a ++ b) = ls ++ (pre ++ post) :: rest.
Proof.
  induction a as [ | c a IH]; intros b.
  - destruct (split_cons sep b) as (w & ws & E).
    exists [], [], w, ws. cbn [app PyStr.split]. auto.
  - destruct (IH b) as (ls & pre & post & rest & Ea & Eb & Eab).
    cbn [app PyStr.split]. rewrite Ea, Eab.
    destruct (PyStr.char_eqb c sep).
    + exists ([] :: ls), pre, post, rest. cbn [app]. auto.
    + destruct ls as [ | l ls]; cbn [app].
      * exists [], (c :: pre), post, rest. cbn [app]. auto.
      * exists ((c :: l) :: ls), pre, post, rest. cbn [app]. auto.
Qed.

Lemma split_at sep doc p :
  exists pre post rest,
    PyStr.split sep (PyStr.slice doc 0 p)
    = firstn (PyStr.count sep (PyStr.slice doc 0 p)) (PyStr.split sep doc)
      ++ [pre]
    /\ PyStr.split sep (skipn p doc) = post :: rest
    /\ nth_error (PyStr.split sep doc) (PyStr.count sep (PyStr.slice doc 0 p))
       = Some (pre ++ post).
Proof.
  unfold PyStr.slice. rewrite Nat.sub_0_r. cbn [skipn].
  destruct (split_app sep (firstn p doc) (skipn p doc))
    as (ls & pre & post & rest & Ea & Eb & Eab).
  rewrite firstn_skipn in Eab.
  assert (PyStr.count sep (firstn p doc) = List.length ls) as K.
  { pose proof (split_length sep (firstn p doc)) as L.
    rewrite Ea, length_app in L. cbn [List.length] in L. lia. }
  exists pre, post, rest. rewrite K, Eab, Ea. split; [ | split].
  - rewrite firstn_app, Nat.sub_diag, firstn_all. cbn [firstn].
    rewrite app_nil_r. reflexivity.
  - exact Eb.
  - rewrite nth_error_app2 by lia. rewrite Nat.sub_diag. reflexivity.
Qed.

(** X15: the pattern matcher and the two scanners number lines alike. A
    field of the pattern matcher is made from a match of a pattern of its
    table entry in the document, and its line number is one more than the
    number [k] of line breaks before the start of that match. The text
    before the match is made of the first [k] lines of the document, as
    the scanners number them, and the beginning of the next; the text from
    the start of the match on begins with the rest of that line. So the
    line with the field's number is the line in which its match starts. *)
Theorem line_of_a_pattern_field : forall doc s,
  reached doc s ->
  Forall
    (fun f =>
       extraction_method f = Some (u"pattern_matching") ->
       exists name patterns pattern m v k before after rest,
         In (name, patterns) FIELD_PATTERNS
         /\ In pattern patterns
         /\ In m (matches pattern doc true)
         /\ extract_number (capture doc m) = Some v
         /\ f = pattern_field doc name (m, v)
         /\ k = PyStr.count newline (PyStr.slice doc 0 (Re.m_start m))
         /\ line_number f = Some (k + 1)
         /\ PyStr.split newline (PyStr.slice doc 0 (Re.m_start m))
            = firstn k (lines s) ++ [before]
         /\ PyStr.split newline (skipn (Re.m_start m) doc) = after :: rest
         /\ nth_error (lines s) k = Some (before ++ after))
    (parsed_fields s).
Proof.
  intros doc s R. apply Forall_forall. intros f Hf M.
  destruct (reached_inv R) as (_ & L & O). rewrite L.
  apply O in Hf. apply origin_source in Hf.
  destruct Hf as [H | [H | H]].
  - destruct H as (name & patterns & pattern & m & v & H1 & H2 & Hm & Hv & ->).
    destruct (split_at newline doc (Re.m_start m))
      as (pre & post & rest & E1 & E2 & E3).
    exists name, patterns, pattern, m, v,
      (PyStr.count newline (PyStr.slice doc 0 (Re.m_start m))), pre, post,
      rest.
    split; [exact H1 | ]. split; [exact H2 | ]. split; [exact Hm | ].
    split; [exact Hv | ]. split; [reflexivity | ].
    split; [reflexivity | ]. split; [reflexivity | ].
    split; [exact E1 | ]. split; [exact E2 | exact E3].
  - destruct H as (n & line & kw & m & v & _ & _ & _ & _ & _ & _ & _ & ->).
    unfold context_field in M; cbn [extraction_method] in M.
    injection M as M. vm_compute in M. discriminate.
  - destruct H as (n & line & m & v & _ & _ & _ & _ & _ & ->).
    unfold amount_field in M; cbn [extraction_method] in M.
    injection M as M. vm_compute in M. discriminate.
Qed.

Lemma line_of_a_pattern_field_witness :
  reached sample_document sample_parsed
  /\ Forall
       (fun f =>
          extraction_method f = Some (u"pattern_matching") ->
          exists name patterns pattern m v k before after rest,
            In (name, patterns) FIELD_PATTERNS
            /\ In pattern patterns
            /\ In m (matches pattern sample_document true)
            /\ extract_number (capture sample_document m) = Some v
            /\ f = pattern_field sample_document name (m, v)
            /\ k = PyStr.count newline
                     (PyStr.slice sample_document 0 (Re.m_start m))
            /\ line_number f = Some (k + 1)
            /\ PyStr.split newline
                 (PyStr.slice sample_document 0 (Re.m_start m))
               = firstn k (lines sample_parsed) ++ [before]
            /\ PyStr.split newline (skipn (Re.m_start m) sample_document)
               = after :: rest
            /\ nth_error (lines sample_parsed) k = Some (before ++ after))
       (parsed_fields sample_parsed)
  /\ map (fun f => (extraction_method f, line_number f))
       (parsed_fields sample_parsed)
     = [(Some (u"pattern_matching"), Some 2);
        (Some (u"context_aware"), Some 3);
        (Some (u"context_aware"), Some 3);
        (Some (u"context_aware"), Some 4);
        (Some (u"all_amounts"), Some 5)]
  /\ nth_error (lines sample_parsed) 1 = Some (u"Annual Premium: Rs. 500").
Proof.
  split; [exact sample_reached | ].
  split;
    [exact (@line_of_a_pattern_field sample_document sample_parsed
              sample_reached) | ].
  vm_compute. split; reflexivity.
Defined.

(** ** The files of [main] *)

Lemma rsplit_last_spec sep : forall s,
  match rsplit_last sep s with
  | Some (before, after) => s = before ++ sep :: after /\ ~ In sep after
  | None => ~ In sep s
  end.
Proof.
  induction s as [ | c s IH]; cbn [rsplit_last]; [intros [] | ].
  destruct (rsplit_last sep s) as [[b a] | ].
  - destruct IH as [E N]. split; [cbn [app]; f_equal; exact E | exact N].
  - unfold PyStr.char_eqb. destruct (N.eqb_spec c sep) as [-> | Ne].
    + split; [reflexivity | exact IH].
    + intros [H | H]; [apply Ne; exact H | apply IH; exact H].
Qed.

Lemma app_not_self {A : Type} (a b : list A) : b <> [] -> a ++ b <> a.
Proof.
  intros N E. apply N. apply (app_inv_head a).
  rewrite app_nil_r. exact E.
Qed.

(** X16: [main] prints its usage and exits when it is given no input
    file. Otherwise it reads its first argument and exports to CSV exactly
    when the second argument lower-cases to "csv" (any other format, and
    none, gives JSON; further arguments are ignored). The output path is
    the input path up to its last dot, or all of it when it has no dot,
    followed by "_parsed.csv" or "_parsed.json"; it is never the input
    path. *)
Theorem main_output_file :
  (forall argv, main_job argv = None <-> List.length argv < 2)
  /\ forall prog input rest,
       exists base out fmt,
         main_job (prog :: input :: rest)
         = Some {| input_file := input; output_file := out;
                   export_format := fmt |}
         /\ (fmt = to_csv
             <-> exists a more, rest = a :: more /\ PyStr.lower a = u"csv")
         /\ out = base ++ match fmt with
                          | to_csv => u"_parsed.csv"
                          | to_json => u"_parsed.json"
                          end
         /\ ((input = base /\ ~ In 46%N input)
             \/ exists ext, input = base ++ 46%N :: ext /\ ~ In 46%N ext)
         /\ out <> input.
Proof.
  split.
  - intros argv. unfold main_job.
    destruct (Nat.ltb_spec (List.length argv) 2) as [L | L].
    + split; [intros _; exact L | reflexivity].
    + split; [ | lia].
      destruct (PyStr.eqb _ (u"csv")); discriminate.
  - intros prog input rest. unfold main_job.
    cbn [List.length Nat.ltb Nat.leb nth].
    set (base := nth 0 (rsplit_once 46%N input) []).
    assert ((input = base /\ ~ In 46%N input)
            \/ exists ext, input = base ++ 46%N :: ext /\ ~ In 46%N ext) as B.
    { unfold base, rsplit_once.
      pose proof (rsplit_last_spec 46%N input) as H.
      destruct (rsplit_last 46%N input) as [[b a] | ]; cbn [nth].
      - right. exists a. exact H.
      - left. split; [reflexivity | exact H]. }
    assert (forall suffix : str,
              suffix <> [] -> hd 0%N suffix <> 46%N ->
              base ++ suffix <> input) as Ne.
    { intros suffix N1 N2 E. destruct B as [[Eb _] | (ext & Eb & _)].
      - apply (@app_not_self _ base suffix N1 (eq_trans E Eb)).
      - pose proof (eq_trans E Eb) as E'. apply app_inv_head in E'.
        subst suffix. apply N2. reflexivity. }
    destruct rest as [ | a more]; cbn [List.length nth].
    + replace (PyStr.eqb (PyStr.lower (u"json")) (u"csv")) with false
        by (vm_compute; reflexivity).
      exists base, (base ++ u"_parsed.json"), to_json.
      split; [reflexivity | ]. split; [ | split; [reflexivity | ]].
      * split; [discriminate | ]. intros (a & more & [=] & _).
      * split; [exact B | ]. apply Ne; [discriminate | ].
        vm_compute. discriminate.
    + destruct (PyStr.eqb (PyStr.lower a) (u"csv")) eqn:E.
      * exists base, (base ++ u"_parsed.csv"), to_csv.
        split; [reflexivity | ]. split; [ | split; [reflexivity | ]].
        -- split; [intros _ | reflexivity].
           apply str_eqb_eq in E. exists a, more.
           split; [reflexivity | exact E].
        -- split; [exact B | ]. apply Ne; [discriminate | ].
           vm_compute. discriminate.
      * exists base, (base ++ u"_parsed.json"), to_json.
        split; [reflexivity | ]. split; [ | split; [reflexivity | ]].
        -- split; [discriminate | ].
           intros (a' & more' & [= <- <-] & Ea).
           rewrite Ea, str_eqb_refl in E. discriminate.
        -- split; [exact B | ]. apply Ne; [discriminate | ].
           vm_compute. discriminate.
Qed.

(** ** The totals of the summary *)

Lemma ltb_not_negative x :
  PrimFloat.ltb x 0 = false -> sf_not_negative (Prim2SF x).
Proof.
  rewrite ltb_spec. change (Prim2SF 0) with (S754_zero false).
  destruct (Prim2SF x) as [s | s | | s m e]; cbn;
    try destruct s; try reflexivity; try discriminate; auto.
Qed.

Lemma SFadd_sign a b :
  sf_not_negative a -> sf_not_negative b ->
  sf_not_negative (SFadd prec emax a b).
Proof.
  destruct a as [sa | sa | | sa ma ea], b as [sb | sb | | sb mb eb];
    cbn [sf_not_negative SFadd]; intros Ha Hb; subst; auto.
  - destruct sa, sb; exact I.
  - reflexivity.
  - cbn [cond_Zopp Z.add binary_normalize]. apply binary_round_sign.
Qed.

Lemma sum_not_negative : forall (fs : list FinancialField) acc,
  PrimFloat.ltb acc 0 = false ->
  (forall f, In f fs -> PrimFloat.ltb (value f) 0 = false) ->
  PrimFloat.ltb (fold_left (fun a f => (a + value f)%float) fs acc) 0
  = false.
Proof.
  induction fs as [ | f fs IH]; intros acc A H; cbn [fold_left]; [exact A | ].
  apply IH; [ | intros g Hg; apply H; right; exact Hg].
  apply not_negative_ltb. rewrite add_spec. apply SFadd_sign.
  - apply ltb_not_negative. exact A.
  - apply ltb_not_negative. apply H. left. reflexivity.
Qed.

(** X17: after any calls of [parse], none of the three totals of the
    summary is below zero. *)
Theorem totals_never_negative : forall doc s,
  reached doc s ->
  PrimFloat.ltb (total_premium_amount (_generate_summary s)) 0 = false
  /\ PrimFloat.ltb (total_coverage_amount (_generate_summary s)) 0 = false
  /\ PrimFloat.ltb (total_claims_amount (_generate_summary s)) 0 = false.
Proof.
  intros doc s R.
  destruct (summary_fold (parsed_fields s)
              {| by_category := []; by_currency := [];
                 high_confidence_fields := 0;
                 total_premium_amount := 0%float;
                 total_coverage_amount := 0%float;
                 total_claims_amount := 0%float |}) as (P & C & L & _).
  cbn zeta in *. unfold _generate_summary. rewrite P, C, L.
  cbn [total_premium_amount total_coverage_amount total_claims_amount].
  assert (forall p f, In f (filter p (parsed_fields s)) ->
                      PrimFloat.ltb (value f) 0 = false) as V.
  { intros p f Hf. apply filter_In in Hf. destruct Hf as [Hf _].
    apply (@origin_value doc). apply (reached_inv R). exact Hf. }
  repeat split; (apply sum_not_negative; [reflexivity | apply V]).
Qed.

Lemma totals_never_negative_witness :
  reached (u"Annual Premium: Rs. 500")
    (after_parse (__init__ (u"Annual Premium: Rs. 500")) true)
  /\ PrimFloat.ltb
       (total_premium_amount
          (_generate_summary
             (after_parse (__init__ (u"Annual Premium: Rs. 500")) true))) 0
     = false.
Proof.
  assert (reached (u"Annual Premium: Rs. 500")
            (after_parse (__init__ (u"Annual Premium: Rs. 500")) true))
    as R.
  { apply (@reached_parse (u"Annual Premium: Rs. 500")
             (__init__ (u"Annual Premium: Rs. 500")) true []
             (parse_results (__init__ (u"Annual Premium: Rs. 500")) true [])
             _).
    - apply reached_init.
    - apply parse_spec. }
  split; [exact R | ].
  apply (proj1 (@totals_never_negative (u"Annual Premium: Rs. 500") _ R)).
Defined.

(** ** The fields of a category, in order *)

Lemma filter_sorted {A : Type} (R : A -> A -> Prop) (p : A -> bool) :
  forall l, StronglySorted R l -> StronglySorted R (filter p l).
Proof.
  induction 1 as [ | x l S IH F]; cbn [filter]; [constructor | ].
  destruct (p x); [ | exact IH].
  constructor; [exact IH | ].
  apply Forall_forall. intros y Hy. apply filter_In in Hy.
  rewrite Forall_forall in F. apply F. apply Hy.
Qed.

(** X18: after any calls of [parse], [get_fields_by_category] returns the
    fields of the category in order of confidence, the largest first: its
    first element has the largest confidence of the category. *)
Theorem get_fields_by_category_ordered : forall doc s,
  reached doc s ->
  forall c,
    StronglySorted by_confidence (get_fields_by_category s c)
    /\ forall f rest g,
         get_fields_by_category s c = f :: rest ->
         In g (parsed_fields s) -> category g = c ->
         PrimFloat.leb (confidence g) (confidence f) = true.
Proof.
  intros doc s R c.
  assert (StronglySorted by_confidence (get_fields_by_category s c)) as S.
  { unfold get_fields_by_category. apply filter_sorted.
    apply (reached_sorted R). }
  split; [exact S | ].
  intros f rest g E Hg Cg.
  assert (In g (get_fields_by_category s c)) as H.
  { unfold get_fields_by_category. apply filter_In.
    split; [exact Hg | apply category_eqb_eq; exact Cg]. }
  rewrite E in H, S. destruct H as [<- | H].
  - pose proof (reached_number R) as N. rewrite Forall_forall in N.
    apply N. exact Hg.
  - inversion S as [ | ? ? _ F]; subst.
    rewrite Forall_forall in F. apply F. exact H.
Qed.

Lemma get_fields_by_category_ordered_witness :
  reached sample_document sample_parsed
  /\ (forall c,
        StronglySorted by_confidence (get_fields_by_category sample_parsed c)
        /\ forall f rest g,
             get_fields_by_category sample_parsed c = f :: rest ->
             In g (parsed_fields sample_parsed) -> category g = c ->
             PrimFloat.leb (confidence g) (confidence f) = true)
  /\ map field_name (get_fields_by_category sample_parsed PREMIUM)
     = [u"annual_premium"; u"premium_line_4"]
  /\ map confidence (get_fields_by_category sample_parsed PREMIUM)
     = [1; 0.55999999999999994]%float.
Proof.
  split; [exact sample_reached | ].
  split;
    [exact (@get_fields_by_category_ordered sample_document sample_parsed
              sample_reached) | ].
  vm_compute. split; reflexivity.
Defined.

(** ** Looking up a name of the pattern table *)






Lemma hd_error_In {A : Type} (l : list A) x : hd_error l = Some x -> In x l.
Proof. destruct l; [discriminate | intros [= ->]; left; reflexivity]. Qed.


